(** * Fontshare downloader and installers: a shallow embedding

    The development follows the Python scripts of the repository:
    - [fontshare_downloader.py]  (class [FontshareDownloader], asyncio),
    - [fontshare_bulk_downloader.py] (sequential loop),
    - [install_fonts.py], [proper_font_installer.py],
      [advanced_font_installer.py], [extract_all_fonts.py].

    Operating-system and network calls are modelled by an explicit file
    system value and by oracles that either return or raise. *)

From stdpp Require Import gmap strings list pretty.
From Stdlib Require Import Ascii.

Open Scope string_scope.

(** ** Results of fallible calls *)

(** A Python call either returns or raises an [Exception] whose text is
    [msg] (what [except Exception as e] binds and [f"{e}"] prints). *)
Inductive result (A : Type) :=
| Ok (a : A)
| Raise (msg : string).
Arguments Ok {A} a.
Arguments Raise {A} msg.

Definition bytes := list Byte.byte.

(** ** File system *)

(** A path is its list of components; [p / n] appends one component.
    This is [pathlib]'s [/] when [n] is a single plain component; a
    name that [pathlib] would parse further (an empty name, [.], [..], a
    name with a separator or, on Windows, a drive) is taken as it is
    here, so statements that depend on where such a name leads are made
    for single components only (see [single_component]).  The disk holds
    directories and files, no links, and names are compared exactly. *)
Definition path := list string.
Definition pjoin (p : path) (n : string) : path := (p ++ [n])%list.
Declare Scope path_scope.
Delimit Scope path_scope with path.
Infix "/" := pjoin : path_scope.
Definition parent (p : path) : path := removelast p.

Inductive node := Dir | File (content : bytes).

Abbreviation fsys := (gmap path node).

(** The root (the working directory the relative paths start from) is
    always a directory. *)
Definition is_dir (fs : fsys) (p : path) : bool :=
  match p with
  | [] => true
  | _ => match fs !! p with Some Dir => true | _ => false end
  end.

(** [Path.mkdir(exist_ok=True)] (no [parents=True]). *)
Definition mkdir_exist_ok (fs : fsys) (p : path) : result fsys :=
  if is_dir fs p then Ok fs
  else match fs !! p with
       | Some _ => Raise "FileExistsError"
       | None => if is_dir fs (parent p) then Ok (<[p := Dir]> fs)
                 else Raise "FileNotFoundError"
       end.

(** [Path.exists()] and [Path.stat().st_size]; the size the platform reports
    for a directory is a parameter [dir_size]. *)
Definition path_exists (fs : fsys) (p : path) : bool :=
  match fs !! p with Some _ => true | None => false end.

Definition st_size (dir_size : Z) (fs : fsys) (p : path) : Z :=
  match fs !! p with
  | Some (File c) => Z.of_nat (length c)
  | Some Dir => dir_size
  | None => 0
  end.

(** [open(p, 'wb')]: fails on a directory or under a missing directory,
    otherwise creates or truncates the file. *)
Definition open_wb (fs : fsys) (p : path) : result fsys :=
  if is_dir fs p then Raise "IsADirectoryError"
  else if is_dir fs (parent p) then Ok (<[p := File []]> fs)
  else Raise "FileNotFoundError".

(** [f.write(chunk)] on the open file appends to what is already there. *)
Definition append_bytes (fs : fsys) (p : path) (chunk : bytes) : fsys :=
  match fs !! p with
  | Some (File c) => <[p := File (c ++ chunk)%list]> fs
  | _ => fs
  end.

(** The states the file system goes through while
    [with open(p,'wb') as f: f.write(content)] runs: first the truncated
    file, then one state per byte reaching the disk. *)
Fixpoint write_states (fs : fsys) (p : path) (content : bytes) : list fsys :=
  match content with
  | [] => []
  | b :: rest =>
      let fs' := append_bytes fs p [b] in fs' :: write_states fs' p rest
  end.

Definition write_file_trace (fs : fsys) (p : path) (content : bytes)
  : result (list fsys) :=
  match open_wb fs p with
  | Raise e => Raise e
  | Ok fs0 => Ok (fs0 :: write_states fs0 p content)
  end.

Definition write_file (fs : fsys) (p : path) (content : bytes) : result fsys :=
  match write_file_trace fs p content with
  | Raise e => Raise e
  | Ok tr => Ok (List.last tr fs)
  end.

(** ** Network *)

(** A response carries its status and what [await response.read()] gives. *)
Record response := Response { status : Z; read : result bytes }.

(** The remote service: what a GET on a URL yields (a response, or a
    transport error raised by [session.get]). *)
Record world := World {
  http_get : string → result response;
  dir_size : Z;
}.

(** The test both downloaders make before fetching:
    [font_file.exists() and font_file.stat().st_size > 0]. *)
Definition already_downloaded (w : world) (fs : fsys) (p : path) : bool :=
  path_exists fs p && bool_decide (0 < st_size (dir_size w) fs p)%Z.

(** Every entry below the root sits in a directory. *)
Definition wf_fs (fs : fsys) : Prop :=
  map_Forall (λ (p : path) (_ : node), is_dir fs (parent p) = true) fs.

(** A complete-looking archive: a file with at least one byte. *)
Definition nonempty_file (fs : fsys) (p : path) : Prop :=
  ∃ c, fs !! p = Some (File c) ∧ c ≠ [].

(** What went wrong with a fetch, if anything: the transport error of
    [session.get], ["HTTP <status>"] for a status other than 200, the
    error of [response.read()]. *)
Definition failure_reason (w : world) (u : string) : option string :=
  match http_get w u with
  | Raise e => Some e
  | Ok r =>
      if bool_decide (status r = 200%Z)
      then match read r with Raise e => Some e | Ok _ => None end
      else Some ("HTTP " ++ pretty (status r))
  end.

(** ** Logging *)

Inductive level := INFO | WARNING | ERROR.
Record log_record := Log { lvl : level; message : string }.

(** * [fontshare_downloader.py]: class [FontshareDownloader] *)

Module FontshareDownloader.

Record t := Make {
  output_dir : path;
  max_concurrent : nat;
  base_url : string;
}.

Definition fonts_dir (self : t) : path := (output_dir self / "fonts")%path.

Definition download_url (self : t) (font_name : string) : string :=
  base_url self ++ "/fonts/download/" ++ font_name.

Definition font_dir (self : t) (font_name : string) : path :=
  (fonts_dir self / font_name)%path.

Definition font_file (self : t) (font_name : string) : path :=
  (font_dir self font_name / (font_name ++ ".zip"))%path.

Definition msg_skipping (n : string) : string :=
  "⏭️  Skipping " ++ n ++ " (already downloaded)".
Definition msg_downloaded (n : string) (len : nat) : string :=
  "✅ Downloaded " ++ n ++ " (" ++ pretty len ++ " bytes)".
Definition msg_http (n : string) (st : Z) : string :=
  "❌ Failed to download " ++ n ++ ": HTTP " ++ pretty st.
Definition msg_error (n : string) (e : string) : string :=
  "❌ Error downloading " ++ n ++ ": " ++ e.

(** Where a [download_font] coroutine stands.  The coroutine only yields
    to the event loop at its [await]s, so it is cut there. *)
Inductive pc :=
| Waiting                       (* before [async with semaphore] is entered *)
| AwaitGet                      (* [session.get(download_url)] in flight *)
| AwaitRead (rd : result bytes) (* [response.read()] in flight *)
| Sleeping                      (* [asyncio.sleep(self.rate_limit)] *)
| Done (b : bool).              (* returned [b], semaphore released *)

(** What one segment of the coroutine does: the next program point, the new
    file system, the log records emitted and the requests issued. *)
Record seg := Seg {
  seg_pc : pc; seg_fs : fsys; seg_log : list log_record; seg_reqs : list string
}.

(** The [except Exception as e] handler of [download_font]. *)
Definition handler (n : string) (fs : fsys) (e : string) : seg :=
  Seg (Done false) fs [Log ERROR (msg_error n e)] [].

(** From entering the semaphore to the first [await]: create the directory,
    skip when the archive is there, otherwise issue the request. *)
Definition seg_start (w : world) (self : t) (fs : fsys) (n : string) : seg :=
  match mkdir_exist_ok fs (font_dir self n) with
  | Raise e => handler n fs e
  | Ok fs1 =>
      if already_downloaded w fs1 (font_file self n)
      then Seg (Done true) fs1 [Log INFO (msg_skipping n)] []
      else Seg AwaitGet fs1 [] [download_url self n]
  end.

(** The request completes: transport error, or a response whose status is
    tested against 200. *)
Definition seg_get (w : world) (self : t) (fs : fsys) (n : string) : seg :=
  match http_get w (download_url self n) with
  | Raise e => handler n fs e
  | Ok r =>
      if bool_decide (status r = 200%Z)
      then Seg (AwaitRead (read r)) fs [] []
      else Seg (Done false) fs [Log ERROR (msg_http n (status r))] []
  end.

(** The body has been read (or reading failed): write the file, log. *)
Definition seg_read (self : t) (fs : fsys) (n : string) (rd : result bytes) : seg :=
  match rd with
  | Raise e => handler n fs e
  | Ok content =>
      match write_file fs (font_file self n) content with
      | Raise e => handler n fs e
      | Ok fs' => Seg Sleeping fs' [Log INFO (msg_downloaded n (length content))] []
      end
  end.

(** The sleep is over: [return True]. *)
Definition seg_sleep (fs : fsys) : seg := Seg (Done true) fs [] [].

(** The segment to run from a program point; [None] once the coroutine is over. *)
Definition seg_of (w : world) (self : t) (fs : fsys) (n : string) (p : pc)
  : option seg :=
  match p with
  | Waiting => Some (seg_start w self fs n)
  | AwaitGet => Some (seg_get w self fs n)
  | AwaitRead rd => Some (seg_read self fs n rd)
  | Sleeping => Some (seg_sleep fs)
  | Done _ => None
  end.

(** [download_font] run on its own (the semaphore is free): the segments in
    sequence.  Four segments always reach the end. *)
Fixpoint run_segs (fuel : nat) (w : world) (self : t) (n : string) (s : seg) : seg :=
  match fuel with
  | O => s
  | S fuel' =>
      match seg_of w self (seg_fs s) n (seg_pc s) with
      | None => s
      | Some s' =>
          run_segs fuel' w self n
            (Seg (seg_pc s') (seg_fs s') (seg_log s ++ seg_log s')%list
                 (seg_reqs s ++ seg_reqs s')%list)
      end
  end.

Definition download_font (w : world) (self : t) (fs : fsys) (font_name : string)
  : seg :=
  run_segs 4 w self font_name (Seg Waiting fs [] []).

(** The successive states of the disk while [download_font] runs, the
    initial one first: after [mkdir], then through the write.  An
    interruption (operator abort, crash) leaves the disk in one of them. *)
Definition states_during (w : world) (self : t) (fs : fsys) (n : string)
  : list fsys :=
  fs ::
  match mkdir_exist_ok fs (font_dir self n) with
  | Raise _ => []
  | Ok fs1 =>
      fs1 ::
      if already_downloaded w fs1 (font_file self n) then []
      else
        match http_get w (download_url self n) with
        | Raise _ => []
        | Ok r =>
            if bool_decide (status r = 200%Z) then
              match read r with
              | Raise _ => []
              | Ok content =>
                  match write_file_trace fs1 (font_file self n) content with
                  | Raise _ => []
                  | Ok tr => tr
                  end
              end
            else []
        end
  end.

(** ** [download_all_fonts]: the coroutines under the event loop *)

(** One task per entry of [font_list], all sharing the semaphore, the file
    system, the logger and the session.  asyncio runs one coroutine at a
    time and switches only at an [await]; a step of the machine runs one
    segment of one task.  Which task runs next is the event loop's choice:
    it is the schedule. *)
Record task := Task { t_name : string; t_pc : pc }.

Record state := State {
  sem : nat;                  (* the semaphore's free slots *)
  tasks : list task;
  st_fs : fsys;
  st_log : list log_record;
  st_reqs : list string;      (* requests issued so far, in order *)
  results : list bool;        (* [results], in completion order *)
}.

Definition is_waiting (p : pc) : bool :=
  match p with Waiting => true | _ => false end.
Definition is_done (p : pc) : bool :=
  match p with Done _ => true | _ => false end.
(** Inside [async with semaphore]. *)
Definition holds_slot (p : pc) : bool :=
  match p with AwaitGet | AwaitRead _ | Sleeping => true | _ => false end.
(** A request has been sent and its response is not consumed yet. *)
Definition in_flight (p : pc) : bool :=
  match p with AwaitGet | AwaitRead _ => true | _ => false end.

Definition result_of (p : pc) : list bool :=
  match p with Done b => [b] | _ => [] end.

Definition step (w : world) (self : t) (st : state) (i : nat) : option state :=
  match tasks st !! i with
  | None => None
  | Some tk =>
      if is_waiting (t_pc tk) && bool_decide (sem st = 0) then None
      else
        match seg_of w self (st_fs st) (t_name tk) (t_pc tk) with
        | None => None
        | Some s =>
            let acquired := if is_waiting (t_pc tk) then sem st - 1 else sem st in
            let released := if is_done (seg_pc s) then acquired + 1 else acquired in
            Some {| sem := released;
                    tasks := <[i := Task (t_name tk) (seg_pc s)]> (tasks st);
                    st_fs := seg_fs s;
                    st_log := (st_log st ++ seg_log s)%list;
                    st_reqs := (st_reqs st ++ seg_reqs s)%list;
                    results := (results st ++ result_of (seg_pc s))%list |}
        end
  end.

Definition init (self : t) (fs : fsys) (font_list : list string) : state :=
  {| sem := max_concurrent self;
     tasks := (λ n, Task n Waiting) <$> font_list;
     st_fs := fs; st_log := []; st_reqs := []; results := [] |}.

(** Running a schedule; a task that cannot move is passed over. *)
Fixpoint exec (w : world) (self : t) (st : state) (sched : list nat) : state :=
  match sched with
  | [] => st
  | i :: sched' =>
      match step w self st i with
      | Some st' => exec w self st' sched'
      | None => exec w self st sched'
      end
  end.

Definition all_done (st : state) : bool :=
  forallb (λ tk, is_done (t_pc tk)) (tasks st).

Definition count_pc (f : pc → bool) (st : state) : nat :=
  sum_list_with (λ tk, Nat.b2n (f (t_pc tk))) (tasks st).

Definition is_failed (p : pc) : bool :=
  match p with Done false => true | _ => false end.

Definition count_errors (l : list log_record) : nat :=
  sum_list_with (λ r, match lvl r with ERROR => 1 | _ => 0 end) l.

(** The results of the finished tasks, in task order. *)
Definition outcomes (st : state) : list bool :=
  tasks st ≫= (λ tk, result_of (t_pc tk)).

(** [sum(results)] on a list of booleans. *)
Definition sum_bools (l : list bool) : Z :=
  foldr (λ (b : bool) acc, ((if b then 1 else 0) + acc)%Z) 0%Z l.

(** The [stats] dictionary built once every task has been awaited. *)
Definition stats_of (font_list : list string) (res : list bool) : gmap string Z :=
  let success_count := sum_bools res in
  let failed_count := (Z.of_nat (length res) - success_count)%Z in
  {[ "total" := Z.of_nat (length font_list);
     "success" := success_count;
     "failed" := failed_count ]}.

(** [download_all_fonts] under a schedule: the statistics when the schedule
    lets every task finish.  (The [font-list.json] file written first lives
    under [metadata_dir] and is left out.) *)
Definition download_all_fonts (w : world) (self : t) (fs : fsys)
    (font_list : list string) (sched : list nat) : option (gmap string Z) :=
  let st := exec w self (init self fs font_list) sched in
  if all_done st then Some (stats_of font_list (results st)) else None.

(** The schedule that runs the tasks one after the other. *)
Definition sequential (n : nat) : list nat :=
  flat_map (λ i, [i; i; i; i]) (seq 0 n).

(** How many segments a task may still run. *)
Definition rank (p : pc) : nat :=
  match p with
  | Waiting => 4 | AwaitGet => 3 | AwaitRead _ => 2 | Sleeping => 1 | Done _ => 0
  end.

(** The invariants of the machine: slots are accounted for, the tasks stay
    those of [font_list], [results] holds the results of the finished tasks
    in some order, and the log has one ERROR record per failed task. *)
Record inv (self : t) (font_list : list string) (st : state) : Prop := Inv {
  inv_sem : sem st + count_pc holds_slot st = max_concurrent self;
  inv_names : t_name <$> tasks st = font_list;
  inv_results : results st ≡ₚ outcomes st;
  inv_errors : count_errors (st_log st) = count_pc is_failed st;
}.

End FontshareDownloader.

(** * [fontshare_bulk_downloader.py] *)

Module BulkDownloader.

(** What [print] wrote.  The size shown after a download is a float
    formatted with [.1f]; it is kept as the byte count it is computed from. *)
Inductive printed :=
| Line (s : string)
| SizeMB (nbytes : nat).

Record acc := Acc {
  success_count : Z;
  failed_fonts : list string;
  fs : fsys;
  requests : list string;
  stdout : list printed;
}.

Definition url (font_name : string) : string :=
  "https://api.fontshare.com/v2/fonts/download/" ++ font_name.

Definition font_dir (output_dir : path) (font_name : string) : path :=
  (output_dir / font_name)%path.
Definition font_file (output_dir : path) (font_name : string) : path :=
  (font_dir output_dir font_name / (font_name ++ ".zip"))%path.

(** [f"{i:2d}"] *)
Definition fmt_2d (i : nat) : string :=
  if bool_decide (i < 10) then " " ++ pretty i else pretty i.

Definition msg_progress (i total : nat) (n : string) : string :=
  "[" ++ fmt_2d i ++ "/" ++ pretty total ++ "] Downloading " ++ n ++ "...".

(** The [except Exception as e] branch of the loop body. *)
Definition on_exception (a : acc) (fs' : fsys) (reqs : list string)
    (n e : string) : acc :=
  {| success_count := success_count a;
     failed_fonts := (failed_fonts a ++ [n])%list;
     fs := fs'; requests := reqs;
     stdout := (stdout a ++ [Line ("❌ Error: " ++ e)])%list |}.

(** One iteration of the [for i, font_name in enumerate(fonts, 1)] loop,
    after the progress line has been printed into [a]. *)
Definition fetch_one (w : world) (output_dir : path) (a : acc) (n : string) : acc :=
  match mkdir_exist_ok (fs a) (font_dir output_dir n) with
  | Raise e => on_exception a (fs a) (requests a) n e
  | Ok fs1 =>
      if already_downloaded w fs1 (font_file output_dir n) then
        {| success_count := success_count a + 1;
           failed_fonts := failed_fonts a;
           fs := fs1; requests := requests a;
           stdout := (stdout a ++ [Line "⏭️  (already exists)"])%list |}
      else
        let reqs := (requests a ++ [url n])%list in
        match http_get w (url n) with
        | Raise e => on_exception a fs1 reqs n e
        | Ok r =>
            if bool_decide (status r = 200%Z) then
              match read r with
              | Raise e => on_exception a fs1 reqs n e
              | Ok content =>
                  match write_file fs1 (font_file output_dir n) content with
                  | Raise e => on_exception a fs1 reqs n e
                  | Ok fs2 =>
                      {| success_count := success_count a + 1;
                         failed_fonts := failed_fonts a;
                         fs := fs2; requests := reqs;
                         stdout := (stdout a ++ [SizeMB (length content)])%list |}
                  end
              end
            else
              {| success_count := success_count a;
                 failed_fonts := (failed_fonts a ++ [n])%list;
                 fs := fs1; requests := reqs;
                 stdout := (stdout a ++ [Line ("❌ HTTP " ++ pretty (status r))])%list |}
        end
  end.

Definition iteration (w : world) (output_dir : path) (total : nat)
    (a : acc) (i : nat) (n : string) : acc :=
  let a' := {| success_count := success_count a; failed_fonts := failed_fonts a;
               fs := fs a; requests := requests a;
               stdout := (stdout a ++ [Line (msg_progress i total n)])%list |} in
  fetch_one w output_dir a' n.

Fixpoint loop (w : world) (output_dir : path) (total : nat)
    (a : acc) (i : nat) (fonts : list string) : acc :=
  match fonts with
  | [] => a
  | n :: rest => loop w output_dir total (iteration w output_dir total a i n) (S i) rest
  end.

(** [download_all_fonts(fonts, output_dir, rate_limit)] up to the final
    statistics (the sleeps between iterations change nothing here). *)
Definition download_all_fonts (w : world) (fs0 : fsys) (fonts : list string)
    (output_dir : path) : acc :=
  loop w output_dir (length fonts)
    {| success_count := 0; failed_fonts := []; fs := fs0; requests := [];
       stdout := [] |} 1 fonts.

End BulkDownloader.

(** * Strings and archive entries *)

(** [str.lower()], on the ASCII letters. *)
Definition lower_ascii (c : ascii) : ascii :=
  let n := nat_of_ascii c in
  if (65 <=? n)%nat && (n <=? 90)%nat then ascii_of_nat (n + 32) else c.

Fixpoint lower (s : string) : string :=
  match s with
  | EmptyString => EmptyString
  | String c s' => String (lower_ascii c) (lower s')
  end.

(** [str.replace(a, b)] for one-character [a] and [b]. *)
Fixpoint replace_char (a b : ascii) (s : string) : string :=
  match s with
  | EmptyString => EmptyString
  | String c s' => String (if Ascii.eqb c a then b else c) (replace_char a b s')
  end.

(** [str.endswith(suf)] *)
Fixpoint endswith (s suf : string) : bool :=
  if String.eqb s suf then true
  else match s with
       | EmptyString => false
       | String _ s' => endswith s' suf
       end.

(** [any(name.lower().endswith(ext) for ext in exts)] *)
Definition has_font_extension (exts : list string) (name : string) : bool :=
  existsb (endswith (lower name)) exts.

(** The separators of the two path flavours of [pathlib]. *)
Inductive flavour := Posix | Windows.

Definition is_sep (fl : flavour) (c : ascii) : bool :=
  match fl with
  | Posix => Ascii.eqb c "/"%char
  | Windows => Ascii.eqb c "/"%char || Ascii.eqb c "\"%char
  end.

(** Cutting a string at the separators: the first component and the others. *)
Fixpoint split_aux (fl : flavour) (s : string) : string * list string :=
  match s with
  | EmptyString => (EmptyString, [])
  | String c s' =>
      let '(hd, tl) := split_aux fl s' in
      if is_sep fl c then (EmptyString, hd :: tl) else (String c hd, tl)
  end.

Definition split_path (fl : flavour) (s : string) : list string :=
  let '(hd, tl) := split_aux fl s in hd :: tl.

(** [Path(s).name]: the last component, empty and ["."] components being
    dropped by the parser.  (Drive and UNC prefixes of the Windows flavour
    are not modelled.) *)
Definition path_name (fl : flavour) (s : string) : string :=
  List.last (filter (λ c, c ≠ "" ∧ c ≠ ".") (split_path fl s)) "".

(** The member name [ZipFile.extract] writes under the target directory:
    the components of the entry's name without the empty ones, ["."] and
    [".."].  (On Windows the library also drops a drive prefix and
    characters a file name cannot hold; that is not modelled.) *)
Definition arcname (fl : flavour) (s : string) : list string :=
  filter (λ c, c ≠ "" ∧ c ≠ "." ∧ c ≠ "..") (split_path fl s).

(** Applying [f] to the last element of a list. *)
Fixpoint map_last {A} (f : A → A) (l : list A) : list A :=
  match l with
  | [] => []
  | [x] => [f x]
  | x :: l' => x :: map_last f l'
  end.

(** Does a name contain a separator, that is, a directory part? *)
Fixpoint has_sep (fl : flavour) (s : string) : bool :=
  match s with
  | EmptyString => false
  | String c s' => is_sep fl c || has_sep fl s'
  end.

(** An entry of a ZIP archive: its name, and what reading it gives. *)
Record zip_entry := ZipInfo { filename : string; data : result bytes }.

(** The bytes of a readable entry. *)
Definition content_of (e : zip_entry) : bytes :=
  match data e with Ok c => c | Raise _ => [] end.

Definition readable (e : zip_entry) : Prop := ∃ c, data e = Ok c.

(** What [zipfile.ZipFile(path, 'r')] gives: the entries ([infolist()]), or
    an error for a file that is not a readable archive. *)
Definition archive := result (list zip_entry).

(** An extracted font file: where it is and what it holds. *)
Record font_file := FontFile { ff_path : path; ff_content : bytes }.

(** [Path.name] and [Path.stem] of a path held as components. *)
Definition name_of (p : path) : string := List.last p "".

(** * [extract_all_fonts.py] *)

Module ExtractAllFonts.

Definition font_extensions : list string := [".ttf"; ".otf"].

(** The body of [with zipfile.ZipFile(zip_file) as zip_ref]: the files
    written into [user_fonts] so far, and the error that ended the loop if
    one did. *)
Fixpoint extract_entries (fl : flavour) (user_fonts : path)
    (entries : list zip_entry) (written : list font_file)
  : list font_file * option string :=
  match entries with
  | [] => (written, None)
  | file_info :: rest =>
      if has_font_extension font_extensions (filename file_info) then
        let clean_name := path_name fl (filename file_info) in
        match data file_info with
        | Raise e => (written, Some e)
        | Ok font_content =>
            extract_entries fl user_fonts rest
              (written ++ [FontFile (user_fonts / clean_name)%path font_content])%list
        end
      else extract_entries fl user_fonts rest written
  end.

(** One iteration of the loop over the ZIP files of [main]. *)
Definition extract_zip (fl : flavour) (user_fonts : path) (z : archive)
  : list font_file * option string :=
  match z with
  | Raise e => ([], Some e)
  | Ok entries => extract_entries fl user_fonts entries []
  end.

End ExtractAllFonts.

(** * Installers: the operating system *)

(** What a call into the operating system may raise: an [Exception], or
    something only a bare [except:] catches (KeyboardInterrupt). *)
Inductive raised := Exc (msg : string) | BaseExc (msg : string).

Inductive outcome (A : Type) :=
| Returns (a : A)
| Raises (e : raised).
Arguments Returns {A} a.
Arguments Raises {A} e.

Inductive hive := HKEY_CURRENT_USER | HKEY_LOCAL_MACHINE.

(** The calls the installers make, as oracles. *)
Record os := OS {
  is_user_an_admin : bool;                         (* IsUserAnAdmin() *)
  copy2 : path → path → outcome unit;              (* shutil.copy2(src, dst) *)
  open_key : hive → outcome unit;                  (* winreg.OpenKey(.., KEY_SET_VALUE) *)
  set_value : hive → string → string → outcome unit; (* winreg.SetValueEx *)
  add_font_resource_w : path → outcome Z;          (* gdi32.AddFontResourceW *)
  send_font_change : outcome unit;                 (* SendMessageW(HWND_BROADCAST, WM_FONTCHANGE) *)
}.

(** What an installer did, in order. *)
Inductive event :=
| Call (f : string)                 (* a strategy was entered *)
| Copied (src dst : path)
| ValueSet (h : hive) (name value : string)
| FontAdded (p : path)
| FontChange
| Printed (s : string)
| Logged (r : log_record).

(** A computation that leaves events behind. *)
Definition run (A : Type) : Type := outcome A * list event.

Definition raise {A} (e : raised) : run A := (Raises e, []).
Definition emit (ev : event) : run unit := (Returns tt, [ev]).
Definition lift {A} (o : outcome A) : run A := (o, []).

#[global] Instance run_ret : MRet run := λ A a, (Returns a, []).
#[global] Instance run_bind : MBind run := λ A B k m,
  match m with
  | (Returns a, evs) => let '(o, evs') := k a in (o, (evs ++ evs')%list)
  | (Raises e, evs) => (Raises e, evs)
  end.

(** [try: body except Exception as e: handler(e)] *)
Definition try_except {A} (body : run A) (handler : string → run A) : run A :=
  match body with
  | (Raises (Exc e), evs) => let '(o, evs') := handler e in (o, (evs ++ evs')%list)
  | r => r
  end.

(** [try: body except: handler] (a bare [except]). *)
Definition try_bare {A} (body : run A) (handler : run A) : run A :=
  match body with
  | (Raises _, evs) => let '(o, evs') := handler in (o, (evs ++ evs')%list)
  | r => r
  end.

(** [Path.stem]: the name without its last suffix (for names that do not
    end with a dot). *)
Fixpoint strip_suffix (s : string) : option string :=
  match s with
  | EmptyString => None
  | String c s' =>
      match strip_suffix s' with
      | Some r => Some (String c r)
      | None => if Ascii.eqb c "."%char then Some EmptyString else None
      end
  end.

Definition stem_of (name : string) : string :=
  match name with
  | EmptyString => EmptyString
  | String c rest =>
      match strip_suffix rest with Some r => String c r | None => name end
  end.

(** [str(p)] for a Windows path. *)
Definition str_path (p : path) : string := String.concat "\" p.

(** A ZIP file found under the downloads directory. *)
Record zip_file := ZipFile {
  zip_path : string;      (* [str(zip_path)] *)
  zip_name : string;      (* [zip_path.name] *)
  contents : archive;
}.

(** * [install_fonts.py]: class [FontInstaller] *)

Module FontInstaller.

Record t := Make {
  os_type : string;          (* [platform.system().lower()] *)
  system_font_dir : path;
  temp_dir : path;
}.

Definition font_extensions : list string :=
  [".ttf"; ".otf"; ".woff"; ".woff2"; ".eot"].

(** The loop of [extract_fonts_from_zip]: [zip_ref.extract(file_info,
    self.temp_dir)] writes the member under [temp_dir] at its archive name
    and returns that path. *)
Fixpoint extract_members (fl : flavour) (self : t) (entries : list zip_entry)
    (font_files : list font_file) : list font_file * option string :=
  match entries with
  | [] => (font_files, None)
  | file_info :: rest =>
      if has_font_extension font_extensions (filename file_info) then
        match data file_info with
        | Raise e => (font_files, Some e)
        | Ok content =>
            let extracted_path :=
              (temp_dir self ++ arcname fl (filename file_info))%list in
            extract_members fl self rest
              (font_files ++ [FontFile extracted_path content])%list
        end
      else extract_members fl self rest font_files
  end.

Definition msg_extract_failed (zp e : string) : string :=
  "Failed to extract " ++ zp ++ ": " ++ e.

Definition extract_fonts_from_zip (fl : flavour) (self : t) (z : zip_file)
  : list font_file * list log_record :=
  match contents z with
  | Raise e => ([], [Log ERROR (msg_extract_failed (zip_path z) e)])
  | Ok entries =>
      match extract_members fl self entries [] with
      | (font_files, None) => (font_files, [])
      | (font_files, Some e) =>
          (font_files, [Log ERROR (msg_extract_failed (zip_path z) e)])
      end
  end.

Definition install_font_windows (o : os) (self : t) (font_path : path) : run bool :=
  emit (Call "install_font_windows");;
  try_except
    (let dest_path := (system_font_dir self / name_of font_path)%path in
     lift (copy2 o font_path dest_path);;
     emit (Copied font_path dest_path);;
     let font_name := stem_of (name_of font_path) in
     lift (open_key o HKEY_LOCAL_MACHINE);;
     lift (set_value o HKEY_LOCAL_MACHINE (font_name ++ " (TrueType)")
             (name_of font_path));;
     emit (ValueSet HKEY_LOCAL_MACHINE (font_name ++ " (TrueType)")
             (name_of font_path));;
     mret true)
    (λ e,
       emit (Logged (Log ERROR ("Failed to install " ++ name_of font_path
                                  ++ " on Windows: " ++ e)));;
       mret false).

Definition install_font_simple_copy (o : os) (self : t) (font_path : path)
  : run bool :=
  emit (Call "install_font_simple_copy");;
  try_except
    (let dest_path := (system_font_dir self / name_of font_path)%path in
     lift (copy2 o font_path dest_path);;
     emit (Copied font_path dest_path);;
     mret true)
    (λ e,
       emit (Logged (Log ERROR ("Failed to copy " ++ name_of font_path
                                  ++ ": " ++ e)));;
       mret false).

Definition install_font (o : os) (self : t) (font_path : path) : run bool :=
  if bool_decide (os_type self = "windows") then
    (* Try admin installation first, fallback to simple copy *)
    try_bare
      (install_font_windows o self font_path)
      (emit (Logged (Log WARNING ("Registry installation failed for "
                                    ++ name_of font_path
                                    ++ ", trying simple copy...")));;
       install_font_simple_copy o self font_path)
  else install_font_simple_copy o self font_path.

Record stats := Stats { processed : Z; installed : Z; failed : Z }.

(** [for font_file in font_files: if self.install_font(font_file): ... else:
    zip_success = False] *)
Fixpoint install_each (o : os) (self : t) (font_files : list font_file)
    (zip_success : bool) : run bool :=
  match font_files with
  | [] => mret zip_success
  | f :: rest =>
      ok ← install_font o self (ff_path f);
      if ok : bool then
        emit (Logged (Log INFO ("✅ Installed: " ++ name_of (ff_path f))));;
        install_each o self rest zip_success
      else
        emit (Logged (Log ERROR ("❌ Failed: " ++ name_of (ff_path f))));;
        install_each o self rest false
  end.

(** One iteration of the loop of [install_all_fonts]. *)
Definition process_zip (o : os) (fl : flavour) (self : t) (st : stats)
    (z : zip_file) : run stats :=
  emit (Logged (Log INFO ("Processing: " ++ zip_name z)));;
  let st := Stats (processed st + 1) (installed st) (failed st) in
  let '(font_files, logs) := extract_fonts_from_zip fl self z in
  (foldr (λ r k, emit (Logged r);; k) (mret tt) logs : run unit);;
  match font_files with
  | [] =>
      emit (Logged (Log WARNING ("No font files found in " ++ zip_name z)));;
      mret (Stats (processed st) (installed st) (failed st + 1))
  | _ =>
      zip_success ← install_each o self font_files true;
      if zip_success : bool
      then mret (Stats (processed st) (installed st + 1) (failed st))
      else mret (Stats (processed st) (installed st) (failed st + 1))
  end.

Fixpoint process_zips (o : os) (fl : flavour) (self : t) (st : stats)
    (zip_files : list zip_file) : run stats :=
  match zip_files with
  | [] => mret st
  | z :: rest => st' ← process_zip o fl self st z; process_zips o fl self st' rest
  end.

Definition install_all_fonts (o : os) (fl : flavour) (self : t)
    (zip_files : list zip_file) : run stats :=
  match zip_files with
  | [] => mret (Stats 0 0 0)
  | _ => process_zips o fl self (Stats 0 0 0) zip_files
  end.

End FontInstaller.

(** * [proper_font_installer.py]: class [WindowsFontInstaller] *)

Module WindowsFontInstaller.

Record t := Make {
  system_fonts : path;
  user_fonts : path;
  temp_dir : path;
}.

(** [is_admin]: [IsUserAnAdmin()], [False] if the call fails. *)
Definition is_admin (o : os) : bool := is_user_an_admin o.

Definition install_font_user_method (o : os) (self : t) (font_path : path)
  : run bool :=
  emit (Call "install_font_user_method");;
  try_except
    (let dest_path := (user_fonts self / name_of font_path)%path in
     lift (copy2 o font_path dest_path);;
     emit (Copied font_path dest_path);;
     let font_name := stem_of (name_of font_path) in
     lift (open_key o HKEY_CURRENT_USER);;
     lift (set_value o HKEY_CURRENT_USER (font_name ++ " (TrueType)")
             (str_path dest_path));;
     emit (ValueSet HKEY_CURRENT_USER (font_name ++ " (TrueType)")
             (str_path dest_path));;
     mret true)
    (λ e,
       emit (Printed ("  ❌ Registry install failed for "
                        ++ name_of font_path ++ ": " ++ e));;
       mret false).

Definition install_font_system_method (o : os) (self : t) (font_path : path)
  : run bool :=
  emit (Call "install_font_system_method");;
  try_except
    (let dest_path := (system_fonts self / name_of font_path)%path in
     lift (copy2 o font_path dest_path);;
     emit (Copied font_path dest_path);;
     let font_name := stem_of (name_of font_path) in
     lift (open_key o HKEY_LOCAL_MACHINE);;
     lift (set_value o HKEY_LOCAL_MACHINE (font_name ++ " (TrueType)")
             (name_of font_path));;
     emit (ValueSet HKEY_LOCAL_MACHINE (font_name ++ " (TrueType)")
             (name_of font_path));;
     mret true)
    (λ e,
       emit (Printed ("  ❌ System install failed for "
                        ++ name_of font_path ++ ": " ++ e));;
       mret false).

Definition install_font_winapi_method (o : os) (self : t) (font_path : path)
  : run bool :=
  emit (Call "install_font_winapi_method");;
  try_except
    (let dest_path :=
       if is_admin o then (system_fonts self / name_of font_path)%path
       else (user_fonts self / name_of font_path)%path in
     lift (copy2 o font_path dest_path);;
     emit (Copied font_path dest_path);;
     result ← lift (add_font_resource_w o dest_path);
     if bool_decide (0 < result)%Z then
       emit (FontAdded dest_path);;
       lift (send_font_change o);;
       emit FontChange;;
       mret true
     else
       emit (Printed ("  ❌ AddFontResource failed for " ++ name_of font_path));;
       mret false)
    (λ e,
       emit (Printed ("  ❌ WinAPI install failed for "
                        ++ name_of font_path ++ ": " ++ e));;
       mret false).

Definition font_extensions : list string := [".ttf"; ".otf"].

Fixpoint extract_members (fl : flavour) (self : t) (entries : list zip_entry)
    (font_files : list font_file) : list font_file * option string :=
  match entries with
  | [] => (font_files, None)
  | file_info :: rest =>
      if has_font_extension font_extensions (filename file_info) then
        match data file_info with
        | Raise e => (font_files, Some e)
        | Ok content =>
            let extracted_path :=
              (temp_dir self ++ arcname fl (filename file_info))%list in
            extract_members fl self rest
              (font_files ++ [FontFile extracted_path content])%list
        end
      else extract_members fl self rest font_files
  end.

Definition msg_extract_failed (zp e : string) : string :=
  "  ❌ Failed to extract " ++ zp ++ ": " ++ e.

Definition extract_fonts_from_zip (fl : flavour) (self : t) (z : zip_file)
  : list font_file * list string :=
  match contents z with
  | Raise e => ([], [msg_extract_failed (zip_path z) e])
  | Ok entries =>
      match extract_members fl self entries [] with
      | (font_files, None) => (font_files, [])
      | (font_files, Some e) => (font_files, [msg_extract_failed (zip_path z) e])
      end
  end.

(** [install_font]: the best available method. *)
Definition install_font (o : os) (self : t) (font_path : path) : run bool :=
  (* Try Windows API method first (most reliable) *)
  b1 ← install_font_winapi_method o self font_path;
  if b1 : bool then mret true
  else
    (* Fallback to registry method *)
    b2 ← install_font_user_method o self font_path;
    if b2 : bool then mret true
    else
      (* Last resort: try system method if admin *)
      if is_admin o then
        b3 ← install_font_system_method o self font_path;
        if b3 : bool then mret true else mret false
      else mret false.

Record counters := Counters { success_count : Z; total_fonts : Z }.

Fixpoint install_each (o : os) (self : t) (font_files : list font_file)
    (c : counters) (package_success : bool) : run (counters * bool) :=
  match font_files with
  | [] => mret (c, package_success)
  | f :: rest =>
      let c := Counters (success_count c) (total_fonts c + 1) in
      ok ← install_font o self (ff_path f);
      if ok : bool then
        emit (Printed ("  ✅ " ++ name_of (ff_path f)));;
        install_each o self rest c package_success
      else
        emit (Printed ("  ❌ " ++ name_of (ff_path f)));;
        install_each o self rest c false
  end.

(** One iteration of the loop over the ZIP files in [run]. *)
Definition process_zip (o : os) (fl : flavour) (self : t) (c : counters)
    (z : zip_file) : run counters :=
  let font_name := stem_of (zip_name z) in
  emit (Printed ("Installing: " ++ font_name));;
  let '(font_files, errors) := extract_fonts_from_zip fl self z in
  (foldr (λ m k, emit (Printed m);; k) (mret tt) errors : run unit);;
  match font_files with
  | [] =>
      emit (Printed ("  ⚠️  No font files found in " ++ font_name));;
      mret c
  | _ =>
      '(c', package_success) ← install_each o self font_files c true;
      if package_success : bool
      then mret (Counters (success_count c' + 1) (total_fonts c'))
      else mret c'
  end.

End WindowsFontInstaller.

(** * [advanced_font_installer.py]: class [AdvancedFontInstaller] *)

Module AdvancedFontInstaller.

Record t := Make { system_fonts : path; user_fonts : path }.

Definition registry_names (font_name : string) : list string :=
  [font_name ++ " (TrueType)"; font_name ++ " (OpenType)"; font_name;
   font_name ++ " Regular (TrueType)"; font_name ++ " Regular (OpenType)"].

(** [for reg_name in registry_names: try: SetValueEx(..); print; break
    except Exception: continue] *)
Fixpoint try_registry_names (o : os) (h : hive) (font_value : string)
    (names : list string) : run unit :=
  match names with
  | [] => mret tt
  | reg_name :: rest =>
      try_except
        (lift (set_value o h reg_name font_value);;
         emit (ValueSet h reg_name font_value);;
         emit (Printed ("  📝 Registered: " ++ reg_name)))
        (λ _, try_registry_names o h font_value rest)
  end.

(** [register_font_in_registry(font_path, font_name, is_system)]; the value
    stored is the file name for the system key and the full path for the
    user key. *)
Definition register_font_in_registry (o : os) (font_path : path)
    (font_name : string) (is_system : bool) : run bool :=
  try_except
    (let hkey := if is_system then HKEY_LOCAL_MACHINE else HKEY_CURRENT_USER in
     let font_value :=
       if is_system then name_of font_path else str_path font_path in
     lift (open_key o hkey);;
     try_registry_names o hkey font_value (registry_names font_name);;
     mret true)
    (λ e,
       emit (Printed ("  ❌ Registry registration failed: " ++ e));;
       mret false).

Definition add_font_resource (o : os) (font_path : path) : run bool :=
  try_except
    (result ← lift (add_font_resource_w o font_path);
     if bool_decide (0 < result)%Z then
       emit (FontAdded font_path);;
       lift (send_font_change o);;
       emit FontChange;;
       emit (Printed ("  🔄 Added font resource: " ++ name_of font_path));;
       mret true
     else mret false)
    (λ e,
       emit (Printed ("  ❌ AddFontResource failed: " ++ e));;
       mret false).

(** [install_single_font(font_path, target_dir, font_name)] *)
Definition install_single_font (o : os) (self : t) (font_path target_dir : path)
    (font_name : string) : run bool :=
  emit (Call "install_single_font");;
  try_except
    (let dest_path := (target_dir / name_of font_path)%path in
     lift (copy2 o font_path dest_path);;
     emit (Copied font_path dest_path);;
     emit (Printed ("  📁 Copied to: " ++ str_path dest_path));;
     let is_system := bool_decide (target_dir = system_fonts self) in
     registry_success ← register_font_in_registry o dest_path font_name
                          is_system;
     api_success ← add_font_resource o dest_path;
     mret true)
    (λ e,
       emit (Printed ("  ❌ Failed to install " ++ name_of font_path
                        ++ ": " ++ e));;
       mret false).

End AdvancedFontInstaller.

(** * Discovery ([FontshareDownloader.discover_fonts]) *)

Module Discovery.

(** A parsed JSON value (numbers are kept as integers; an object is the
    list of its members, each key once). *)
#[warnings="-register-all"]
Inductive json :=
| JNull
| JBool (b : bool)
| JNum (z : Z)
| JStr (s : string)
| JList (l : list json)
| JDict (d : list (string * json)).

(** Python truth value. *)
Definition truthy (v : json) : bool :=
  match v with
  | JNull => false
  | JBool b => b
  | JNum z => negb (Z.eqb z 0)
  | JStr s => negb (String.eqb s "")
  | JList l => match l with [] => false | _ => true end
  | JDict d => match d with [] => false | _ => true end
  end.

(** [d.get(k)] *)
Fixpoint dict_get (d : list (string * json)) (k : string) : json :=
  match d with
  | [] => JNull
  | (k', v) :: rest => if String.eqb k' k then v else dict_get rest k
  end.

Definition has_key (d : list (string * json)) (k : string) : bool :=
  existsb (λ kv, String.eqb (fst kv) k) d.

(** [a or b] *)
Definition py_or (a b : json) : json := if truthy a then a else b.

(** [sub in s] on strings. *)
Fixpoint contains (s sub : string) : bool :=
  if String.prefix sub s then true
  else match s with
       | EmptyString => false
       | String _ s' => contains s' sub
       end.

(** [key in data]: membership in an object, in an array or in a string;
    a TypeError for the other values. *)
Definition key_in (key : string) (data : json) : result bool :=
  match data with
  | JDict d => Ok (has_key d key)
  | JList l =>
      Ok (existsb (λ x, match x with JStr s => String.eqb s key | _ => false end) l)
  | JStr s => Ok (contains s key)
  | _ => Raise "TypeError: argument is not iterable"
  end.

(** [data[key]] once [key in data] holds. *)
Definition subscript (data : json) (key : string) : result json :=
  match data with
  | JDict d => Ok (dict_get d key)
  | JList _ => Raise "TypeError: list indices must be integers or slices, not str"
  | _ => Raise "TypeError: string indices must be integers"
  end.

(** [name.lower().replace(' ', '-')] *)
Definition normalize (s : string) : string := replace_char " " "-" (lower s).

(** [x.lower().replace(' ', '-')] on a value that may not be a string. *)
Definition normalize_value (v : json) : result string :=
  match v with
  | JStr s => Ok (normalize s)
  | _ => Raise "AttributeError: object has no attribute 'lower'"
  end.

(** [for font in font_data: ...] *)
Fixpoint names_of_items (items : list json) (fonts : list string)
  : result (list string) :=
  match items with
  | [] => Ok fonts
  | font :: rest =>
      match font with
      | JDict d =>
          let name := py_or (dict_get d "slug")
                        (py_or (dict_get d "name") (dict_get d "id")) in
          if truthy name then
            match normalize_value name with
            | Raise e => Raise e
            | Ok n => names_of_items rest (fonts ++ [n])%list
            end
          else names_of_items rest fonts
      | JStr s => names_of_items rest (fonts ++ [normalize s])%list
      | _ => names_of_items rest fonts
      end
  end.

Definition possible_keys : list string := ["fonts"; "data"; "items"; "results"].

(** [for key in possible_keys: if key in data: ...] *)
Fixpoint scan_keys (data : json) (keys : list string) (fonts : list string)
  : result (list string) :=
  match keys with
  | [] => Ok fonts
  | key :: rest =>
      match key_in key data with
      | Raise e => Raise e
      | Ok false => scan_keys data rest fonts
      | Ok true =>
          match subscript data key with
          | Raise e => Raise e
          | Ok (JList items) =>
              match names_of_items items fonts with
              | Raise e => Raise e
              | Ok fonts' => scan_keys data rest fonts'
              end
          | Ok _ => scan_keys data rest fonts
          end
      end
  end.

Definition _extract_font_names (data : json) : result (list string) :=
  scan_keys data possible_keys [].

(** What discovery reads from outside: the answers of the service and of
    the site, the optional [font_list] module, and the two library calls
    the HTML scan relies on ([re.findall] with the two patterns, and
    [json.loads]). *)
Record env := Env {
  api_get : string → result (Z * result json);   (* status, [response.json()] *)
  site_get : string → result (Z * result string); (* status, [response.text()] *)
  head_status : string → result Z;                (* [requests.head(url).status_code] *)
  font_list : option (list string * list string); (* FONTSHARE_FONTS, POTENTIAL_FONTS *)
  findall_json : string → list string;
  findall_href : string → list string;
  json_loads : string → result json;
}.

Definition api_endpoints (self : FontshareDownloader.t) : list string :=
  [FontshareDownloader.base_url self ++ "/fonts";
   FontshareDownloader.base_url self ++ "/fonts/list";
   "https://www.fontshare.com/api/fonts"].

(** [_try_api_discovery]: the first endpoint that yields names; an
    endpoint that fails in any way is passed over.  [None] is Python's. *)
Fixpoint try_endpoints (E : env) (endpoints : list string)
  : option (list string) :=
  match endpoints with
  | [] => None
  | endpoint :: rest =>
      match api_get E endpoint with
      | Ok (200%Z, Ok data) =>
          match _extract_font_names data with
          | Ok (f :: fonts) => Some (f :: fonts)
          | _ => try_endpoints E rest
          end
      | _ => try_endpoints E rest
      end
  end.

Definition _try_api_discovery (E : env) (self : FontshareDownloader.t)
  : option (list string) :=
  try_endpoints E (api_endpoints self).

(** The first loop of [_parse_fonts_from_html]: [Some] when a match gives
    names; an error of [_extract_font_names] leaves the function. *)
Fixpoint scan_matches (E : env) (matches : list string)
  : result (option (list string)) :=
  match matches with
  | [] => Ok None
  | m :: rest =>
      match json_loads E m with
      | Raise _ => scan_matches E rest            (* JSONDecodeError: continue *)
      | Ok data =>
          match _extract_font_names (JDict [("fonts", data)]) with
          | Raise e => Raise e
          | Ok (f :: fonts) => Ok (Some (f :: fonts))
          | Ok [] => scan_matches E rest
          end
      end
  end.

(** [list(set(fonts))]: the distinct elements, in some order. *)
Definition list_set (l : list string) : list string :=
  elements (list_to_set l : gset string).

Definition _parse_fonts_from_html (E : env) (html : string)
  : result (list string) :=
  match scan_matches E (findall_json E html) with
  | Raise e => Raise e
  | Ok (Some fonts) => Ok fonts
  | Ok None =>
      let font_candidates := findall_href E html in
      let fonts :=
        filter (λ name, (2 < String.length name)%nat ∧ contains name "-" = true
                        ∧ String.prefix "www" name = false)
          font_candidates in
      Ok (match fonts with [] => [] | _ => list_set fonts end)
  end.

Definition website_url : string := "https://www.fontshare.com".

Definition _try_website_parsing (E : env) : option (list string) :=
  match site_get E website_url with
  | Ok (200%Z, Ok html) =>
      match _parse_fonts_from_html E html with
      | Ok fonts => Some fonts
      | Raise _ => None
      end
  | _ => None
  end.

Definition _test_font_availability (E : env) (self : FontshareDownloader.t)
    (font_name : string) : bool :=
  match head_status E (FontshareDownloader.download_url self font_name) with
  | Ok 200%Z => true
  | _ => false
  end.

Definition builtin_fonts : list string :=
  ["satoshi"; "cabinet-grotesk"; "clash-display"; "general-sans";
   "switzer"; "clash-grotesk"; "supreme"; "author"; "zodiak";
   "eiko"; "fraktion"; "sohne"; "chillax"].

Definition _get_fallback_fonts (E : env) (self : FontshareDownloader.t)
  : list string :=
  match font_list E with
  | Some (FONTSHARE_FONTS, POTENTIAL_FONTS) =>
      let available_potential :=
        filter (λ font, _test_font_availability E self font = true)
          (take 10 POTENTIAL_FONTS) in
      (FONTSHARE_FONTS ++ available_potential)%list
  | None => builtin_fonts
  end.

(** [discover_fonts]: API, then website, then the fallback list. *)
Definition discover_fonts (E : env) (self : FontshareDownloader.t)
  : list string :=
  match _try_api_discovery E self with
  | Some (f :: fonts) => f :: fonts
  | _ =>
      match _try_website_parsing E with
      | Some (f :: fonts) => f :: fonts
      | _ => _get_fallback_fonts E self
      end
  end.

End Discovery.

Module FD := FontshareDownloader.
Module BD := BulkDownloader.
Module FI := FontInstaller.
Module WFI := WindowsFontInstaller.
Module AFI := AdvancedFontInstaller.
Module D := Discovery.

(** * Sample worlds *)

Module Sample.

Definition self : FD.t :=
  FD.Make ["downloads"] 3 "https://api.fontshare.com/v2".

Definition body : bytes := [Byte.x50; Byte.x4b; Byte.x03].

(** A service that knows every font but ["foo"], for which it answers 404. *)
Definition service : world :=
  {| http_get := λ u,
       if bool_decide (u = "https://api.fontshare.com/v2/fonts/download/foo")
       then Ok (Response 404 (Ok []))
       else Ok (Response 200 (Ok body));
     dir_size := 4096 |}.

(** The output directories exist; the archive of ["bar"] is already there. *)
Definition disk : fsys :=
  <[ ["downloads"; "fonts"; "bar"; "bar.zip"] := File body ]>
  (<[ ["downloads"; "fonts"; "bar"] := Dir ]>
  (<[ ["downloads"; "fonts"] := Dir ]>
  (<[ ["downloads"] := Dir ]> ∅))).

(** The bulk downloader's output directory, empty. *)
Definition bulk_disk : fsys := <[ ["fontshare_fonts"] := Dir ]> ∅.

Definition windows_fonts : path := ["C:"; "Windows"; "Fonts"].
Definition my_fonts : path :=
  ["C:"; "Users"; "me"; "AppData"; "Local"; "Microsoft"; "Windows"; "Fonts"].
Definition tmp : path := ["C:"; "Temp"; "fontshare_install_x"].

(** A session without elevation: the system font directory and the
    machine-wide registry key refuse writes; everything else works. *)
Definition locked_down : os :=
  {| is_user_an_admin := false;
     copy2 := λ src dst,
       if bool_decide (parent dst = windows_fonts)
       then Raises (Exc "[Errno 13] Permission denied")
       else Returns tt;
     open_key := λ h,
       match h with
       | HKEY_LOCAL_MACHINE => Raises (Exc "[WinError 5] Access is denied")
       | HKEY_CURRENT_USER => Returns tt
       end;
     set_value := λ _ _ _, Returns tt;
     add_font_resource_w := λ _, Returns 1%Z;
     send_font_change := Returns tt |}.

(** A session without elevation in which the font directory is writable
    but the machine-wide registry key is not. *)
Definition registry_denied : os :=
  {| is_user_an_admin := false;
     copy2 := λ _ _, Returns tt;
     open_key := λ h,
       match h with
       | HKEY_LOCAL_MACHINE => Raises (Exc "[WinError 5] Access is denied")
       | HKEY_CURRENT_USER => Returns tt
       end;
     set_value := λ _ _ _, Returns tt;
     add_font_resource_w := λ _, Returns 1%Z;
     send_font_change := Returns tt |}.

(** A session where files can be copied but no registration works: the
    registry keys cannot be opened and [AddFontResourceW] reports 0 fonts. *)
Definition no_registration : os :=
  {| is_user_an_admin := false;
     copy2 := λ _ _, Returns tt;
     open_key := λ _, Raises (Exc "[WinError 5] Access is denied");
     set_value := λ _ _ _, Returns tt;
     add_font_resource_w := λ _, Returns 0%Z;
     send_font_change := Returns tt |}.

Definition satoshi_otf : path :=
  (tmp ++ ["fonts"; "otf"; "Satoshi-Bold.otf"])%list.

(** An archive holding one font in a sub-directory and a licence text. *)
Definition satoshi_zip : zip_file :=
  ZipFile "downloads\fonts\satoshi\satoshi.zip" "satoshi.zip"
    (Ok [ZipInfo "fonts/otf/Satoshi-Bold.otf" (Ok body);
         ZipInfo "LICENSE.txt" (Ok [])]).

(** An archive without any font. *)
Definition baz_zip : zip_file :=
  ZipFile "downloads\fonts\baz\baz.zip" "baz.zip" (Ok [ZipInfo "LICENSE.txt" (Ok [])]).

(** The catalogue endpoint lists the same family twice, in two spellings;
    everything else is unreachable. *)
Definition duplicated_catalogue : Discovery.env :=
  {| Discovery.api_get := λ u,
       if bool_decide (u = "https://api.fontshare.com/v2/fonts")
       then Ok (200%Z,
                Ok (Discovery.JDict
                      [("fonts", Discovery.JList [Discovery.JStr "Satoshi";
                                                  Discovery.JStr "satoshi"])]))
       else Raise "ClientConnectorError";
     Discovery.site_get := λ _, Raise "ClientConnectorError";
     Discovery.head_status := λ _, Raise "ConnectionError";
     Discovery.font_list := None;
     Discovery.findall_json := λ _, [];
     Discovery.findall_href := λ _, [];
     Discovery.json_loads := λ _, Raise "JSONDecodeError" |}.

End Sample.

(** * Measures and views used by the further properties *)

(** The segments the tasks of a state may still run, all together. *)
Definition total_rank (st : FD.state) : nat :=
  sum_list_with (λ tk, FD.rank (FD.t_pc tk)) (FD.tasks st).

(** The strategies a [run] computation entered, in order. *)
Definition calls (evs : list event) : list string :=
  omap (λ ev, match ev with Call f => Some f | _ => None end) evs.

(** The registry values a [run] computation set, in order. *)
Definition values_set (evs : list event) : list (hive * string * string) :=
  omap (λ ev, match ev with ValueSet h n v => Some (h, n, v) | _ => None end) evs.

(** The strategy [install_font] of [install_fonts.py] enters first. *)
Definition first_strategy (self : FI.t) : string :=
  if bool_decide (FI.os_type self = "windows") then "install_font_windows"
  else "install_font_simple_copy".

(** The archive of [n] is still to be fetched into [output_dir]: the
    directory is there, nothing but a directory stands where the font's
    own directory goes, and the archive is missing or is an empty file. *)
Definition to_fetch (fs : fsys) (output_dir : path) (n : string) : Prop :=
  is_dir fs output_dir = true
  ∧ (∀ c, fs !! BD.font_dir output_dir n ≠ Some (File c))
  ∧ (fs !! BD.font_file output_dir n = None
     ∨ fs !! BD.font_file output_dir n = Some (File [])).

(** Does a string hold a NUL character? *)
Fixpoint has_nul (s : string) : bool :=
  match s with
  | EmptyString => false
  | String c s' => Ascii.eqb c Ascii.zero || has_nul s'
  end.

(** A font name that [pathlib] (POSIX rules) and the file system take as
    one path component, also with [.zip] appended: not empty, not [.] or
    [..], without [/] and without NUL, and short enough for a file name
    (255 bytes with the [.zip]).  Only for such names is [p / n] the path
    the scripts build. *)
Definition single_component (n : string) : Prop :=
  n ≠ "" ∧ n ≠ "." ∧ n ≠ ".." ∧ has_sep Posix n = false
  ∧ has_nul n = false ∧ (String.length n ≤ 251)%nat.

(** An archive that opens and holds no entry with one of the extensions
    [exts]. *)
Definition no_font_entries (exts : list string) (z : zip_file) : bool :=
  match contents z with
  | Ok entries =>
      forallb (λ e, negb (has_font_extension exts (filename e))) entries
  | Raise _ => false
  end.

(** The loop over [zip_files] in [WindowsFontInstaller.run] of
    [proper_font_installer.py], from the counters [c] on. *)
Fixpoint proper_run_loop (o : os) (fl : flavour) (self : WFI.t)
    (c : WFI.counters) (zip_files : list zip_file) : run WFI.counters :=
  match zip_files with
  | [] => mret c
  | z :: rest =>
      c' ← WFI.process_zip o fl self c z;
      proper_run_loop o fl self c' rest
  end.

(** [Path.relative_to]: what is left of [p] below [dir]. *)
Fixpoint relative_to (dir p : path) : option (list string) :=
  match dir, p with
  | [], _ => Some p
  | d :: dir', c :: p' => if String.eqb d c then relative_to dir' p' else None
  | _ :: _, [] => None
  end.

(** [fnmatch] with the pattern [*.zip], as [pathlib] applies it to a name:
    the case is ignored on Windows. *)
Definition matches_zip (fl : flavour) (name : string) : bool :=
  match fl with
  | Posix => endswith name ".zip"
  | Windows => endswith (lower name) ".zip"
  end.

(** Does a walk from [dir] down through directories meet [p]? *)
Definition below (fs : fsys) (dir p : path) : bool :=
  match relative_to dir p with
  | Some (c :: rel) =>
      forallb (λ k, is_dir fs (dir ++ take k (c :: rel))%list)
        (seq 0 (S (length rel)))
  | _ => false
  end.

(** [dir.rglob("*.zip")]: the entries below [dir] whose name matches the
    pattern (the order in which they come is the platform's). *)
Definition rglob_zip (fl : flavour) (fs : fsys) (dir : path) : gset path :=
  filter (λ p, below fs dir p && matches_zip fl (name_of p) = true) (dom fs).

(** [FontInstaller.find_font_zips] of [install_fonts.py]. *)
Definition find_font_zips (fl : flavour) (fs : fsys) (fonts_dir : path)
  : gset path :=
  if path_exists fs fonts_dir then rglob_zip fl fs fonts_dir else ∅.

(** * [extract_all_fonts.py]: [main] on the disk *)

(** The disk is one of directories and files whose names are compared
    exactly (no links, no case folding); the properties of [main] are
    stated with the POSIX path rules. *)

Module ExtractAllFontsMain.

(** [Path.mkdir(parents=True, exist_ok=True)]: the missing ancestors are
    created from the top; a file in the way is an error. *)
Definition mkdir_parents (fs : fsys) (p : path) : result fsys :=
  foldl (λ acc k, match acc with
                  | Raise e => Raise e
                  | Ok fs => mkdir_exist_ok fs (take k p)
                  end)
    (Ok fs) (seq 1 (length p)).

(** The part of a string from its last dot on. *)
Fixpoint from_last_dot (s : string) : option string :=
  match s with
  | EmptyString => None
  | String c s' =>
      match from_last_dot s' with
      | Some r => Some r
      | None => if Ascii.eqb c "."%char then Some s else None
      end
  end.

(** [Path.suffix] of a name: from the last dot on, when that dot is neither
    the first nor the last character. *)
Definition suffix (name : string) : string :=
  match name with
  | EmptyString => EmptyString
  | String _ rest =>
      match from_last_dot rest with
      | Some r => if String.eqb r "." then EmptyString else r
      | None => EmptyString
      end
  end.

(** The entries the clearing loop removes: the children of [user_fonts]
    ([user_fonts.glob("*")]) that are files with the suffix [.ttf] or
    [.otf], in any case, and whose [unlink] works. *)
Definition cleared (can_unlink : path → bool) (user_fonts p : path) (nd : node)
  : bool :=
  bool_decide (p ≠ [] ∧ parent p = user_fonts)
  && match nd with File _ => true | Dir => false end
  && bool_decide (lower (suffix (name_of p)) ∈ [".ttf"; ".otf"])
  && can_unlink p.

(** The clearing loop: the disk afterwards and [cleared_count].  (The
    order in which [glob] yields the children does not matter: each
    iteration removes its own entry.) *)
Definition clear_fonts (can_unlink : path → bool) (user_fonts : path) (fs : fsys)
  : fsys * nat :=
  (filter (λ kv, cleared can_unlink user_fonts kv.1 kv.2 = false) fs,
   size (filter (λ kv, cleared can_unlink user_fonts kv.1 kv.2 = true) fs)).

(** The body of [with zipfile.ZipFile(zip_file) as zip_ref] on the disk:
    each font entry is read and written under its base name;
    [total_fonts] counts the files written.  An error ends the archive. *)
Fixpoint write_entries (fl : flavour) (user_fonts : path)
    (entries : list zip_entry) (fs : fsys) (total_fonts : nat)
  : fsys * nat * option string :=
  match entries with
  | [] => (fs, total_fonts, None)
  | file_info :: rest =>
      if has_font_extension ExtractAllFonts.font_extensions (filename file_info)
      then
        let clean_name := path_name fl (filename file_info) in
        match data file_info with
        | Raise e => (fs, total_fonts, Some e)
        | Ok font_content =>
            match write_file fs (user_fonts / clean_name)%path font_content with
            | Raise e => (fs, total_fonts, Some e)
            | Ok fs' => write_entries fl user_fonts rest fs' (S total_fonts)
            end
        end
      else write_entries fl user_fonts rest fs total_fonts
  end.

(** The loop over the ZIP files; an archive that fails is reported and the
    loop goes on. *)
Fixpoint extract_zips (fl : flavour) (user_fonts : path) (zips : list archive)
    (fs : fsys) (total_fonts : nat) : fsys * nat :=
  match zips with
  | [] => (fs, total_fonts)
  | Raise _ :: rest => extract_zips fl user_fonts rest fs total_fonts
  | Ok entries :: rest =>
      let '(fs', total_fonts', _) :=
        write_entries fl user_fonts entries fs total_fonts in
      extract_zips fl user_fonts rest fs' total_fonts'
  end.

(** [main]: the disk at the end, [cleared_count] and [total_fonts]; an
    error of the first [mkdir] leaves [main].  [zips] is what
    [downloads_dir.rglob("*.zip")] finds, opened. *)
Definition main (fl : flavour) (can_unlink : path → bool) (fs : fsys)
    (user_fonts : path) (zips : list archive) : result (fsys * nat * nat) :=
  match mkdir_parents fs user_fonts with
  | Raise e => Raise e
  | Ok fs1 =>
      let '(fs2, cleared_count) := clear_fonts can_unlink user_fonts fs1 in
      let '(fs3, total_fonts) := extract_zips fl user_fonts zips fs2 0 in
      Ok (fs3, cleared_count, total_fonts)
  end.

End ExtractAllFontsMain.

Module EAF := ExtractAllFontsMain.

(** Further sample worlds. *)
Module Scenario.

(** No API endpoint answers; the site answers with a page in which the
    JSON pattern finds nothing and the link pattern finds five names. *)
Definition site_with_links : D.env :=
  {| D.api_get := λ _, Raise "ClientConnectorError";
     D.site_get := λ _, Ok (200%Z, Ok "<html>");
     D.head_status := λ _, Raise "ConnectionError";
     D.font_list := None;
     D.findall_json := λ _, [];
     D.findall_href := λ _,
       ["cabinet-grotesk"; "about"; "www-fonts"; "clash-display";
        "cabinet-grotesk"];
     D.json_loads := λ _, Raise "JSONDecodeError" |}.

(** Nothing answers but the download endpoint, which knows ["zodiak"];
    the [font_list] module is present. *)
Definition module_only : D.env :=
  {| D.api_get := λ _, Raise "ClientConnectorError";
     D.site_get := λ _, Raise "ClientConnectorError";
     D.head_status := λ u,
       if bool_decide (u = "https://api.fontshare.com/v2/fonts/download/zodiak")
       then Ok 200%Z else Ok 404%Z;
     D.font_list := Some (["satoshi"], ["zodiak"; "nope"]);
     D.findall_json := λ _, [];
     D.findall_href := λ _, [];
     D.json_loads := λ _, Raise "JSONDecodeError" |}.

(** A font folder with one old font, beside a file that is no font. *)
Definition font_folder : fsys :=
  <[ ["Fonts"; "Old.ttf"] := File Sample.body ]>
  (<[ ["Fonts"] := Dir ]>
  (<[ ["notes.txt"] := File Sample.body ]> ∅)).

End Scenario.

(** Case analysis on the calls a [run] computation makes. *)
Ltac run_cases :=
  repeat (simpl in *; simplify_eq; try done;
          match goal with
          | |- context [match ?x with _ => _ end] =>
              lazymatch x with
              | context [match _ with _ => _ end] => fail
              | _ => destruct x eqn:?
              end
          | H : context [match ?x with _ => _ end] |- _ =>
              lazymatch x with
              | context [match _ with _ => _ end] => fail
              | _ => destruct x eqn:?
              end
          end).

(** * Properties *)

Open Scope list_scope.

(** ** File-system lemmas *)

Section FileSystem.
Implicit Types (fs : fsys) (p q : path).

Lemma parent_pjoin p n : parent (p / n)%path = p.
Proof. apply removelast_last. Qed.

Lemma pjoin_inj p q n m : (p / n)%path = (q / m)%path → p = q ∧ n = m.
Proof. apply app_inj_tail. Qed.

Lemma pjoin_ne_self p n : (p / n)%path ≠ p.
Proof.
  intros H. apply (f_equal length) in H. unfold pjoin in H.
  rewrite length_app in H. simpl in H. lia.
Qed.

Lemma is_dir_insert fs p nd q :
  is_dir fs p = false → is_dir fs q = true → is_dir (<[p := nd]> fs) q = true.
Proof.
  intros Hp Hq. destruct q as [|x q]; [done|].
  destruct (decide (p = x :: q)) as [->|Hne]; [congruence|].
  unfold is_dir in *. by rewrite lookup_insert_ne.
Qed.

Lemma mkdir_ok_lookup fs p fs' q :
  mkdir_exist_ok fs p = Ok fs' → q ≠ p → fs' !! q = fs !! q.
Proof.
  unfold mkdir_exist_ok. intros H Hq.
  destruct (is_dir fs p); [by inversion H|].
  destruct (fs !! p) as [x|] eqn:E; try discriminate.
  destruct (is_dir fs (parent p)); inversion H; subst.
  by rewrite lookup_insert_ne.
Qed.

Lemma mkdir_ok_is_dir fs p fs' :
  mkdir_exist_ok fs p = Ok fs' → is_dir fs' p = true.
Proof.
  unfold mkdir_exist_ok. intros H.
  destruct (is_dir fs p) eqn:Hd; [by inversion H; subst|].
  destruct (fs !! p) as [x|] eqn:E; try discriminate.
  destruct (is_dir fs (parent p)); inversion H; subst.
  destruct p; [done|]. unfold is_dir. by rewrite lookup_insert_eq.
Qed.

Lemma mkdir_existing fs p : is_dir fs p = true → mkdir_exist_ok fs p = Ok fs.
Proof. unfold mkdir_exist_ok. by intros ->. Qed.

Lemma open_wb_ok fs p fs' :
  open_wb fs p = Ok fs' →
  fs' = <[p := File []]> fs ∧ is_dir fs p = false
  ∧ is_dir fs (parent p) = true.
Proof.
  unfold open_wb. intros H.
  destruct (is_dir fs p); [done|].
  destruct (is_dir fs (parent p)); inversion H; subst; done.
Qed.

Lemma write_states_spec fs p c0 content :
  fs !! p = Some (File c0) →
  write_states fs p content =
    (λ k, <[p := File (c0 ++ take (S k) content)]> fs) <$> seq 0 (length content).
Proof.
  revert fs c0. induction content as [|b rest IH]; intros fs c0 Hp; [done|].
  simpl. unfold append_bytes at 1 2. rewrite Hp. f_equal.
  erewrite IH; [|by rewrite lookup_insert_eq].
  rewrite <- seq_shift, <- list_fmap_compose. apply list_fmap_ext.
  intros i k _. simpl. rewrite insert_insert_eq.
  by rewrite <- app_assoc.
Qed.

Lemma last_write_states fs0 p content d :
  fs0 !! p = Some (File []) →
  List.last (fs0 :: write_states fs0 p content) d = <[p := File content]> fs0.
Proof.
  intros Hp. erewrite write_states_spec by done.
  destruct content as [|b rest _] using rev_ind.
  - simpl. by rewrite insert_id.
  - rewrite length_app. cbn [length]. rewrite Nat.add_1_r, seq_S, fmap_app.
    rewrite app_comm_cons, Nat.add_0_l, list_fmap_singleton, last_last.
    rewrite firstn_all2; [done|]. rewrite length_app; simpl; lia.
Qed.

(** Writing a file ends with exactly the content at the path. *)
Lemma write_file_ok fs p content fs' :
  write_file fs p content = Ok fs' →
  fs' = <[p := File content]> fs ∧ is_dir fs p = false
  ∧ is_dir fs (parent p) = true.
Proof.
  unfold write_file, write_file_trace. intros H.
  destruct (open_wb fs p) as [fs0|e] eqn:Ho; [|discriminate].
  apply open_wb_ok in Ho as (-> & Hnd & Hpar).
  rewrite last_write_states in H by apply lookup_insert_eq.
  rewrite insert_insert_eq in H. by inversion H.
Qed.

Lemma nonempty_already_downloaded w fs p :
  nonempty_file fs p → already_downloaded w fs p = true.
Proof.
  intros (c & Hp & Hc). unfold already_downloaded, path_exists, st_size.
  rewrite Hp. simpl. apply bool_decide_eq_true.
  destruct c; [done|]. simpl. lia.
Qed.

Lemma wf_parent_dir fs p n nd :
  wf_fs fs → fs !! (p / n)%path = Some nd → is_dir fs p = true.
Proof.
  intros Hwf Hp. pose proof (Hwf _ _ Hp) as E. cbv beta in E.
  by rewrite parent_pjoin in E.
Qed.

(** Adding or replacing an entry that is not a directory, under an
    existing directory, keeps the tree well formed and keeps every
    directory. *)
Lemma insert_preserves fs p nd :
  is_dir fs p = false → is_dir fs (parent p) = true → wf_fs fs →
  wf_fs (<[p := nd]> fs)
  ∧ ∀ q, is_dir fs q = true → is_dir (<[p := nd]> fs) q = true.
Proof.
  intros Hp Hpar Hwf.
  split; [|by intros q; apply is_dir_insert]. intros q x Hq.
  apply is_dir_insert; [done|].
  destruct (decide (q = p)) as [->|Hne]; [done|].
  rewrite lookup_insert_ne in Hq by done. exact (Hwf _ _ Hq).
Qed.

Lemma mkdir_preserves fs p fs' :
  mkdir_exist_ok fs p = Ok fs' → wf_fs fs →
  wf_fs fs'
  ∧ (∀ q, is_dir fs q = true → is_dir fs' q = true)
  ∧ (∀ q, is_Some (fs !! q) → fs' !! q = fs !! q).
Proof.
  unfold mkdir_exist_ok. intros H Hwf.
  destruct (is_dir fs p) eqn:Hd; [by inversion H; subst|].
  destruct (fs !! p) as [x|] eqn:E; try discriminate.
  destruct (is_dir fs (parent p)) eqn:Hpar; inversion H; subst.
  destruct (insert_preserves fs p Dir) as [Hw Hd']; try done.
  repeat split; try done. intros q [x Hq].
  rewrite lookup_insert_ne; [done|]. intros ->. by rewrite E in Hq.
Qed.

Lemma write_preserves fs p content fs' :
  write_file fs p content = Ok fs' → wf_fs fs →
  wf_fs fs'
  ∧ (∀ q, is_dir fs q = true → is_dir fs' q = true)
  ∧ (∀ q, q ≠ p → fs' !! q = fs !! q)
  ∧ fs' !! p = Some (File content).
Proof.
  intros H Hwf. apply write_file_ok in H as (-> & Hnd & Hpar).
  destruct (insert_preserves fs p (File content)) as [Hw Hd]; try done.
  repeat split; try done.
  - intros q Hq. by rewrite lookup_insert_ne.
  - by rewrite lookup_insert_eq.
Qed.

Lemma append_inj_l (s a b : string) : s +:+ a = s +:+ b → a = b.
Proof. induction s as [|c s IH]; simpl; [done|]. intros [= H]. auto. Qed.

End FileSystem.

(** ** The event-loop machine of [FontshareDownloader.download_all_fonts] *)

Section Machine.
Context (w : world) (self : FD.t).
Implicit Types (st : FD.state) (tk : FD.task) (p : FD.pc).

(** Shape of a segment: it starts outside [Done], ends outside
    [Waiting], and ends inside the semaphore unless it ends the task. *)
Lemma seg_of_shape fs n p s :
  FD.seg_of w self fs n p = Some s →
  FD.holds_slot p = negb (FD.is_waiting p)
  ∧ FD.holds_slot (FD.seg_pc s) = negb (FD.is_done (FD.seg_pc s))
  ∧ FD.is_done p = false
  ∧ FD.is_waiting (FD.seg_pc s) = false.
Proof.
  destruct p; simpl; intros [= <-]; try done;
    unfold FD.seg_start, FD.seg_get, FD.seg_read, FD.handler;
    repeat case_match; done.
Qed.

(** One ERROR record exactly when the segment ends the task with [False]. *)
Lemma seg_of_errors fs n p s :
  FD.seg_of w self fs n p = Some s →
  FD.count_errors (FD.seg_log s) = Nat.b2n (FD.is_failed (FD.seg_pc s)).
Proof.
  destruct p; simpl; intros [= <-]; try done;
    unfold FD.seg_start, FD.seg_get, FD.seg_read, FD.handler;
    repeat case_match; done.
Qed.

Lemma sum_list_insert {A} (g : A → nat) (l : list A) i x y :
  l !! i = Some x →
  sum_list_with g (<[i := y]> l) + g x = sum_list_with g l + g y.
Proof.
  revert i. induction l as [|a l IH]; intros [|i] H; simplify_eq/=; [lia|].
  specialize (IH _ H). lia.
Qed.

Lemma bind_insert_nil {A B} (g : A → list B) (l : list A) i x y :
  l !! i = Some x → g x = [] →
  <[i := y]> l ≫= g ≡ₚ (l ≫= g) ++ g y.
Proof.
  revert i. induction l as [|a l IH]; intros [|i] H Hx; simplify_eq/=.
  - rewrite Hx. simpl. apply Permutation_app_comm.
  - rewrite (IH _ H Hx). by rewrite app_assoc.
Qed.

Lemma count_pc_step (f : FD.pc → bool) st i tk p' :
  FD.tasks st !! i = Some tk →
  sum_list_with (λ tk, Nat.b2n (f (FD.t_pc tk)))
              (<[i := FD.Task (FD.t_name tk) p']> (FD.tasks st))
    + Nat.b2n (f (FD.t_pc tk))
  = FD.count_pc f st + Nat.b2n (f p').
Proof.
  intros H. unfold FD.count_pc.
  by rewrite (sum_list_insert (λ tk, Nat.b2n (f (FD.t_pc tk))) _ _ _ _ H).
Qed.

(** Unfolding one step. *)
Lemma step_Some st i st' :
  FD.step w self st i = Some st' →
  ∃ tk s,
    FD.tasks st !! i = Some tk
    ∧ (FD.is_waiting (FD.t_pc tk) = true → 0 < FD.sem st)
    ∧ FD.seg_of w self (FD.st_fs st) (FD.t_name tk) (FD.t_pc tk) = Some s
    ∧ FD.sem st' + Nat.b2n (FD.is_waiting (FD.t_pc tk))
        = FD.sem st + Nat.b2n (FD.is_done (FD.seg_pc s))
    ∧ FD.tasks st' = <[i := FD.Task (FD.t_name tk) (FD.seg_pc s)]> (FD.tasks st)
    ∧ FD.st_fs st' = FD.seg_fs s
    ∧ FD.st_log st' = FD.st_log st ++ FD.seg_log s
    ∧ FD.st_reqs st' = FD.st_reqs st ++ FD.seg_reqs s
    ∧ FD.results st' = FD.results st ++ FD.result_of (FD.seg_pc s).
Proof.
  unfold FD.step. intros H.
  destruct (FD.tasks st !! i) as [tk|] eqn:Htk; [|done].
  destruct (FD.is_waiting (FD.t_pc tk) && bool_decide (FD.sem st = 0)) eqn:Hb;
    [done|].
  destruct (FD.seg_of w self (FD.st_fs st) (FD.t_name tk) (FD.t_pc tk))
    as [s|] eqn:Hs; [|done].
  inversion H; subst; clear H. exists tk, s. simpl.
  assert (FD.is_waiting (FD.t_pc tk) = true → 0 < FD.sem st) as Hpos.
  { intros Hw. rewrite Hw in Hb. simpl in Hb.
    apply bool_decide_eq_false in Hb. lia. }
  repeat split; try done.
  destruct (FD.is_waiting (FD.t_pc tk)), (FD.is_done (FD.seg_pc s)); simpl;
    try lia; specialize (Hpos eq_refl); lia.
Qed.

Lemma count_pc_init (f : FD.pc → bool) fs font_list :
  f FD.Waiting = false → FD.count_pc f (FD.init self fs font_list) = 0.
Proof.
  intros Hf. unfold FD.count_pc. simpl.
  induction font_list as [|n l IH]; [done|].
  rewrite fmap_cons. simpl. rewrite Hf. simpl. exact IH.
Qed.

Lemma inv_init fs font_list : FD.inv self font_list (FD.init self fs font_list).
Proof.
  split.
  - rewrite count_pc_init by done. simpl. lia.
  - simpl. rewrite <- list_fmap_compose.
    induction font_list as [|n l IH]; [done|].
    rewrite fmap_cons. simpl. by rewrite IH.
  - unfold FD.outcomes. simpl.
    induction font_list as [|n l IH]; [done|].
    rewrite fmap_cons, bind_cons. simpl. exact IH.
  - by rewrite count_pc_init.
Qed.

Lemma inv_step font_list st i st' :
  FD.inv self font_list st → FD.step w self st i = Some st' →
  FD.inv self font_list st'.
Proof.
  intros [Hsem Hn Hres Herr] Hstep.
  apply step_Some in Hstep
    as (tk & s & Htk & Hpos & Hs & Hsem' & Ht & _ & Hlog & _ & Hr).
  pose proof (seg_of_shape _ _ _ _ Hs) as (Hh & Hh' & Hd & _).
  pose proof (seg_of_errors _ _ _ _ Hs) as He.
  split.
  - pose proof (count_pc_step FD.holds_slot st i tk (FD.seg_pc s) Htk) as Hc.
    unfold FD.count_pc at 1. rewrite Ht.
    rewrite Hh, Hh' in Hc.
    destruct (FD.is_waiting (FD.t_pc tk)), (FD.is_done (FD.seg_pc s));
      simpl in *; lia.
  - rewrite Ht, list_fmap_insert. simpl.
    rewrite list_insert_id; [done|].
    by rewrite list_lookup_fmap, Htk.
  - rewrite Hr. unfold FD.outcomes. rewrite Ht.
    rewrite (bind_insert_nil (λ tk, FD.result_of (FD.t_pc tk)) _ _ tk); try done.
    + simpl. by rewrite Hres.
    + by destruct (FD.t_pc tk).
  - pose proof (count_pc_step FD.is_failed st i tk (FD.seg_pc s) Htk) as Hc.
    unfold FD.count_pc at 1. rewrite Ht, Hlog.
    unfold FD.count_errors in *. rewrite sum_list_with_app.
    assert (FD.is_failed (FD.t_pc tk) = false) as Hf
      by (by destruct (FD.t_pc tk) as [| | | |[]]).
    rewrite Hf in Hc. simpl in Hc. lia.
Qed.

Lemma inv_exec font_list sched : ∀ st,
  FD.inv self font_list st → FD.inv self font_list (FD.exec w self st sched).
Proof.
  induction sched as [|i sched IH]; intros st Hinv; simpl; [done|].
  destruct (FD.step w self st i) eqn:Hstep; eauto using inv_step.
Qed.

Lemma count_in_flight_le st :
  (FD.count_pc FD.in_flight st ≤ FD.count_pc FD.holds_slot st)%nat.
Proof.
  unfold FD.count_pc. induction (FD.tasks st) as [|tk l IH]; simpl; [lia|].
  destruct (FD.t_pc tk); simpl; lia.
Qed.

End Machine.

Section Concurrency.
Context (w : world) (self : FD.t).

Lemma seg_reqs_nonempty fs n p s :
  FD.seg_of w self fs n p = Some s → FD.seg_reqs s ≠ [] →
  p = FD.Waiting ∧ FD.seg_pc s = FD.AwaitGet.
Proof.
  destruct p; simpl; intros [= <-]; try done;
    unfold FD.seg_start, FD.seg_get, FD.seg_read, FD.handler;
    repeat case_match; done.
Qed.

Lemma step_task st i st' tk s :
  FD.tasks st !! i = Some tk →
  FD.tasks st' = <[i := FD.Task (FD.t_name tk) (FD.seg_pc s)]> (FD.tasks st) →
  FD.tasks st' !! i = Some (FD.Task (FD.t_name tk) (FD.seg_pc s)).
Proof.
  intros Htk ->. apply list_lookup_insert_eq. by eapply lookup_lt_Some.
Qed.

(** C4.  Whatever the event loop schedules, the number of requests in
    flight never exceeds [max_concurrent]: the free slots of the
    semaphore plus the tasks inside [async with semaphore] always add up
    to [max_concurrent]; a request is only issued by a task that takes a
    free slot in the same step, and a slot is only given back by the step
    that finishes its task. *)
Theorem C4_in_flight_bounded fs font_list sched :
  let st := FD.exec w self (FD.init self fs font_list) sched in
  (FD.count_pc FD.in_flight st ≤ FD.max_concurrent self)%nat
  ∧ FD.sem st + FD.count_pc FD.holds_slot st = FD.max_concurrent self
  ∧ (∀ i st', FD.step w self st i = Some st' →
       FD.st_reqs st' ≠ FD.st_reqs st →
       (0 < FD.sem st)%nat ∧ FD.sem st' + 1 = FD.sem st
       ∧ ∃ n, FD.tasks st !! i = Some (FD.Task n FD.Waiting)
              ∧ FD.tasks st' !! i = Some (FD.Task n FD.AwaitGet))
  ∧ (∀ i st', FD.step w self st i = Some st' →
       (FD.sem st < FD.sem st')%nat →
       ∃ n p b, FD.tasks st !! i = Some (FD.Task n p)
                ∧ FD.holds_slot p = true
                ∧ FD.tasks st' !! i = Some (FD.Task n (FD.Done b))).
Proof.
  intros st.
  pose proof (inv_exec w self font_list sched _ (inv_init self fs font_list))
    as [Hsem _ _ _].
  fold st in Hsem. pose proof (count_in_flight_le st) as Hle.
  split; [lia|]. split; [done|]. split.
  - intros i st' Hstep Hreq.
    apply step_Some in Hstep
      as (tk & s & Htk & Hpos & Hs & Hsem' & Ht & _ & _ & Hr & _).
    assert (FD.seg_reqs s ≠ []) as Hne.
    { intros E. rewrite E, app_nil_r in Hr. done. }
    destruct (seg_reqs_nonempty _ _ _ _ Hs Hne) as [Hp Hp'].
    pose proof (step_task _ _ _ _ _ Htk Ht) as Hi.
    destruct tk as [n p]. simpl in *. subst p. rewrite Hp' in *. simpl in *.
    split; [by apply Hpos|]. split; [lia|]. by exists n.
  - intros i st' Hstep Hlt.
    apply step_Some in Hstep
      as (tk & s & Htk & Hpos & Hs & Hsem' & Ht & _).
    pose proof (seg_of_shape _ _ _ _ _ _ Hs) as (Hh & _ & _ & _).
    pose proof (step_task _ _ _ _ _ Htk Ht) as Hi.
    destruct tk as [n p]. simpl in *.
    destruct (FD.seg_pc s) as [| | | |b] eqn:Hpc; simpl in *; try lia.
    exists n, p, b. split; [done|]. split; [|done].
    rewrite Hh. destruct (FD.is_waiting p); simpl in *; [lia|done].
Qed.

End Concurrency.

Lemma C4_in_flight_bounded_witness :
  let st := FD.init Sample.self Sample.disk ["bar"; "foo"] in
  let st' := default st (FD.step Sample.service Sample.self st 1) in
  (FD.count_pc FD.in_flight st ≤ 3)%nat
  ∧ (0 < FD.sem st)%nat ∧ FD.sem st' + 1 = FD.sem st.
Proof.
  intros st st'.
  destruct (C4_in_flight_bounded Sample.service Sample.self Sample.disk
              ["bar"; "foo"] []) as (A & _ & C & _).
  split; [exact A|].
  destruct (C 1 st') as (H1 & H2 & _); [reflexivity|discriminate|].
  split; [exact H1|exact H2].
Defined.

Section Completion.
Context (w : world) (self : FD.t).

Lemma seg_of_rank fs n p s :
  FD.seg_of w self fs n p = Some s → (FD.rank (FD.seg_pc s) < FD.rank p)%nat.
Proof.
  destruct p; simpl; intros [= <-]; try done;
    unfold FD.seg_start, FD.seg_get, FD.seg_read, FD.handler;
    repeat case_match; simpl; lia.
Qed.

Lemma seg_of_is_Some fs n p :
  FD.is_done p = false → is_Some (FD.seg_of w self fs n p).
Proof. destruct p; simpl; eauto. done. Qed.

Lemma exec_app st s1 s2 :
  FD.exec w self st (s1 ++ s2) = FD.exec w self (FD.exec w self st s1) s2.
Proof.
  revert st. induction s1 as [|i s1 IH]; intros st; simpl; [done|].
  by destruct (FD.step w self st i).
Qed.

(** Scheduling one task often enough finishes it, and its slot is free
    again afterwards. *)
Lemma exec_one_task i n k : ∀ st p,
  FD.tasks st !! i = Some (FD.Task n p) →
  (FD.rank p ≤ k)%nat →
  (FD.is_waiting p = true → 0 < FD.sem st)%nat →
  ∃ b, FD.tasks (FD.exec w self st (replicate k i))
         = <[i := FD.Task n (FD.Done b)]> (FD.tasks st)
       ∧ FD.sem (FD.exec w self st (replicate k i))
         = FD.sem st + Nat.b2n (FD.holds_slot p).
Proof.
  induction k as [|k IH]; intros st p Htk Hrk Hpos.
  - destruct p; simpl in Hrk; try lia. exists b. simpl.
    split; [by rewrite list_insert_id|lia].
  - simpl. destruct (FD.step w self st i) as [st1|] eqn:Hstep.
    + apply step_Some in Hstep
        as (tk & s & Htk' & _ & Hs & Hsem & Ht & _).
      rewrite Htk in Htk'. inversion Htk'; subst tk; clear Htk'. simpl in *.
      pose proof (seg_of_rank _ _ _ _ Hs) as Hr.
      pose proof (seg_of_shape _ _ _ _ _ _ Hs) as (Hh & Hh' & _ & Hw).
      destruct (IH st1 (FD.seg_pc s)) as (b & Ht1 & Hs1).
      * rewrite Ht. apply list_lookup_insert_eq. by eapply lookup_lt_Some.
      * lia.
      * rewrite Hw. done.
      * exists b. rewrite Ht1, Hs1, Ht, list_insert_insert_eq. split; [done|].
        rewrite Hh, Hh'.
        destruct (FD.is_waiting p), (FD.is_done (FD.seg_pc s)); simpl in *; lia.
    + assert (FD.is_done p = true) as Hd.
      { destruct (FD.is_done p) eqn:Hd; [done|]. exfalso.
        unfold FD.step in Hstep. rewrite Htk in Hstep. simpl in Hstep.
        destruct (FD.is_waiting p) eqn:Hwt; simpl in Hstep.
        - specialize (Hpos eq_refl).
          rewrite bool_decide_eq_false_2 in Hstep by lia.
          destruct (seg_of_is_Some (FD.st_fs st) n p Hd) as [s Hs].
          by rewrite Hs in Hstep.
        - destruct (seg_of_is_Some (FD.st_fs st) n p Hd) as [s Hs].
          by rewrite Hs in Hstep. }
      apply (IH st p Htk); [|done]. destruct p; simpl in *; try done; lia.
Qed.

Lemma sequential_from ws : ∀ ds st,
  FD.tasks st = ds ++ ws →
  Forall (λ tk, FD.is_done (FD.t_pc tk) = true) ds →
  Forall (λ tk, FD.t_pc tk = FD.Waiting) ws →
  (0 < FD.sem st)%nat →
  FD.all_done
    (FD.exec w self st
       (flat_map (λ i, [i; i; i; i]) (seq (length ds) (length ws)))) = true.
Proof.
  induction ws as [|[n p] ws IH]; intros ds st Ht Hds Hws Hpos.
  - simpl. unfold FD.all_done. rewrite Ht, app_nil_r.
    apply forallb_forall. intros tk Hin.
    rewrite Forall_forall in Hds. apply Hds. by apply list_elem_of_In.
  - apply Forall_cons in Hws as [Hp Hws]. simpl in Hp. subst p.
    cbn [length seq flat_map]. rewrite exec_app.
    assert (FD.tasks st !! length ds = Some (FD.Task n FD.Waiting)) as Hi.
    { rewrite Ht. by rewrite list_lookup_middle. }
    destruct (exec_one_task (length ds) n 4 st FD.Waiting Hi)
      as (b & Ht' & Hs'); [simpl; lia|done|].
    change (replicate 4 (length ds))
      with [length ds; length ds; length ds; length ds] in *.
    set (st' := FD.exec w self st _) in *.
    specialize (IH (ds ++ [FD.Task n (FD.Done b)]) st').
    rewrite length_app, Nat.add_1_r in IH. apply IH.
    + rewrite Ht', Ht. rewrite insert_app_r_alt, Nat.sub_diag by done.
      simpl. by rewrite <- app_assoc.
    + apply Forall_app. split; [done|]. by apply Forall_singleton.
    + done.
    + rewrite Hs'. simpl. lia.
Qed.

(** With at least one slot, running the tasks one after the other ends
    with every task finished. *)
Lemma sequential_completes fs font_list :
  (0 < FD.max_concurrent self)%nat →
  FD.all_done
    (FD.exec w self (FD.init self fs font_list)
       (FD.sequential (length font_list))) = true.
Proof.
  intros Hpos.
  pose proof (sequential_from ((λ n, FD.Task n FD.Waiting) <$> font_list)
                [] (FD.init self fs font_list)) as H.
  rewrite length_fmap in H. apply H; try done.
  apply Forall_fmap, Forall_forall. done.
Qed.

End Completion.

Section Aggregate.
Context (w : world) (self : FD.t).

Lemma sum_bools_perm l1 l2 : l1 ≡ₚ l2 → FD.sum_bools l1 = FD.sum_bools l2.
Proof.
  induction 1 as [|b l1 l2 _ IH|b1 b2 l|l1 l2 l3 _ IH1 _ IH2]; simpl;
    [done|by rewrite IH|lia|congruence].
Qed.

Lemma all_done_Forall st :
  FD.all_done st = true →
  Forall (λ tk, FD.is_done (FD.t_pc tk) = true) (FD.tasks st).
Proof.
  unfold FD.all_done. rewrite forallb_forall, Forall_forall.
  intros H tk Hin. apply H. by apply list_elem_of_In.
Qed.

(** Once every task is over, each has exactly one result, and those
    that are not [True] are the failed ones. *)
Lemma outcomes_all_done (l : list FD.task) :
  Forall (λ tk, FD.is_done (FD.t_pc tk) = true) l →
  length (l ≫= (λ tk, FD.result_of (FD.t_pc tk))) = length l
  ∧ (FD.sum_bools (l ≫= (λ tk, FD.result_of (FD.t_pc tk)))
     + Z.of_nat (sum_list_with (λ tk, Nat.b2n (FD.is_failed (FD.t_pc tk))) l)
     = Z.of_nat (length l))%Z.
Proof.
  induction 1 as [|[n p] l Hp _ [IH1 IH2]]; [done|].
  rewrite bind_cons. destruct p as [| | | |[]]; simpl in *; try done;
    (split; [congruence|lia]).
Qed.

(** C9 (amended).  A run of [download_all_fonts] that finishes has one
    finished task and one boolean result per entry of [font_list], in
    whatever order the tasks completed, and returns three counts:
    [total], [success] and [failed], with [total = success + failed].
    A skipped font counts as a success; there is no [skipped] entry and
    no list of failures: each failure is written to the log, one ERROR
    record per failed font.  With at least one slot the run can finish. *)
Theorem C9_three_counts fs font_list :
  (0 < FD.max_concurrent self)%nat →
  is_Some (FD.download_all_fonts w self fs font_list
             (FD.sequential (length font_list)))
  ∧ ∀ sched stats,
      FD.download_all_fonts w self fs font_list sched = Some stats →
      let st := FD.exec w self (FD.init self fs font_list) sched in
      FD.t_name <$> FD.tasks st = font_list
      ∧ Forall (λ tk, FD.is_done (FD.t_pc tk) = true) (FD.tasks st)
      ∧ FD.results st ≡ₚ FD.outcomes st
      ∧ length (FD.results st) = length font_list
      ∧ ∃ success failed : Z,
          stats = {[ "total" := Z.of_nat (length font_list);
                     "success" := success; "failed" := failed ]}
          ∧ (success + failed = Z.of_nat (length font_list))%Z
          ∧ failed = Z.of_nat (FD.count_errors (FD.st_log st))
          ∧ failed = Z.of_nat (FD.count_pc FD.is_failed st)
          ∧ stats !! "skipped" = None.
Proof.
  intros Hpos. split.
  - unfold FD.download_all_fonts.
    by rewrite (sequential_completes w self fs font_list Hpos).
  - intros sched stats. unfold FD.download_all_fonts.
    set (st := FD.exec w self _ sched). simpl.
    destruct (FD.all_done st) eqn:Hdone; [|done]. intros [= <-].
    pose proof (inv_exec w self font_list sched _ (inv_init self fs font_list))
      as [_ Hn Hres Herr]. fold st in Hn, Hres, Herr.
    apply all_done_Forall in Hdone.
    destruct (outcomes_all_done _ Hdone) as [Hlen Hsum].
    fold (FD.outcomes st) in Hlen, Hsum.
    assert (length (FD.tasks st) = length font_list) as Hlt
      by (by rewrite <- Hn, length_fmap).
    assert (length (FD.results st) = length font_list) as Hlr
      by (by rewrite Hres, Hlen).
    repeat split; try done.
    exists (FD.sum_bools (FD.results st)),
           (Z.of_nat (length (FD.results st)) - FD.sum_bools (FD.results st))%Z.
    split; [done|].
    rewrite (sum_bools_perm _ _ Hres), Hlr, Herr. unfold FD.count_pc.
    repeat split; try done; try lia.
Qed.

End Aggregate.

Lemma stats_of_skipped font_list res :
  FD.stats_of font_list res !! "skipped" = None.
Proof. unfold FD.stats_of. by rewrite !lookup_insert_ne, lookup_singleton_ne. Qed.

Lemma C9_three_counts_witness :
  (0 < FD.max_concurrent Sample.self)%nat
  ∧ is_Some (FD.download_all_fonts Sample.service Sample.self Sample.disk
               ["bar"; "foo"] (FD.sequential 2)).
Proof.
  split; [simpl; lia|].
  apply (C9_three_counts Sample.service Sample.self Sample.disk ["bar"; "foo"]).
  simpl; lia.
Defined.

(** What the run on ["bar"; "foo"] gives: ["bar"] is skipped and counted as
    a success, ["foo"] fails, and the reason only shows in the log. *)
Example download_all_fonts_bar_foo :
  let st := FD.exec Sample.service Sample.self
              (FD.init Sample.self Sample.disk ["bar"; "foo"]) (FD.sequential 2) in
  FD.download_all_fonts Sample.service Sample.self Sample.disk ["bar"; "foo"]
    (FD.sequential 2)
  = Some {[ "total" := 2%Z; "success" := 1%Z; "failed" := 1%Z ]}
  ∧ FD.results st = [true; false]
  ∧ FD.st_reqs st = ["https://api.fontshare.com/v2/fonts/download/foo"]
  ∧ FD.st_log st = [Log INFO "⏭️  Skipping bar (already downloaded)";
                    Log ERROR "❌ Failed to download foo: HTTP 404"].
Proof. repeat split; vm_compute; reflexivity. Qed.

(** C9 as stated does not hold: the returned dictionary has no [skipped]
    count (so the four counts cannot be read off it). *)
Lemma C9_counterexample :
  ¬ (∀ w self fs font_list sched stats,
       FD.download_all_fonts w self fs font_list sched = Some stats →
       ∃ total success skipped failed : Z,
         stats !! "total" = Some total ∧ stats !! "success" = Some success
         ∧ stats !! "skipped" = Some skipped ∧ stats !! "failed" = Some failed
         ∧ total = (success + skipped + failed)%Z).
Proof.
  intros H.
  pose (stats := FD.stats_of ["bar"; "foo"]
                   (FD.results (FD.exec Sample.service Sample.self
                      (FD.init Sample.self Sample.disk ["bar"; "foo"])
                      (FD.sequential 2)))).
  assert (FD.download_all_fonts Sample.service Sample.self Sample.disk
            ["bar"; "foo"] (FD.sequential 2) = Some stats) as E.
  { unfold FD.download_all_fonts.
    change (FD.sequential 2) with (FD.sequential (length ["bar"; "foo"])).
    rewrite sequential_completes; [done|]. simpl. lia. }
  destruct (H _ _ _ _ _ _ E) as (t & s & k & f & _ & _ & Hk & _).
  unfold stats in Hk. by rewrite stats_of_skipped in Hk.
Qed.

(** ** Skipping, in both downloaders *)

Section Skip.
Context (w : world).

Lemma download_font_skip (self : FD.t) fs n :
  is_dir fs (FD.font_dir self n) = true →
  nonempty_file fs (FD.font_file self n) →
  FD.download_font w self fs n
  = FD.Seg (FD.Done true) fs [Log INFO (FD.msg_skipping n)] [].
Proof.
  intros Hd Hf. unfold FD.download_font. simpl. unfold FD.seg_start.
  rewrite (mkdir_existing _ _ Hd), (nonempty_already_downloaded _ _ _ Hf).
  done.
Qed.

Lemma fetch_one_skip (output_dir : path) a n :
  is_dir (BD.fs a) (BD.font_dir output_dir n) = true →
  nonempty_file (BD.fs a) (BD.font_file output_dir n) →
  BD.fetch_one w output_dir a n
  = {| BD.success_count := BD.success_count a + 1;
       BD.failed_fonts := BD.failed_fonts a;
       BD.fs := BD.fs a; BD.requests := BD.requests a;
       BD.stdout := BD.stdout a ++ [BD.Line "⏭️  (already exists)"] |}.
Proof.
  intros Hd Hf. unfold BD.fetch_one.
  rewrite (mkdir_existing _ _ Hd), (nonempty_already_downloaded _ _ _ Hf).
  done.
Qed.

End Skip.

(** ** The sequential loop of [fontshare_bulk_downloader.py] *)

Section Bulk.
Context (w : world) (output_dir : path).
Implicit Types (a : BD.acc) (n : string).

Lemma url_inj n m : BD.url n = BD.url m → n = m.
Proof. apply append_inj_l. Qed.

Lemma font_file_inj n m :
  BD.font_file output_dir n = BD.font_file output_dir m → n = m.
Proof.
  unfold BD.font_file, BD.font_dir. intros H.
  apply pjoin_inj in H as [H _]. by apply pjoin_inj in H as [_ H].
Qed.

Lemma font_file_parent n :
  parent (BD.font_file output_dir n) = BD.font_dir output_dir n.
Proof. apply parent_pjoin. Qed.

(** What one iteration may change. *)
Lemma fetch_one_frame a n :
  wf_fs (BD.fs a) →
  let a' := BD.fetch_one w output_dir a n in
  wf_fs (BD.fs a')
  ∧ (∀ q, is_dir (BD.fs a) q = true → is_dir (BD.fs a') q = true)
  ∧ (∀ q, nonempty_file (BD.fs a) q → BD.fs a' !! q = BD.fs a !! q)
  ∧ (∀ q, q ≠ BD.font_file output_dir n → is_Some (BD.fs a !! q) →
          BD.fs a' !! q = BD.fs a !! q)
  ∧ (BD.requests a' = BD.requests a
     ∨ BD.requests a' = BD.requests a ++ [BD.url n])
  ∧ (BD.failed_fonts a' = BD.failed_fonts a
     ∨ BD.failed_fonts a' = BD.failed_fonts a ++ [n]).
Proof.
  intros Hwf. unfold BD.fetch_one.
  destruct (mkdir_exist_ok (BD.fs a) (BD.font_dir output_dir n))
    as [fs1|e] eqn:Hmk; simpl.
  2: { repeat split; auto. }
  destruct (mkdir_preserves _ _ _ Hmk Hwf) as (Hwf1 & Hd1 & Hsame1).
  assert (∀ q, nonempty_file (BD.fs a) q → fs1 !! q = BD.fs a !! q) as Hne1.
  { intros q (c & Hq & _). apply Hsame1. by rewrite Hq. }
  destruct (already_downloaded w fs1 (BD.font_file output_dir n)) eqn:Hdl; simpl.
  { repeat split; auto. }
  destruct (http_get w (BD.url n)) as [r|e]; simpl.
  2: { repeat split; auto. }
  destruct (bool_decide (status r = 200%Z)); simpl.
  2: { repeat split; auto. }
  destruct (read r) as [content|e]; simpl.
  2: { repeat split; auto. }
  destruct (write_file fs1 (BD.font_file output_dir n) content)
    as [fs2|e] eqn:Hwr; simpl.
  2: { repeat split; auto. }
  destruct (write_preserves _ _ _ _ Hwr Hwf1) as (Hwf2 & Hd2 & Hsame2 & _).
  repeat split; auto.
  - intros q Hq. rewrite Hsame2; [by apply Hne1|].
    intros ->.
    assert (nonempty_file fs1 (BD.font_file output_dir n)) as Hq1.
    { pose proof (Hne1 _ Hq) as E. destruct Hq as (c & Hc & Hnil).
      exists c. by rewrite E. }
    apply (nonempty_already_downloaded w) in Hq1. congruence.
  - intros q Hq Hs. rewrite Hsame2 by done. by apply Hsame1.
Qed.

End Bulk.

Section BulkRuns.
Context (w : world) (output_dir : path).
Implicit Types (a : BD.acc) (n : string).

Lemma iteration_fetch_one total a i n :
  BD.iteration w output_dir total a i n
  = BD.fetch_one w output_dir
      {| BD.success_count := BD.success_count a;
         BD.failed_fonts := BD.failed_fonts a;
         BD.fs := BD.fs a; BD.requests := BD.requests a;
         BD.stdout := BD.stdout a ++ [BD.Line (BD.msg_progress i total n)] |} n.
Proof. done. Qed.

(** An archive that is complete stays as it is for the rest of the run,
    and nothing is requested for it. *)
Lemma loop_keeps total n fonts : ∀ a i,
  wf_fs (BD.fs a) →
  nonempty_file (BD.fs a) (BD.font_file output_dir n) →
  BD.url n ∉ BD.requests a → n ∉ BD.failed_fonts a →
  let a' := BD.loop w output_dir total a i fonts in
  (BD.url n ∉ BD.requests a') ∧ (n ∉ BD.failed_fonts a')
  ∧ nonempty_file (BD.fs a') (BD.font_file output_dir n).
Proof.
  induction fonts as [|m fonts IH]; intros a i Hwf Hne Hr Hf; simpl; [done|].
  rewrite iteration_fetch_one. set (a0 := BD.Acc _ _ _ _ _).
  destruct (fetch_one_frame w output_dir a0 m Hwf)
    as (Hwf' & _ & Hsame & _ & Hreq & Hfail).
  assert (is_dir (BD.fs a0) (BD.font_dir output_dir n) = true) as Hdir.
  { destruct Hne as (c & Hc & _). by eapply wf_parent_dir. }
  apply IH; try done.
  - pose proof (Hsame _ Hne) as E. destruct Hne as (c & Hc & Hnil).
    exists c. by rewrite E.
  - destruct (decide (m = n)) as [->|Hmn].
    + by rewrite fetch_one_skip.
    + destruct Hreq as [-> | ->]; [done|]. simpl.
      rewrite elem_of_app, list_elem_of_singleton.
      intros [?|E]; [done|]. by apply url_inj in E.
  - destruct (decide (m = n)) as [->|Hmn].
    + by rewrite fetch_one_skip.
    + destruct Hfail as [-> | ->]; [done|]. simpl.
      rewrite elem_of_app, list_elem_of_singleton. intros [?|E]; done.
Qed.

(** When every archive is complete, the run only skips. *)
Lemma loop_all_skipped total fonts : ∀ a i,
  wf_fs (BD.fs a) →
  (∀ n, n ∈ fonts → nonempty_file (BD.fs a) (BD.font_file output_dir n)) →
  let a' := BD.loop w output_dir total a i fonts in
  BD.requests a' = BD.requests a ∧ BD.fs a' = BD.fs a
  ∧ BD.failed_fonts a' = BD.failed_fonts a
  ∧ BD.success_count a' = (BD.success_count a + Z.of_nat (length fonts))%Z.
Proof.
  induction fonts as [|m fonts IH]; intros a i Hwf Hall; simpl.
  { repeat split; try done. lia. }
  rewrite iteration_fetch_one, fetch_one_skip; simpl.
  - edestruct (IH (BD.Acc (BD.success_count a + 1) (BD.failed_fonts a)
                          (BD.fs a) (BD.requests a)
                 ((BD.stdout a ++ [BD.Line (BD.msg_progress i total m)])
                    ++ [BD.Line "⏭️  (already exists)"])) (S i))
      as (-> & -> & -> & ->); simpl; try done.
    + intros n Hn. apply Hall. by right.
    + repeat split; try done. lia.
  - destruct (Hall m) as (c & Hc & _); [by left|]. by eapply wf_parent_dir.
  - apply Hall. by left.
Qed.

Lemma loop_wf total fonts : ∀ a i,
  wf_fs (BD.fs a) → wf_fs (BD.fs (BD.loop w output_dir total a i fonts)).
Proof.
  induction fonts as [|m fonts IH]; intros a i Hwf; simpl; [done|].
  apply IH. rewrite iteration_fetch_one.
  by apply (fetch_one_frame w output_dir).
Qed.

End BulkRuns.

Lemma bulk_disk_wf : wf_fs Sample.bulk_disk.
Proof. unfold wf_fs. apply (bool_decide_unpack _). vm_compute. exact I. Qed.

(** C1 as stated does not hold: a font whose fetch failed has no archive,
    so the second run requests it again. *)
Lemma C1_counterexample :
  ¬ (∀ w output_dir fs0 fonts,
       wf_fs fs0 →
       let run1 := BD.download_all_fonts w fs0 fonts output_dir in
       let run2 := BD.download_all_fonts w (BD.fs run1) fonts output_dir in
       BD.requests run2 = []).
Proof.
  intros H.
  specialize (H Sample.service ["fontshare_fonts"] Sample.bulk_disk ["foo"]
                bulk_disk_wf).
  apply (f_equal length) in H. vm_compute in H. discriminate.
Qed.

(** The two runs on ["foo"], which the service answers with 404. *)
Example second_run_requests_again :
  let run1 := BD.download_all_fonts Sample.service Sample.bulk_disk ["foo"]
                ["fontshare_fonts"] in
  let run2 := BD.download_all_fonts Sample.service (BD.fs run1) ["foo"]
                ["fontshare_fonts"] in
  BD.requests run2 = ["https://api.fontshare.com/v2/fonts/download/foo"]
  ∧ BD.failed_fonts run2 = ["foo"]
  ∧ BD.success_count run2 = 0%Z.
Proof. repeat split; vm_compute; reflexivity. Qed.

(** ** Failed fetches *)

Section Failures.
Context (w : world).

Lemma mkdir_keeps_download_state fs d fs1 f :
  mkdir_exist_ok fs d = Ok fs1 → f ≠ d →
  already_downloaded w fs1 f = already_downloaded w fs f.
Proof.
  intros Hmk Hne. unfold already_downloaded, path_exists, st_size.
  by rewrite (mkdir_ok_lookup _ _ _ _ Hmk Hne).
Qed.

(** [download_font] on a fetch that fails: one request, one ERROR record
    carrying the reason, [False], and the archive path as it was. *)
Lemma download_font_fails (self : FD.t) fs fs1 n reason :
  mkdir_exist_ok fs (FD.font_dir self n) = Ok fs1 →
  already_downloaded w fs1 (FD.font_file self n) = false →
  failure_reason w (FD.download_url self n) = Some reason →
  let r := FD.download_font w self fs n in
  FD.seg_pc r = FD.Done false
  ∧ FD.seg_reqs r = [FD.download_url self n]
  ∧ FD.seg_fs r = fs1
  ∧ (FD.seg_log r
       = [Log ERROR ("❌ Failed to download " +:+ n +:+ ": " +:+ reason)]
     ∨ FD.seg_log r
       = [Log ERROR ("❌ Error downloading " +:+ n +:+ ": " +:+ reason)]).
Proof.
  intros Hmk Hdl Hfail. unfold FD.download_font. simpl.
  unfold FD.seg_start. rewrite Hmk, Hdl. simpl.
  unfold FD.seg_get, failure_reason in *.
  destruct (http_get w (FD.download_url self n)) as [r|e]; simpl.
  - destruct (bool_decide (status r = 200%Z)); simpl.
    + destruct (read r) as [c|e]; [done|]. inversion Hfail; subst. simpl.
      repeat split; try done. by right.
    + inversion Hfail; subst. repeat split; try done. by left.
  - inversion Hfail; subst. repeat split; try done. by right.
Qed.

Context (output_dir : path).

Lemma font_file_ne_dir n m :
  BD.font_file output_dir n ≠ BD.font_dir output_dir m.
Proof.
  unfold BD.font_file, BD.font_dir, pjoin. intros H.
  apply (f_equal length) in H. rewrite !length_app in H. simpl in H. lia.
Qed.

Lemma fetch_one_fails a fs1 n reason :
  mkdir_exist_ok (BD.fs a) (BD.font_dir output_dir n) = Ok fs1 →
  already_downloaded w fs1 (BD.font_file output_dir n) = false →
  failure_reason w (BD.url n) = Some reason →
  let a' := BD.fetch_one w output_dir a n in
  BD.failed_fonts a' = BD.failed_fonts a ++ [n]
  ∧ BD.requests a' = BD.requests a ++ [BD.url n]
  ∧ BD.success_count a' = BD.success_count a
  ∧ BD.fs a' = fs1
  ∧ (BD.stdout a' = BD.stdout a ++ [BD.Line ("❌ " +:+ reason)]
     ∨ BD.stdout a' = BD.stdout a ++ [BD.Line ("❌ Error: " +:+ reason)]).
Proof.
  intros Hmk Hdl Hfail. unfold BD.fetch_one. rewrite Hmk, Hdl.
  unfold failure_reason in Hfail.
  destruct (http_get w (BD.url n)) as [r|e]; simpl.
  - destruct (bool_decide (status r = 200%Z)); simpl.
    + destruct (read r) as [c|e]; [done|]. inversion Hfail; subst. simpl.
      repeat split; try done. by right.
    + inversion Hfail; subst. repeat split; try done. by left.
  - inversion Hfail; subst. repeat split; try done. by right.
Qed.

(** Whether or not its directory can be made, a font whose fetch fails
    and whose archive is not there ends in [failed_fonts], and its
    archive path is left alone. *)
Lemma fetch_one_failed a n reason :
  already_downloaded w (BD.fs a) (BD.font_file output_dir n) = false →
  failure_reason w (BD.url n) = Some reason →
  let a' := BD.fetch_one w output_dir a n in
  n ∈ BD.failed_fonts a'
  ∧ already_downloaded w (BD.fs a') (BD.font_file output_dir n) = false.
Proof.
  intros Hdl Hfail.
  destruct (mkdir_exist_ok (BD.fs a) (BD.font_dir output_dir n))
    as [fs1|e] eqn:Hmk.
  - assert (already_downloaded w fs1 (BD.font_file output_dir n) = false) as H1.
    { rewrite (mkdir_keeps_download_state _ _ _ _ Hmk); [done|].
      apply font_file_ne_dir. }
    destruct (fetch_one_fails a fs1 n reason Hmk H1 Hfail)
      as (Hf & _ & _ & Hfs & _).
    simpl. rewrite Hf, Hfs. split; [|done].
    apply elem_of_app. right. by apply list_elem_of_singleton.
  - simpl. unfold BD.fetch_one. rewrite Hmk. simpl. split; [|done].
    apply elem_of_app. right. by apply list_elem_of_singleton.
Qed.

(** An iteration for another font leaves the archive path alone. *)
Lemma fetch_one_other a m q :
  q ≠ BD.font_dir output_dir m → q ≠ BD.font_file output_dir m →
  BD.fs (BD.fetch_one w output_dir a m) !! q = BD.fs a !! q.
Proof.
  intros Hd Hf. unfold BD.fetch_one.
  destruct (mkdir_exist_ok (BD.fs a) (BD.font_dir output_dir m))
    as [fs1|e] eqn:Hmk; [|done].
  pose proof (mkdir_ok_lookup _ _ _ _ Hmk Hd) as E.
  destruct (already_downloaded w fs1 (BD.font_file output_dir m)); [done|].
  destruct (http_get w (BD.url m)) as [r|e]; [|done].
  destruct (bool_decide (status r = 200%Z)); [|done].
  destruct (read r) as [c|e]; [|done].
  destruct (write_file fs1 (BD.font_file output_dir m) c) as [fs2|e] eqn:Hwr;
    [|done].
  apply write_file_ok in Hwr as (-> & _). simpl.
  by rewrite lookup_insert_ne.
Qed.

Lemma failed_fonts_mono total n fonts : ∀ a i,
  n ∈ BD.failed_fonts a →
  n ∈ BD.failed_fonts (BD.loop w output_dir total a i fonts).
Proof.
  induction fonts as [|m fonts IH]; intros a i Hn; simpl; [done|].
  apply IH. unfold BD.iteration, BD.fetch_one, BD.on_exception.
  repeat case_match; simpl; try done; apply elem_of_app; by left.
Qed.

Lemma loop_failed total n reason fonts : ∀ a i,
  n ∈ fonts →
  already_downloaded w (BD.fs a) (BD.font_file output_dir n) = false →
  failure_reason w (BD.url n) = Some reason →
  n ∈ BD.failed_fonts (BD.loop w output_dir total a i fonts).
Proof.
  induction fonts as [|m fonts IH]; intros a i Hin Hdl Hfail; simpl.
  { by apply elem_of_nil in Hin. }
  rewrite iteration_fetch_one. set (a0 := BD.Acc _ _ _ _ _).
  destruct (decide (m = n)) as [->|Hmn].
  - apply failed_fonts_mono. by eapply (fetch_one_failed a0).
  - apply elem_of_cons in Hin as [->|Hin]; [done|].
    apply IH; try done.
    unfold already_downloaded, path_exists, st_size in *.
    rewrite fetch_one_other; [done| |].
    + apply font_file_ne_dir.
    + intros E. by apply font_file_inj in E.
Qed.

End Failures.

(** C3.  When the request for a font is issued and the fetch fails (a
    status other than 200, or an error raised by the request or by reading
    the body), exactly one request is made for it, the result is a failure
    whose message carries the reason (["HTTP <status>"] or the error text),
    and in the bulk downloader the font is appended to [failed_fonts]; a
    font of the list whose fetch fails is in the final [failed_fonts]. *)
Theorem C3_failed_fetch_once (w : world) (n reason : string) :
  (∀ self fs fs1,
     mkdir_exist_ok fs (FD.font_dir self n) = Ok fs1 →
     already_downloaded w fs1 (FD.font_file self n) = false →
     failure_reason w (FD.download_url self n) = Some reason →
     let r := FD.download_font w self fs n in
     FD.seg_pc r = FD.Done false
     ∧ FD.seg_reqs r = [FD.download_url self n]
     ∧ FD.seg_fs r = fs1
     ∧ (FD.seg_log r
          = [Log ERROR ("❌ Failed to download " +:+ n +:+ ": " +:+ reason)]
        ∨ FD.seg_log r
          = [Log ERROR ("❌ Error downloading " +:+ n +:+ ": " +:+ reason)]))
  ∧ (∀ output_dir a fs1,
       mkdir_exist_ok (BD.fs a) (BD.font_dir output_dir n) = Ok fs1 →
       already_downloaded w fs1 (BD.font_file output_dir n) = false →
       failure_reason w (BD.url n) = Some reason →
       let a' := BD.fetch_one w output_dir a n in
       BD.failed_fonts a' = BD.failed_fonts a ++ [n]
       ∧ BD.requests a' = BD.requests a ++ [BD.url n]
       ∧ BD.success_count a' = BD.success_count a
       ∧ BD.fs a' = fs1
       ∧ (BD.stdout a' = BD.stdout a ++ [BD.Line ("❌ " +:+ reason)]
          ∨ BD.stdout a' = BD.stdout a ++ [BD.Line ("❌ Error: " +:+ reason)]))
  ∧ (∀ output_dir fs0 fonts,
       n ∈ fonts →
       already_downloaded w fs0 (BD.font_file output_dir n) = false →
       failure_reason w (BD.url n) = Some reason →
       n ∈ BD.failed_fonts (BD.download_all_fonts w fs0 fonts output_dir)).
Proof.
  split; [intros; by apply download_font_fails|].
  split; [intros; by apply fetch_one_fails|].
  intros output_dir fs0 fonts Hin Hdl Hfail.
  by eapply loop_failed.
Qed.

Lemma C3_failed_fetch_once_witness :
  (let r := FD.download_font Sample.service Sample.self Sample.disk "foo" in
   FD.seg_pc r = FD.Done false
   ∧ FD.seg_reqs r = [FD.download_url Sample.self "foo"]
   ∧ FD.seg_fs r = <[ ["downloads"; "fonts"; "foo"] := Dir ]> Sample.disk
   ∧ (FD.seg_log r = [Log ERROR "❌ Failed to download foo: HTTP 404"]
      ∨ FD.seg_log r = [Log ERROR "❌ Error downloading foo: HTTP 404"]))
  ∧ "foo" ∈ BD.failed_fonts
              (BD.download_all_fonts Sample.service Sample.bulk_disk
                 ["bar"; "foo"] ["fontshare_fonts"]).
Proof.
  destruct (C3_failed_fetch_once Sample.service "foo" "HTTP 404") as (A & _ & C).
  split.
  - apply A; reflexivity.
  - apply C; [|reflexivity..].
    apply elem_of_cons. right. apply list_elem_of_singleton. reflexivity.
Defined.

(** Scenario B on the bulk downloader. *)
Example bulk_foo_404 :
  let run := BD.download_all_fonts Sample.service Sample.bulk_disk ["foo"]
               ["fontshare_fonts"] in
  BD.failed_fonts run = ["foo"]
  ∧ BD.requests run = ["https://api.fontshare.com/v2/fonts/download/foo"]
  ∧ BD.stdout run = [BD.Line "[ 1/1] Downloading foo..."; BD.Line "❌ HTTP 404"].
Proof. repeat split; vm_compute; reflexivity. Qed.

(** ** Writing the archive *)

Section Persist.
Context (w : world) (self : FD.t).
Local Arguments write_file : simpl never.



(** The disk at the end of [download_font] is the last of the states. *)
Lemma last_states_during fs n :
  List.last (FD.states_during w self fs n) fs
  = FD.seg_fs (FD.download_font w self fs n).
Proof.
  unfold FD.states_during, FD.download_font. simpl. unfold FD.seg_start.
  destruct (mkdir_exist_ok fs (FD.font_dir self n)) as [fs1|e]; [|done].
  destruct (already_downloaded w fs1 (FD.font_file self n)); [done|]. simpl.
  unfold FD.seg_get.
  destruct (http_get w (FD.download_url self n)) as [r|e]; [|done].
  destruct (bool_decide (status r = 200%Z)); [|done]. simpl.
  destruct (read r) as [content|e]; [|done]. simpl.
  unfold write_file.
  destruct (write_file_trace fs1 (FD.font_file self n) content) as [tr|e] eqn:Ht;
    [|done].
  simpl. unfold write_file_trace in Ht.
  destruct (open_wb fs1 (FD.font_file self n)) as [fs0|e]; [|done].
  inversion Ht; subst. simpl.
  generalize (write_states fs0 (FD.font_file self n) content). intros l.
  destruct l as [|x l]; [done|]. revert x. induction l as [|y l IH]; intros x; [done|].
  apply (IH y).
Qed.


End Persist.



(** ** Installers *)

Section InstallFonts.
Context (o : os) (self : FI.t) (font_path : path).

(** [install_font_windows] catches every [Exception] itself. *)
Lemma install_font_windows_catches e :
  fst (FI.install_font_windows o self font_path) ≠ Raises (Exc e).
Proof.
  unfold FI.install_font_windows, try_except, lift, emit, mbind, run_bind, mret,
    run_ret.
  run_cases.
Qed.

(** On Windows, whenever [install_font_windows] returns, its result is
    the result of [install_font]: the simple copy is not tried. *)
Lemma install_font_no_fallback b evs :
  FI.os_type self = "windows" →
  FI.install_font_windows o self font_path = (Returns b, evs) →
  FI.install_font o self font_path = (Returns b, evs).
Proof.
  intros Hos Hw. unfold FI.install_font.
  rewrite bool_decide_eq_true_2 by done. unfold try_bare. by rewrite Hw.
Qed.

End InstallFonts.

(** C5 (failing input).  [install_fonts.py] on Windows without elevation:
    the system-wide registry strategy is entered although the session is
    not elevated; it copies the file, fails on the registry key, and
    [install_font] returns [False] without ever entering
    [install_font_simple_copy], which would have succeeded. *)
Theorem C5_install_fonts_no_fallback :
  let self := FI.Make "windows" Sample.windows_fonts Sample.tmp in
  is_user_an_admin Sample.registry_denied = false
  ∧ FI.install_font Sample.registry_denied self Sample.satoshi_otf
    = (Returns false,
       [Call "install_font_windows";
        Copied Sample.satoshi_otf (Sample.windows_fonts / "Satoshi-Bold.otf")%path;
        Logged (Log ERROR "Failed to install Satoshi-Bold.otf on Windows: [WinError 5] Access is denied")])
  ∧ FI.install_font_simple_copy Sample.registry_denied self Sample.satoshi_otf
    = (Returns true,
       [Call "install_font_simple_copy";
        Copied Sample.satoshi_otf (Sample.windows_fonts / "Satoshi-Bold.otf")%path]).
Proof. repeat split; vm_compute; reflexivity. Qed.

Section Proper.
Context (o : os) (self : WFI.t) (font_path : path).

(** The strategy chain of [proper_font_installer.py] stops at the first
    strategy that returns [True]. *)
Lemma proper_stops_at_first_success evs :
  WFI.install_font_winapi_method o self font_path = (Returns true, evs) →
  WFI.install_font o self font_path = (Returns true, evs).
Proof.
  intros H. unfold WFI.install_font, mbind, run_bind. rewrite H. simpl.
  by rewrite app_nil_r.
Qed.

(** Without elevation the system-wide strategy is never entered. *)
Lemma proper_skips_system_without_admin :
  WFI.is_admin o = false →
  Call "install_font_system_method" ∉ snd (WFI.install_font o self font_path).
Proof.
  intros Hadm. unfold WFI.install_font. rewrite Hadm.
  unfold WFI.install_font_winapi_method, WFI.install_font_user_method,
    try_except, lift, emit, mbind, run_bind, mret, run_ret.
  rewrite Hadm.
  run_cases; cbn [snd]; rewrite ?app_nil_r;
    repeat (apply not_elem_of_cons; split; [discriminate|]);
    apply not_elem_of_nil.
Qed.

(** The WinAPI strategy fails when the copy works but
    [AddFontResourceW] registers nothing. *)
Lemma winapi_copy_alone_fails dest r :
  dest = (if WFI.is_admin o then (WFI.system_fonts self / name_of font_path)%path
          else (WFI.user_fonts self / name_of font_path)%path) →
  copy2 o font_path dest = Returns tt →
  add_font_resource_w o dest = Returns r → (r ≤ 0)%Z →
  fst (WFI.install_font_winapi_method o self font_path) = Returns false.
Proof.
  intros -> Hc Hr Hle.
  unfold WFI.install_font_winapi_method, try_except, lift, emit, mbind,
    run_bind, mret, run_ret.
  rewrite Hc, Hr. simpl. rewrite bool_decide_eq_false_2 by lia. done.
Qed.

End Proper.

(** [install_single_font] of [advanced_font_installer.py] returns [True]
    as soon as the copy works, whatever the two registrations did. *)
Lemma install_single_font_ignores_registration o self font_path target_dir font_name :
  copy2 o font_path (target_dir / name_of font_path)%path = Returns tt →
  (∀ e, fst (AFI.register_font_in_registry o (target_dir / name_of font_path)%path
               font_name (bool_decide (target_dir = AFI.system_fonts self)))
        ≠ Raises e) →
  (∀ e, fst (AFI.add_font_resource o (target_dir / name_of font_path)%path)
        ≠ Raises e) →
  fst (AFI.install_single_font o self font_path target_dir font_name) = Returns true.
Proof.
  intros Hc Hreg Hadd. unfold AFI.install_single_font.
  unfold try_except at 1. unfold lift, emit, mbind, run_bind, mret, run_ret.
  rewrite Hc. simpl.
  destruct (AFI.register_font_in_registry _ _ _ _) as [[b1|e1] ev1] eqn:E1.
  2: { by specialize (Hreg e1). }
  destruct (AFI.add_font_resource _ _) as [[b2|e2] ev2] eqn:E2.
  2: { by specialize (Hadd e2). }
  done.
Qed.

(** C10 (failing input).  The copy works, the registry key cannot be opened
    and [AddFontResourceW] registers nothing: [install_single_font] of
    [advanced_font_installer.py] still returns [True] (no value was set, no
    font resource added), where the WinAPI strategy of
    [proper_font_installer.py] returns [False] on the same session. *)
Theorem C10_copy_without_registration :
  AFI.install_single_font Sample.no_registration
    (AFI.Make Sample.windows_fonts Sample.my_fonts)
    Sample.satoshi_otf Sample.my_fonts "Satoshi-Bold"
  = (Returns true,
     [Call "install_single_font";
      Copied Sample.satoshi_otf (Sample.my_fonts / "Satoshi-Bold.otf")%path;
      Printed "  📁 Copied to: C:\Users\me\AppData\Local\Microsoft\Windows\Fonts\Satoshi-Bold.otf";
      Printed "  ❌ Registry registration failed: [WinError 5] Access is denied"])
  ∧ AFI.register_font_in_registry Sample.no_registration
      (Sample.my_fonts / "Satoshi-Bold.otf")%path "Satoshi-Bold" false
    = (Returns false,
       [Printed "  ❌ Registry registration failed: [WinError 5] Access is denied"])
  ∧ AFI.add_font_resource Sample.no_registration
      (Sample.my_fonts / "Satoshi-Bold.otf")%path = (Returns false, [])
  ∧ WFI.install_font_winapi_method Sample.no_registration
      (WFI.Make Sample.windows_fonts Sample.my_fonts Sample.tmp)
      Sample.satoshi_otf
    = (Returns false,
       [Call "install_font_winapi_method";
        Copied Sample.satoshi_otf (Sample.my_fonts / "Satoshi-Bold.otf")%path;
        Printed "  ❌ AddFontResource failed for Satoshi-Bold.otf"]).
Proof. repeat split; vm_compute; reflexivity. Qed.

(** ** Archives without fonts *)

Section NoFonts.
Context (fl : flavour).

Lemma fi_extract_members_none (self : FI.t) entries : ∀ acc,
  Forall (λ e, has_font_extension FI.font_extensions (filename e) = false)
    entries →
  FI.extract_members fl self entries acc = (acc, None).
Proof.
  induction entries as [|e entries IH]; intros acc H; [done|].
  apply Forall_cons in H as [He H]. cbn [FI.extract_members].
  rewrite He. by apply IH.
Qed.

Lemma wfi_extract_members_none (self : WFI.t) entries : ∀ acc,
  Forall (λ e, has_font_extension WFI.font_extensions (filename e) = false)
    entries →
  WFI.extract_members fl self entries acc = (acc, None).
Proof.
  induction entries as [|e entries IH]; intros acc H; [done|].
  apply Forall_cons in H as [He H]. cbn [WFI.extract_members].
  rewrite He. by apply IH.
Qed.

(** The extensions [proper_font_installer.py] accepts are among those
    [install_fonts.py] accepts. *)
Lemma wfi_extension_fi_extension name :
  has_font_extension FI.font_extensions name = false →
  has_font_extension WFI.font_extensions name = false.
Proof.
  unfold has_font_extension. simpl.
  destruct (endswith (lower name) ".ttf"), (endswith (lower name) ".otf"); done.
Qed.

End NoFonts.

(** ** Names of extracted files *)

Section Names.
Context (fl : flavour).

Lemma split_aux_no_sep s :
  has_sep fl (split_aux fl s).1 = false
  ∧ Forall (λ c, has_sep fl c = false) (split_aux fl s).2.
Proof.
  induction s as [|ch s [IH1 IH2]]; simpl; [by split|].
  destruct (split_aux fl s) as [hd tl]. simpl in *.
  destruct (is_sep fl ch) eqn:Hsep; simpl.
  - split; [done|]. by apply Forall_cons.
  - by rewrite Hsep.
Qed.

Lemma split_path_no_sep s :
  Forall (λ c, has_sep fl c = false) (split_path fl s).
Proof.
  unfold split_path. pose proof (split_aux_no_sep s) as [H1 H2].
  destruct (split_aux fl s). by apply Forall_cons.
Qed.

Lemma last_Forall {A} (P : A → Prop) l d : Forall P l → P d → P (List.last l d).
Proof.
  induction 1 as [|x l Hx Hl IH]; intros Hd; [done|].
  destruct l as [|y l]; [done|]. by apply IH.
Qed.

(** [Path(s).name] never contains a separator. *)
Lemma path_name_no_sep s : has_sep fl (path_name fl s) = false.
Proof.
  unfold path_name. apply (last_Forall (λ c, has_sep fl c = false)); [|done].
  apply Forall_forall. intros c Hc. apply list_elem_of_filter in Hc as [_ Hc].
  pose proof (split_path_no_sep s) as H. rewrite Forall_forall in H. by apply H.
Qed.

(** The member name used by [ZipFile.extract] keeps the directories of
    the entry, without separators inside a component and without the
    components [""], ["."] and [".."]. *)
Lemma arcname_components s :
  Forall (λ c, has_sep fl c = false ∧ c ≠ "" ∧ c ≠ "." ∧ c ≠ "..")
    (arcname fl s).
Proof.
  unfold arcname. apply Forall_forall. intros c Hc.
  apply list_elem_of_filter in Hc as [Hne Hc]. split; [|done].
  pose proof (split_path_no_sep s) as H. rewrite Forall_forall in H. by apply H.
Qed.

(** What the extraction loops select, when every selected entry can be
    read: the entries with an accepted extension, in archive order. *)
Lemma fi_extract_members_spec (self : FI.t) entries : ∀ acc,
  Forall readable entries →
  FI.extract_members fl self entries acc
  = (acc ++ ((λ e, FontFile (FI.temp_dir self ++ arcname fl (filename e))
                      (content_of e))
             <$> filter (λ e, has_font_extension FI.font_extensions (filename e)
                              = true) entries),
     None).
Proof.
  induction entries as [|e entries IH]; intros acc H.
  { simpl. by rewrite app_nil_r. }
  apply Forall_cons in H as [[c Hc] H]. cbn [FI.extract_members].
  rewrite filter_cons.
  destruct (has_font_extension FI.font_extensions (filename e)) eqn:He.
  - rewrite decide_True by done. rewrite Hc, IH by done.
    rewrite fmap_cons, <- app_assoc.
    by replace (content_of e) with c by (unfold content_of; by rewrite Hc).
  - rewrite decide_False by done. by apply IH.
Qed.

Lemma eaf_extract_entries_spec (user_fonts : path) entries : ∀ acc,
  Forall readable entries →
  ExtractAllFonts.extract_entries fl user_fonts entries acc
  = (acc ++ ((λ e, FontFile (user_fonts / path_name fl (filename e))%path
                      (content_of e))
             <$> filter (λ e, has_font_extension ExtractAllFonts.font_extensions
                                (filename e) = true) entries),
     None).
Proof.
  induction entries as [|e entries IH]; intros acc H.
  { simpl. by rewrite app_nil_r. }
  apply Forall_cons in H as [[c Hc] H]. cbn [ExtractAllFonts.extract_entries].
  rewrite filter_cons.
  destruct (has_font_extension ExtractAllFonts.font_extensions (filename e))
    eqn:He.
  - rewrite decide_True by done. rewrite Hc, IH by done.
    rewrite fmap_cons, <- app_assoc.
    by replace (content_of e) with c by (unfold content_of; by rewrite Hc).
  - rewrite decide_False by done. by apply IH.
Qed.

End Names.

Section BaseName.
Context (fl : flavour).

Lemma endswith_app s suf : endswith s suf = true → ∃ pre, s = pre +:+ suf.
Proof.
  induction s as [|c s IH]; cbn [endswith].
  - destruct (String.eqb_spec "" suf) as [<-|]; intros H; [by exists ""|done].
  - destruct (String.eqb_spec (String c s) suf) as [<-|]; intros H;
      [by exists ""|].
    destruct (IH H) as [pre ->]. by exists (String c pre).
Qed.

Lemma lower_app_inv pre' suf' : ∀ s,
  lower s = pre' +:+ suf' → ∃ pre suf, s = pre +:+ suf ∧ lower suf = suf'.
Proof.
  induction pre' as [|c pre' IH]; intros s H.
  - by exists "", s.
  - destruct s as [|c0 s]; [done|]. simpl in H. injection H as _ H.
    destruct (IH s H) as (pre & suf & -> & Hs). by exists (String c0 pre), suf.
Qed.

Lemma string_length_app (s1 s2 : string) :
  String.length (s1 +:+ s2) = String.length s1 + String.length s2.
Proof. induction s1 as [|c s1 IH]; simpl; [done|by rewrite IH]. Qed.

Lemma string_length_lower s : String.length (lower s) = String.length s.
Proof. induction s as [|c s IH]; simpl; [done|by rewrite IH]. Qed.

Lemma is_sep_lower c : is_sep fl c = true → lower_ascii c = c.
Proof.
  destruct fl; simpl; rewrite ?orb_true_iff, !Ascii.eqb_eq;
    intros H; destruct_or?; subst; reflexivity.
Qed.

Lemma has_sep_lower s : has_sep fl (lower s) = false → has_sep fl s = false.
Proof.
  induction s as [|c s IH]; simpl; [done|].
  rewrite !orb_false_iff. intros [H1 H2]. split; [|by apply IH].
  destruct (is_sep fl c) eqn:Hc; [|done].
  rewrite (is_sep_lower c Hc) in H1. congruence.
Qed.

Lemma split_path_cons c s :
  split_path fl (String c s)
  = if is_sep fl c then "" :: split_path fl s
    else match split_path fl s with
         | hd :: tl => String c hd :: tl
         | [] => []
         end.
Proof.
  unfold split_path. simpl. destruct (split_aux fl s) as [hd tl].
  by destruct (is_sep fl c).
Qed.

Lemma split_path_nonempty s : split_path fl s ≠ [].
Proof. unfold split_path. by destruct (split_aux fl s). Qed.

Lemma split_path_no_sep_id s : has_sep fl s = false → split_path fl s = [s].
Proof.
  induction s as [|c s IH]; [done|]. simpl.
  rewrite orb_false_iff. intros [Hc Hs].
  by rewrite split_path_cons, Hc, (IH Hs).
Qed.

(** Appending a separator-free suffix only extends the last component. *)
Lemma split_path_app pre suf :
  has_sep fl suf = false →
  split_path fl (pre +:+ suf) = map_last (λ c, c +:+ suf) (split_path fl pre).
Proof.
  intros Hsuf. induction pre as [|c pre IH].
  - simpl. by rewrite split_path_no_sep_id.
  - change (String c pre +:+ suf) with (String c (pre +:+ suf)).
    rewrite !split_path_cons, IH.
    pose proof (split_path_nonempty pre) as Hne.
    destruct (split_path fl pre) as [|hd [|y tl]]; [done|..];
      destruct (is_sep fl c); done.
Qed.

Lemma last_cons {A} (x : A) l d : l ≠ [] → List.last (x :: l) d = List.last l d.
Proof. by destruct l. Qed.

Lemma map_last_nonempty {A} (f : A → A) l : l ≠ [] → map_last f l ≠ [].
Proof. destruct l as [|x [|y l]]; done. Qed.

Lemma last_map_last {A} (f : A → A) (l : list A) d :
  l ≠ [] → List.last (map_last f l) d = f (List.last l d).
Proof.
  induction l as [|x l IH]; [done|]. intros _.
  destruct l as [|y l]; [done|].
  change (map_last f (x :: y :: l)) with (x :: map_last f (y :: l)).
  rewrite last_cons by (by apply map_last_nonempty). by apply IH.
Qed.

Lemma last_filter {A} (P : A → Prop) `{∀ x, Decision (P x)} (l : list A) d :
  l ≠ [] → P (List.last l d) → List.last (filter P l) d = List.last l d.
Proof.
  induction l as [|x l IH]; [done|]. intros _ HP.
  destruct l as [|y l].
  - simpl in *. rewrite filter_cons, decide_True by done. done.
  - change (List.last (x :: y :: l) d) with (List.last (y :: l) d) in *.
    rewrite filter_cons. rewrite <- IH by done.
    destruct (decide (P x)); [|done].
    assert (filter P (y :: l) ≠ []) as Hne.
    { intros E. assert (List.last (y :: l) d ∈ filter P (y :: l)) as Hin.
      { apply list_elem_of_filter. split; [done|].
        apply list_elem_of_In. clear. revert y.
        induction l as [|z l IH]; intros y; [by left|].
        right. apply (IH z). }
      rewrite E in Hin. by apply elem_of_nil in Hin. }
    destruct (filter P (y :: l)); done.
Qed.

(** For a name with one of the extensions [exts] (each at least three
    characters long and free of separators), the file [ZipFile.extract]
    writes and [Path(name).name] have the same last component. *)
Lemma matched_name (exts : list string) (temp : path) name :
  Forall (λ ext, has_sep fl ext = false ∧ 3 ≤ String.length ext)%nat exts →
  has_font_extension exts name = true →
  arcname fl name ≠ []
  ∧ name_of (temp ++ arcname fl name) = path_name fl name.
Proof.
  intros Hexts Hm. unfold has_font_extension in Hm.
  apply existsb_exists in Hm as (ext & Hin & Hend).
  rewrite Forall_forall in Hexts.
  destruct (Hexts ext) as [Hsep Hlen]; [by apply list_elem_of_In|].
  apply endswith_app in Hend as [pre' Hl].
  apply lower_app_inv in Hl as (pre & suf & -> & Hsuf).
  assert (has_sep fl suf = false) as Hs
    by (apply has_sep_lower; by rewrite Hsuf).
  assert (3 ≤ String.length suf)%nat as Hls
    by (by rewrite <- string_length_lower, Hsuf).
  set (c := List.last (split_path fl (pre +:+ suf)) "").
  assert (3 ≤ String.length c)%nat as Hc.
  { unfold c. rewrite split_path_app, last_map_last, string_length_app;
      [lia|apply split_path_nonempty|done]. }
  assert (c ≠ "" ∧ c ≠ "." ∧ c ≠ "..") as (H1 & H2 & H3).
  { repeat split; intros E; rewrite E in Hc; simpl in Hc; lia. }
  assert (List.last (arcname fl (pre +:+ suf)) "" = c) as Ha.
  { unfold arcname. rewrite last_filter; [done|apply split_path_nonempty|done]. }
  assert (arcname fl (pre +:+ suf) ≠ []) as Hne.
  { intros E. rewrite E in Ha. simpl in Ha. congruence. }
  split; [done|].
  unfold name_of, path_name.
  rewrite (last_filter (λ c, c ≠ "" ∧ c ≠ "."));
    [|apply split_path_nonempty|done].
  fold c. rewrite <- Ha.
  destruct (arcname fl (pre +:+ suf)) as [|x l] using rev_ind; [done|].
  by rewrite app_assoc, !last_last.
Qed.

End BaseName.

Lemma fi_extensions_plain fl :
  Forall (λ ext, has_sep fl ext = false ∧ (3 ≤ String.length ext)%nat)
    FI.font_extensions.
Proof. repeat constructor; destruct fl; simpl; (reflexivity || lia). Qed.

(** Every copy [install_fonts.py] makes goes straight into the font
    directory, under the last component of the path of the extracted file. *)
Lemma fi_install_dest o self font_path src dst :
  Copied src dst ∈ snd (FI.install_font o self font_path) →
  dst = (FI.system_font_dir self / name_of font_path)%path.
Proof.
  unfold FI.install_font, FI.install_font_windows, FI.install_font_simple_copy,
    try_bare, try_except, lift, emit, mbind, run_bind, mret, run_ret.
  run_cases; cbn [snd]; rewrite ?app_nil_r;
    rewrite ?elem_of_app, ?elem_of_cons, ?elem_of_nil; intros H; destruct_or?;
    simplify_eq; done.
Qed.

(** C6 as stated does not hold: the file [install_fonts.py] extracts lies
    in the directories the archive names, beneath the temporary directory. *)
Lemma C6_counterexample :
  ¬ (∀ fl self entries f,
       f ∈ (FI.extract_members fl self entries []).1 →
       ∃ e, e ∈ entries
            ∧ ff_path f = (FI.temp_dir self / path_name fl (filename e))%path).
Proof.
  intros H.
  destruct (H Windows (FI.Make "windows" Sample.windows_fonts Sample.tmp)
              [ZipInfo "fonts/otf/Satoshi-Bold.otf" (Ok Sample.body)]
              (FontFile Sample.satoshi_otf Sample.body))
    as (e & _ & He).
  - vm_compute. apply list_elem_of_singleton. reflexivity.
  - apply (f_equal length) in He. unfold pjoin in He.
    rewrite length_app in He. vm_compute in He. discriminate.
Qed.

(** ** Discovery *)

Section DiscoveryFacts.
Context (E : D.env) (self : FD.t).

Lemma normalize_char_idem c :
  let f c := if Ascii.eqb (lower_ascii c) " "%char then "-"%char
             else lower_ascii c in
  f (f c) = f c.
Proof. destruct c as [[] [] [] [] [] [] [] []]; reflexivity. Qed.

Lemma normalize_unfold s :
  D.normalize s
  = match s with
    | EmptyString => EmptyString
    | String c s' =>
        String (if Ascii.eqb (lower_ascii c) " "%char then "-"%char
                else lower_ascii c) (D.normalize s')
    end.
Proof. by destruct s. Qed.

(** A normalized name is in lower case and has no space: normalizing it
    again changes nothing. *)
Lemma normalize_idem s : D.normalize (D.normalize s) = D.normalize s.
Proof.
  induction s as [|c s IH]; [done|].
  rewrite (normalize_unfold (String c s)), normalize_unfold, IH.
  f_equal. apply (normalize_char_idem c).
Qed.

Lemma names_of_items_normalized items : ∀ fonts fonts',
  Forall (λ n, D.normalize n = n) fonts →
  D.names_of_items items fonts = Ok fonts' →
  Forall (λ n, D.normalize n = n) fonts'.
Proof.
  induction items as [|font items IH]; intros fonts fonts' Hf H; simpl in H.
  { by inversion H; subst. }
  destruct font as [| | |s|l|d]; try (by eapply IH).
  - eapply IH; [|exact H]. apply Forall_app. split; [done|].
    apply Forall_singleton, normalize_idem.
  - destruct (D.truthy _); [|by eapply IH].
    destruct (D.normalize_value _) as [n|e] eqn:Hn; [|done].
    eapply IH; [|exact H]. apply Forall_app. split; [done|].
    apply Forall_singleton. unfold D.normalize_value in Hn.
    destruct (D.py_or _ _); try done. inversion Hn; subst. apply normalize_idem.
Qed.

(** Every name [_extract_font_names] returns is normalized. *)
Lemma extract_font_names_normalized data fonts :
  D._extract_font_names data = Ok fonts →
  Forall (λ n, D.normalize n = n) fonts.
Proof.
  unfold D._extract_font_names.
  assert (∀ keys acc, Forall (λ n, D.normalize n = n) acc →
            D.scan_keys data keys acc = Ok fonts →
            Forall (λ n, D.normalize n = n) fonts) as H.
  { induction keys as [|key keys IH]; intros acc Hacc H; simpl in H.
    { by inversion H; subst. }
    destruct (D.key_in key data) as [[]|]; [|by eapply IH|done].
    destruct (D.subscript data key) as [v|]; [|done].
    destruct v; try (by eapply IH).
    destruct (D.names_of_items l acc) as [acc'|] eqn:Hn; [|done].
    eapply IH; [|exact H]. by eapply names_of_items_normalized. }
  by apply H.
Qed.

(** The strategies are tried in order and the first one that yields a
    name wins; a strategy that fails yields nothing and the next is tried. *)
Lemma discover_fonts_order :
  D.discover_fonts E self
  = match D._try_api_discovery E self with
    | Some (f :: fonts) => f :: fonts
    | _ => match D._try_website_parsing E with
           | Some (f :: fonts) => f :: fonts
           | _ => D._get_fallback_fonts E self
           end
    end.
Proof. done. Qed.

(** The link scan of the website strategy does remove duplicates. *)
Lemma list_set_NoDup l : NoDup (D.list_set l).
Proof. unfold D.list_set. apply (NoDup_elements (C := gset string)). Qed.

End DiscoveryFacts.

(** C8 (failing input).  The catalogue endpoint answers with the same
    family in two spellings: [discover_fonts] returns the API result as it
    is, normalized but with the duplicate. *)
Theorem C8_discovery_keeps_duplicates :
  D.discover_fonts Sample.duplicated_catalogue Sample.self
  = ["satoshi"; "satoshi"]
  ∧ ¬ NoDup (D.discover_fonts Sample.duplicated_catalogue Sample.self).
Proof.
  assert (D.discover_fonts Sample.duplicated_catalogue Sample.self
          = ["satoshi"; "satoshi"]) as E by (vm_compute; reflexivity).
  split; [done|]. rewrite E. intros H. apply NoDup_cons in H as [H _].
  apply H. by left.
Qed.


(** * Further properties *)

(** ** [download_font] on its own *)

(** X1.  Whatever the disk and the service do, [download_font] returns: it
    ends in [Done b], has issued no request or the single request for its
    own font, and has written exactly one log record, an ERROR exactly when
    it returns [False]. *)
Theorem X1_download_font_returns (w : world) (self : FD.t) (fs : fsys) (n : string) :
  let r := FD.download_font w self fs n in
  ∃ b, FD.seg_pc r = FD.Done b
       ∧ (FD.seg_reqs r = [] ∨ FD.seg_reqs r = [FD.download_url self n])
       ∧ length (FD.seg_log r) = 1
       ∧ FD.count_errors (FD.seg_log r) = Nat.b2n (negb b).
Proof.
  unfold FD.download_font. simpl. unfold FD.seg_start, FD.handler.
  destruct (mkdir_exist_ok fs (FD.font_dir self n)) as [fs1|e]; simpl.
  2: { exists false. auto. }
  destruct (already_downloaded w fs1 (FD.font_file self n)); simpl.
  { exists true. auto. }
  unfold FD.seg_get, FD.handler.
  destruct (http_get w (FD.download_url self n)) as [r|e]; simpl.
  2: { exists false. auto. }
  destruct (bool_decide (status r = 200%Z)); simpl.
  2: { exists false. auto. }
  unfold FD.seg_read, FD.handler.
  destruct (read r) as [content|e]; simpl.
  2: { exists false. auto. }
  destruct (write_file fs1 (FD.font_file self n) content) as [fs2|e]; simpl.
  - exists true. auto.
  - exists false. auto.
Qed.

(** ** The event-loop machine under any schedule *)

Section MachineMore.
Context (w : world) (self : FD.t).

Lemma download_url_inj n m : FD.download_url self n = FD.download_url self m → n = m.
Proof.
  unfold FD.download_url. intros H. apply append_inj_l in H.
  by apply append_inj_l in H.
Qed.

Lemma fd_font_file_inj n m : FD.font_file self n = FD.font_file self m → n = m.
Proof.
  unfold FD.font_file, FD.font_dir. intros H.
  apply pjoin_inj in H as [H _]. by apply pjoin_inj in H as [_ H].
Qed.

(** A segment issues a request only when it starts the task, and then
    exactly the request for the task's font. *)
Lemma seg_reqs_shape fs n p s :
  FD.seg_of w self fs n p = Some s →
  FD.seg_reqs s = []
  ∨ (p = FD.Waiting ∧ FD.seg_reqs s = [FD.download_url self n]).
Proof.
  destruct p; simpl; intros [= <-]; try (by left);
    unfold FD.seg_start, FD.seg_get, FD.seg_read, FD.handler;
    repeat case_match; auto.
Qed.

Lemma exec_invariant (P : FD.state → Prop) :
  (∀ st i st', P st → FD.step w self st i = Some st' → P st') →
  ∀ sched st, P st → P (FD.exec w self st sched).
Proof.
  intros Hstep. induction sched as [|i sched IH]; intros st HP; simpl; [done|].
  destruct (FD.step w self st i) eqn:E; eauto.
Qed.

(** X2.  Under any schedule the tasks issue at most one request each:
    every request made is the download request of a font of the list, and
    there are never more requests than tasks that have started. *)
Theorem X2_requests_one_per_task fs font_list sched :
  let st := FD.exec w self (FD.init self fs font_list) sched in
  Forall (λ u, ∃ n, n ∈ font_list ∧ u = FD.download_url self n) (FD.st_reqs st)
  ∧ (length (FD.st_reqs st) + FD.count_pc FD.is_waiting st
     ≤ length font_list)%nat.
Proof.
  intros st.
  cut (FD.t_name <$> FD.tasks st = font_list
       ∧ Forall (λ u, ∃ n, n ∈ font_list ∧ u = FD.download_url self n)
           (FD.st_reqs st)
       ∧ (length (FD.st_reqs st) + FD.count_pc FD.is_waiting st
          ≤ length font_list)%nat); [tauto|].
  unfold st. apply (exec_invariant (λ st,
    FD.t_name <$> FD.tasks st = font_list
    ∧ Forall (λ u, ∃ n, n ∈ font_list ∧ u = FD.download_url self n) (FD.st_reqs st)
    ∧ (length (FD.st_reqs st) + FD.count_pc FD.is_waiting st
       ≤ length font_list)%nat)).
  - clear. intros st i st' (Hn & Hall & Hlen) Hstep.
    apply step_Some in Hstep
      as (tk & s & Htk & _ & Hs & _ & Ht & _ & _ & Hr & _).
    pose proof (seg_of_shape _ _ _ _ _ _ Hs) as (_ & _ & _ & Hw').
    pose proof (count_pc_step FD.is_waiting st i tk (FD.seg_pc s) Htk) as Hc.
    rewrite Hw' in Hc. simpl in Hc.
    assert (FD.t_name tk ∈ font_list) as Hin.
    { rewrite <- Hn. apply list_elem_of_fmap. exists tk. split; [done|].
      by eapply list_elem_of_lookup_2. }
    split; [|split].
    + rewrite Ht, list_fmap_insert. simpl. rewrite list_insert_id; [done|].
      by rewrite list_lookup_fmap, Htk.
    + rewrite Hr. apply Forall_app. split; [done|].
      destruct (seg_reqs_shape _ _ _ _ Hs) as [->|[_ ->]]; [done|].
      apply Forall_singleton. eauto.
    + rewrite Hr, length_app. unfold FD.count_pc at 1. rewrite Ht.
      destruct (seg_reqs_shape _ _ _ _ Hs) as [E|[Hp E]]; rewrite E; simpl.
      * destruct (FD.is_waiting (FD.t_pc tk)); simpl in Hc; lia.
      * rewrite Hp in Hc. simpl in Hc. lia.
  - pose proof (inv_init self fs font_list) as [_ Hn _ _].
    split; [done|]. split; [done|]. simpl.
    unfold FD.count_pc. simpl. clear.
    induction font_list as [|n l IH]; [done|]. rewrite fmap_cons. simpl.
    lia.
Qed.

Lemma mkdir_keeps_entries fs p fs' q :
  mkdir_exist_ok fs p = Ok fs' → is_Some (fs !! q) → fs' !! q = fs !! q.
Proof.
  unfold mkdir_exist_ok. intros H [x Hq].
  destruct (is_dir fs p); [by inversion H; subst|].
  destruct (fs !! p) as [y|] eqn:E; [done|].
  destruct (is_dir fs (parent p)); inversion H; subst.
  rewrite lookup_insert_ne; [done|]. intros ->. by rewrite E in Hq.
Qed.

(** X3.  An archive that is complete (a file with at least one byte) when
    the run starts is left exactly as it is by every schedule, and no
    request is ever issued for its font. *)
Theorem X3_complete_archives_untouched fs font_list sched n :
  nonempty_file fs (FD.font_file self n) →
  let st := FD.exec w self (FD.init self fs font_list) sched in
  FD.st_fs st !! FD.font_file self n = fs !! FD.font_file self n
  ∧ (FD.download_url self n ∉ FD.st_reqs st).
Proof.
  intros Hne st.
  cut (FD.st_fs st !! FD.font_file self n = fs !! FD.font_file self n
       ∧ (FD.download_url self n ∉ FD.st_reqs st)
       ∧ ∀ i tk, FD.tasks st !! i = Some tk →
                 FD.in_flight (FD.t_pc tk) = true → FD.t_name tk ≠ n);
    [tauto|].
  unfold st. apply (exec_invariant (λ st,
    FD.st_fs st !! FD.font_file self n = fs !! FD.font_file self n
    ∧ (FD.download_url self n ∉ FD.st_reqs st)
    ∧ ∀ i tk, FD.tasks st !! i = Some tk →
              FD.in_flight (FD.t_pc tk) = true → FD.t_name tk ≠ n)).
  - clear st. intros st i st' (Hfs & Hreq & Hfl) Hstep.
    apply step_Some in Hstep
      as (tk & s & Htk & _ & Hs & _ & Ht & Hfs' & _ & Hr & _).
    destruct tk as [m p]. simpl in *.
    assert (nonempty_file (FD.st_fs st) (FD.font_file self n)) as Hne'.
    { destruct Hne as (c & Hc & Hnil). exists c. by rewrite Hfs. }
    assert (FD.seg_fs s !! FD.font_file self n = fs !! FD.font_file self n
            ∧ (FD.download_url self n ∉ FD.seg_reqs s)
            ∧ (FD.in_flight (FD.seg_pc s) = true → m ≠ n)) as (H1 & H2 & H3).
    { destruct p; simpl in Hs; inversion Hs; subst; clear Hs.
      - (* the task starts *)
        unfold FD.seg_start, FD.handler.
        destruct (mkdir_exist_ok (FD.st_fs st) (FD.font_dir self m))
          as [fs1|e] eqn:Hmk; simpl.
        2: { split; [done|]. split; [apply not_elem_of_nil|done]. }
        assert (fs1 !! FD.font_file self n = FD.st_fs st !! FD.font_file self n)
          as E.
        { eapply mkdir_keeps_entries; [done|].
          destruct Hne' as (c & Hc & _). by rewrite Hc. }
        destruct (already_downloaded w fs1 (FD.font_file self m)) eqn:Hdl; simpl.
        { split; [by rewrite E|]. split; [apply not_elem_of_nil|done]. }
        assert (m ≠ n) as Hmn.
        { intros ->. rewrite nonempty_already_downloaded in Hdl; [done|].
          destruct Hne' as (c & Hc & Hnil). exists c. by rewrite E. }
        split; [by rewrite E|]. split; [|done].
        rewrite list_elem_of_singleton. intros H. by apply download_url_inj in H.
      - (* the response arrives *)
        unfold FD.seg_get, FD.handler.
        assert (m ≠ n) as Hmn by (by eapply (Hfl i (FD.Task m FD.AwaitGet))).
        repeat case_match; simpl; (split; [done|]);
          (split; [apply not_elem_of_nil|done]).
      - (* the body has been read *)
        unfold FD.seg_read, FD.handler.
        assert (m ≠ n) as Hmn by (by eapply (Hfl i (FD.Task m (FD.AwaitRead rd)))).
        destruct rd as [content|e]; simpl.
        2: { split; [done|]. split; [apply not_elem_of_nil|done]. }
        destruct (write_file (FD.st_fs st) (FD.font_file self m) content)
          as [fs2|e] eqn:Hwr; simpl.
        2: { split; [done|]. split; [apply not_elem_of_nil|done]. }
        apply write_file_ok in Hwr as (-> & _).
        split; [|split; [apply not_elem_of_nil|done]].
        rewrite lookup_insert_ne; [done|]. intros H. by apply fd_font_file_inj in H.
      - (* the sleep is over *)
        unfold FD.seg_sleep. simpl.
        split; [done|]. split; [apply not_elem_of_nil|done]. }
    split; [by rewrite Hfs'|]. split.
    + rewrite Hr, elem_of_app. intros [?|?]; done.
    + intros j tk Hj Hin. rewrite Ht in Hj.
      apply list_lookup_insert_Some in Hj as [(-> & <- & _)|[Hij Hj]].
      * simpl in *. by apply H3.
      * by eapply Hfl.
  - simpl. split; [done|]. split; [apply not_elem_of_nil|].
    intros i tk Hi. apply list_lookup_fmap_Some in Hi as (m & -> & _). done.
Qed.

Lemma sum_list_with_pos {A} (g : A → nat) (l : list A) :
  (0 < sum_list_with g l)%nat → ∃ i x, l !! i = Some x ∧ (0 < g x)%nat.
Proof.
  induction l as [|a l IH]; simpl; [lia|]. intros H.
  destruct (decide (0 < g a)%nat) as [Ha|Ha].
  - by exists 0, a.
  - destruct IH as (i & x & Hi & Hx); [lia|]. by exists (S i), x.
Qed.

Lemma step_enabled st i n p :
  FD.tasks st !! i = Some (FD.Task n p) → FD.is_done p = false →
  (FD.is_waiting p = true → 0 < FD.sem st)%nat →
  is_Some (FD.step w self st i).
Proof.
  intros Htk Hd Hpos. unfold FD.step. rewrite Htk. simpl.
  destruct (seg_of_is_Some w self (FD.st_fs st) n p Hd) as [s Hs]. rewrite Hs.
  destruct (FD.is_waiting p); simpl; [|done].
  rewrite bool_decide_eq_false_2; [done|]. specialize (Hpos eq_refl). lia.
Qed.

(** X4.  The run cannot go on for ever nor get stuck.  Every step the
    event loop takes lowers the number of segments left, which starts at
    four per font; and as long as some task is not finished and the
    semaphore has at least one slot in all, some task can take a step. *)
Theorem X4_steps_bounded_and_progress fs font_list sched :
  let st := FD.exec w self (FD.init self fs font_list) sched in
  total_rank (FD.init self fs font_list) = 4 * length font_list
  ∧ (∀ i st', FD.step w self st i = Some st' →
              (total_rank st' < total_rank st)%nat)
  ∧ ((0 < FD.max_concurrent self)%nat → FD.all_done st = false →
     ∃ i, is_Some (FD.step w self st i)).
Proof.
  intros st. split; [|split].
  - unfold total_rank. simpl. clear.
    induction font_list as [|n l IH]; [done|]. rewrite fmap_cons. simpl.
    rewrite IH. lia.
  - intros i st' Hstep.
    apply step_Some in Hstep as (tk & s & Htk & _ & Hs & _ & Ht & _).
    pose proof (seg_of_rank _ _ _ _ _ _ Hs) as Hr. unfold total_rank.
    rewrite Ht.
    pose proof (sum_list_insert (λ tk, FD.rank (FD.t_pc tk)) (FD.tasks st) i tk
                  (FD.Task (FD.t_name tk) (FD.seg_pc s)) Htk) as E.
    simpl in E. lia.
  - intros Hpos Hnd.
    pose proof (inv_exec w self font_list sched _ (inv_init self fs font_list))
      as [Hsem _ _ _]. fold st in Hsem.
    destruct (decide (0 < FD.count_pc FD.holds_slot st)%nat) as [Hh|Hh].
    + apply sum_list_with_pos in Hh as (i & [n p] & Hi & Hp). simpl in Hp.
      exists i. eapply step_enabled; [done|..]; destruct p; simpl in *; try done; lia.
    + assert (∃ i tk, FD.tasks st !! i = Some tk
                      ∧ FD.is_done (FD.t_pc tk) = false) as (i & [n p] & Hi & Hp).
      { unfold FD.all_done in Hnd. clear -Hnd.
        induction (FD.tasks st) as [|tk l IH]; [done|]. simpl in Hnd.
        destruct (FD.is_done (FD.t_pc tk)) eqn:Hd.
        - destruct (IH Hnd) as (i & x & Hi & Hx). by exists (S i), x.
        - by exists 0, tk. }
      exists i. eapply step_enabled; [done|done|]. intros _. lia.
Qed.

(** X5.  With [max_concurrent = 0] the semaphore never lets a task in:
    no schedule moves the state, so nothing is requested, and unless the
    list is empty the run never finishes. *)
Theorem X5_no_slot_no_progress fs font_list sched :
  FD.max_concurrent self = 0 →
  FD.exec w self (FD.init self fs font_list) sched = FD.init self fs font_list
  ∧ (font_list ≠ [] →
     FD.download_all_fonts w self fs font_list sched = None).
Proof.
  intros H0.
  assert (FD.exec w self (FD.init self fs font_list) sched
          = FD.init self fs font_list) as E.
  { induction sched as [|i sched IH]; [done|]. simpl.
    replace (FD.step w self (FD.init self fs font_list) i) with (@None FD.state);
      [exact IH|].
    unfold FD.step. simpl. rewrite H0.
    destruct (((λ n, FD.Task n FD.Waiting) <$> font_list) !! i) as [tk|] eqn:Hi;
      [|done].
    apply list_lookup_fmap_Some in Hi as (m & -> & _). done. }
  split; [done|]. intros Hne. unfold FD.download_all_fonts. rewrite E.
  destruct font_list; done.
Qed.

End MachineMore.

Lemma X3_complete_archives_untouched_witness :
  let st := FD.exec Sample.service Sample.self
              (FD.init Sample.self Sample.disk ["bar"; "foo"]) (FD.sequential 2) in
  FD.st_fs st !! FD.font_file Sample.self "bar"
  = Sample.disk !! FD.font_file Sample.self "bar"
  ∧ (FD.download_url Sample.self "bar" ∉ FD.st_reqs st).
Proof.
  apply (X3_complete_archives_untouched Sample.service Sample.self Sample.disk
           ["bar"; "foo"] (FD.sequential 2) "bar").
  exists Sample.body. split; [reflexivity|discriminate].
Defined.

Lemma X4_steps_bounded_and_progress_witness :
  let st := FD.init Sample.self Sample.disk ["bar"; "foo"] in
  let st' := default st (FD.step Sample.service Sample.self st 1) in
  (total_rank st' < total_rank st)%nat
  ∧ ∃ i, is_Some (FD.step Sample.service Sample.self st i).
Proof.
  intros st st'.
  destruct (X4_steps_bounded_and_progress Sample.service Sample.self Sample.disk
              ["bar"; "foo"] []) as (_ & B & C).
  split.
  - apply (B 1 st'). reflexivity.
  - apply C; [simpl; lia|reflexivity].
Defined.

Lemma X5_no_slot_no_progress_witness :
  FD.download_all_fonts Sample.service
    (FD.Make ["downloads"] 0 "https://api.fontshare.com/v2") Sample.disk
    ["foo"] (FD.sequential 1) = None.
Proof.
  apply (X5_no_slot_no_progress Sample.service
           (FD.Make ["downloads"] 0 "https://api.fontshare.com/v2") Sample.disk
           ["foo"] (FD.sequential 1)); [reflexivity|discriminate].
Defined.

(** ** The bulk downloader: accounting *)

Section BulkAccounting.
Context (w : world) (output_dir : path).

(** One iteration counts its font once, as a success or as a failure, and
    issues at most the request for that font. *)
Lemma fetch_one_counts a n :
  let a' := BD.fetch_one w output_dir a n in
  ((BD.success_count a' = (BD.success_count a + 1)%Z
    ∧ BD.failed_fonts a' = BD.failed_fonts a)
   ∨ (BD.success_count a' = BD.success_count a
      ∧ BD.failed_fonts a' = BD.failed_fonts a ++ [n]))
  ∧ (BD.requests a' = BD.requests a
     ∨ BD.requests a' = BD.requests a ++ [BD.url n]).
Proof.
  unfold BD.fetch_one, BD.on_exception. repeat case_match; simpl; auto.
Qed.

Lemma loop_counts total fonts : ∀ a i,
  let a' := BD.loop w output_dir total a i fonts in
  ∃ fl rq,
    BD.failed_fonts a' = BD.failed_fonts a ++ fl ∧ fl `sublist_of` fonts
    ∧ BD.requests a' = BD.requests a ++ rq
    ∧ rq `sublist_of` (BD.url <$> fonts)
    ∧ (BD.success_count a' + Z.of_nat (length fl)
       = BD.success_count a + Z.of_nat (length fonts))%Z.
Proof.
  induction fonts as [|n fonts IH]; intros a i; simpl.
  { exists [], []. rewrite !app_nil_r. repeat split; try done; simpl; lia. }
  rewrite iteration_fetch_one. set (a0 := BD.Acc _ _ _ _ _).
  destruct (IH (BD.fetch_one w output_dir a0 n) (S i))
    as (fl & rq & Hf & Hfl & Hr & Hrq & Hs).
  destruct (fetch_one_counts a0 n) as [[[Hs1 Hf1]|[Hs1 Hf1]] [Hr1|Hr1]];
    simpl in Hs1, Hf1, Hr1; rewrite Hf, Hf1, Hr, Hr1, <- ?app_assoc.
  - exists fl, rq. split_and!; try done; try (by apply sublist_cons). lia.
  - exists fl, (BD.url n :: rq).
    split_and!; try done;
      [by apply sublist_cons|by apply sublist_skip|lia].
  - exists (n :: fl), rq.
    split_and!; try done;
      [by apply sublist_skip|by apply sublist_cons|simpl length; lia].
  - exists (n :: fl), (BD.url n :: rq).
    split_and!; try done;
      [by apply sublist_skip|by apply sublist_skip|simpl length; lia].
Qed.

(** X6.  The bulk run accounts for every font exactly once: the successes
    and the failed fonts add up to the length of the list; the failed fonts
    are fonts of the list in list order; and the requests made are download
    requests of fonts of the list, in list order, at most one each. *)
Theorem X6_bulk_accounting fs0 fonts :
  let r := BD.download_all_fonts w fs0 fonts output_dir in
  (BD.success_count r + Z.of_nat (length (BD.failed_fonts r))
   = Z.of_nat (length fonts))%Z
  ∧ BD.failed_fonts r `sublist_of` fonts
  ∧ BD.requests r `sublist_of` (BD.url <$> fonts).
Proof.
  intros r. unfold r, BD.download_all_fonts.
  destruct (loop_counts (length fonts) fonts (BD.Acc 0 [] fs0 [] []) 1)
    as (fl & rq & Hf & Hfl & Hr & Hrq & Hs).
  simpl in *. rewrite Hf, Hr. split_and!; try done; lia.
Qed.

(** Nothing an iteration does removes an entry from the disk. *)
Lemma fetch_one_keeps_existing a n q :
  path_exists (BD.fs a) q = true →
  path_exists (BD.fs (BD.fetch_one w output_dir a n)) q = true.
Proof.
  intros Hq. unfold BD.fetch_one.
  destruct (mkdir_exist_ok (BD.fs a) (BD.font_dir output_dir n))
    as [fs1|e] eqn:Hmk; [|done].
  assert (path_exists fs1 q = true) as H1.
  { unfold path_exists in *. destruct (BD.fs a !! q) as [x|] eqn:E; [|done].
    erewrite mkdir_keeps_entries; [by rewrite E|done|by rewrite E]. }
  destruct (already_downloaded w fs1 (BD.font_file output_dir n)); [done|].
  destruct (http_get w (BD.url n)) as [r|e]; [|done].
  destruct (bool_decide (status r = 200%Z)); [|done].
  destruct (read r) as [c|e]; [|done].
  destruct (write_file fs1 (BD.font_file output_dir n) c) as [fs2|e] eqn:Hwr;
    [|done].
  apply write_file_ok in Hwr as (-> & _). simpl. unfold path_exists in *.
  destruct (decide (q = BD.font_file output_dir n)) as [->|Hne].
  - by rewrite lookup_insert_eq.
  - by rewrite lookup_insert_ne.
Qed.

Lemma loop_keeps_existing total fonts q : ∀ a i,
  path_exists (BD.fs a) q = true →
  path_exists (BD.fs (BD.loop w output_dir total a i fonts)) q = true.
Proof.
  induction fonts as [|n fonts IH]; intros a i Hq; simpl; [done|].
  apply IH. rewrite iteration_fetch_one. by apply fetch_one_keeps_existing.
Qed.

(** A font that an iteration does not put in [failed_fonts] has its
    archive on the disk afterwards. *)
Lemma fetch_one_success_on_disk a n :
  n ∉ BD.failed_fonts (BD.fetch_one w output_dir a n) →
  path_exists (BD.fs (BD.fetch_one w output_dir a n))
    (BD.font_file output_dir n) = true.
Proof.
  unfold BD.fetch_one, BD.on_exception.
  destruct (mkdir_exist_ok (BD.fs a) (BD.font_dir output_dir n))
    as [fs1|e] eqn:Hmk; simpl.
  2: { intros H. exfalso. apply H, elem_of_app. right. by left. }
  destruct (already_downloaded w fs1 (BD.font_file output_dir n)) eqn:Hdl; simpl.
  { intros _. unfold already_downloaded in Hdl. by apply andb_true_iff in Hdl as [? _]. }
  destruct (http_get w (BD.url n)) as [r|e]; simpl.
  2: { intros H. exfalso. apply H, elem_of_app. right. by left. }
  destruct (bool_decide (status r = 200%Z)); simpl.
  2: { intros H. exfalso. apply H, elem_of_app. right. by left. }
  destruct (read r) as [c|e]; simpl.
  2: { intros H. exfalso. apply H, elem_of_app. right. by left. }
  destruct (write_file fs1 (BD.font_file output_dir n) c) as [fs2|e] eqn:Hwr;
    simpl.
  2: { intros H. exfalso. apply H, elem_of_app. right. by left. }
  intros _. apply write_file_ok in Hwr as (-> & _).
  unfold path_exists. by rewrite lookup_insert_eq.
Qed.

Lemma loop_success_on_disk total fonts : ∀ a i n,
  n ∈ fonts →
  n ∉ BD.failed_fonts (BD.loop w output_dir total a i fonts) →
  path_exists (BD.fs (BD.loop w output_dir total a i fonts))
    (BD.font_file output_dir n) = true.
Proof.
  induction fonts as [|m fonts IH]; intros a i n Hin Hnf; simpl in *.
  { by apply elem_of_nil in Hin. }
  rewrite iteration_fetch_one in *. set (a0 := BD.Acc _ _ _ _ _) in *.
  apply elem_of_cons in Hin as [->|Hin]; [|by apply IH].
  apply loop_keeps_existing, fetch_one_success_on_disk.
  intros H. apply Hnf. by apply failed_fonts_mono.
Qed.

(** X7.  Every font of the list that the bulk run does not report in
    [failed_fonts] has its archive on the disk when the run ends. *)
Theorem X7_bulk_success_on_disk fs0 fonts n :
  n ∈ fonts →
  n ∉ BD.failed_fonts (BD.download_all_fonts w fs0 fonts output_dir) →
  path_exists (BD.fs (BD.download_all_fonts w fs0 fonts output_dir))
    (BD.font_file output_dir n) = true.
Proof. apply loop_success_on_disk. Qed.

End BulkAccounting.

Lemma X7_bulk_success_on_disk_witness :
  path_exists
    (BD.fs (BD.download_all_fonts Sample.service Sample.bulk_disk
              ["satoshi"; "foo"] ["fontshare_fonts"]))
    (BD.font_file ["fontshare_fonts"] "satoshi") = true.
Proof.
  apply (X7_bulk_success_on_disk Sample.service ["fontshare_fonts"]
           Sample.bulk_disk ["satoshi"; "foo"] "satoshi").
  - apply elem_of_cons. left. reflexivity.
  - vm_compute. intros H. apply list_elem_of_singleton in H. discriminate.
Defined.

(** ** Discovery: what the strategies return *)

Section DiscoveryMore.
Context (E : D.env) (self : FD.t).

Lemma normalize_char_plain c :
  let f c := if Ascii.eqb (lower_ascii c) " "%char then "-"%char
             else lower_ascii c in
  f c ≠ " "%char ∧ lower_ascii (f c) = f c.
Proof. destruct c as [[] [] [] [] [] [] [] []]; split; (discriminate || reflexivity). Qed.

Lemma normalize_chars s c :
  c ∈ String.list_ascii_of_string (D.normalize s) →
  c ≠ " "%char ∧ lower_ascii c = c.
Proof.
  induction s as [|a s IH]; rewrite normalize_unfold; simpl.
  { intros H. by apply elem_of_nil in H. }
  intros H. apply elem_of_cons in H as [->|H]; [|by apply IH].
  apply (normalize_char_plain a).
Qed.

(** X8.  Every name [_extract_font_names] returns is in lower case and
    holds no space. *)
Theorem X8_extracted_names_normalized data fonts :
  D._extract_font_names data = Ok fonts →
  Forall (λ n, ∀ c, c ∈ String.list_ascii_of_string n →
                 c ≠ " "%char ∧ lower_ascii c = c) fonts.
Proof.
  intros H. apply extract_font_names_normalized in H.
  eapply Forall_impl; [exact H|]. intros n Hn c Hc. rewrite <- Hn in Hc.
  by eapply normalize_chars.
Qed.

Lemma names_of_items_nil acc : D.names_of_items [] acc = Ok acc.
Proof. done. Qed.

Lemma scan_keys_dict d keys : ∀ acc r,
  D.scan_keys (D.JDict d) keys acc = Ok r → r ≠ acc →
  ∃ key items, key ∈ keys ∧ D.has_key d key = true
               ∧ D.dict_get d key = D.JList items ∧ items ≠ [].
Proof.
  induction keys as [|key keys IH]; intros acc r H Hne; simpl in H.
  { by inversion H. }
  assert (∀ acc', D.scan_keys (D.JDict d) keys acc' = Ok r → r ≠ acc' →
            ∃ key0 items, key0 ∈ key :: keys ∧ D.has_key d key0 = true
                          ∧ D.dict_get d key0 = D.JList items ∧ items ≠ [])
    as IH'.
  { intros acc' H' Hne'. destruct (IH acc' r H' Hne') as (k & it & Hk & ?).
    exists k, it. split; [by right|done]. }
  destruct (D.has_key d key) eqn:Hk; [|by eapply IH'].
  destruct (D.dict_get d key) as [| | | |items|] eqn:Hg; try (by eapply IH').
  destruct (D.names_of_items items acc) as [acc'|] eqn:Hn; [|done].
  destruct (decide (acc' = acc)) as [->|Hacc]; [by eapply IH'|].
  exists key, items. repeat split; [by left|done..|].
  intros ->. simpl in Hn. by inversion Hn.
Qed.

Lemma scan_keys_not_dict data keys r :
  (∀ d, data ≠ D.JDict d) →
  D.scan_keys data keys [] = Ok r → r = [].
Proof.
  intros Hd. induction keys as [|key keys IH]; simpl; [by inversion 1|].
  destruct data as [| | |s|l|d]; simpl; try done.
  - destruct (D.contains s key); [done|apply IH].
  - destruct (existsb _ l); [done|apply IH].
  - by destruct (Hd d).
Qed.

(** X9.  Only a JSON object yields names, and only through an array it
    holds under one of the keys [fonts], [data], [items] and [results]: a
    bare array of names, a string or any other value yields none. *)
Theorem X9_only_objects_yield_names data f fonts :
  D._extract_font_names data = Ok (f :: fonts) →
  ∃ d key items,
    data = D.JDict d ∧ key ∈ D.possible_keys ∧ D.has_key d key = true
    ∧ D.dict_get d key = D.JList items ∧ items ≠ [].
Proof.
  unfold D._extract_font_names. intros H.
  destruct data as [| | |s|l|d];
    try (by apply scan_keys_not_dict in H).
  destruct (scan_keys_dict d D.possible_keys [] (f :: fonts) H)
    as (key & items & ?); [done|].
  by exists d, key, items.
Qed.

Lemma try_endpoints_sound endpoints fonts :
  D.try_endpoints E endpoints = Some fonts →
  fonts ≠ []
  ∧ ∃ pre endpoint post data,
      endpoints = pre ++ endpoint :: post
      ∧ D.api_get E endpoint = Ok (200%Z, Ok data)
      ∧ D._extract_font_names data = Ok fonts
      ∧ Forall (λ ep, ∀ d f fs, D.api_get E ep = Ok (200%Z, Ok d) →
                        D._extract_font_names d ≠ Ok (f :: fs)) pre.
Proof.
  induction endpoints as [|ep eps IH]; [done|]. intros H.
  assert (D.try_endpoints E eps = Some fonts →
          (∀ d f fs, D.api_get E ep = Ok (200%Z, Ok d) →
                     D._extract_font_names d ≠ Ok (f :: fs)) →
          fonts ≠ []
          ∧ ∃ pre endpoint post data,
              ep :: eps = pre ++ endpoint :: post
              ∧ D.api_get E endpoint = Ok (200%Z, Ok data)
              ∧ D._extract_font_names data = Ok fonts
              ∧ Forall (λ ep, ∀ d f fs, D.api_get E ep = Ok (200%Z, Ok d) →
                                D._extract_font_names d ≠ Ok (f :: fs)) pre)
    as Hnext.
  { intros H' Hep. destruct (IH H') as (Hne & pre & e & post & dt & -> & ? & ? & ?).
    split; [done|]. exists (ep :: pre), e, post, dt.
    repeat split; try done. by apply Forall_cons. }
  cbn [D.try_endpoints] in H.
  destruct (D.api_get E ep) as [[st [data|e]]|e] eqn:Hget;
    try (apply Hnext; [by repeat case_match|done]).
  destruct (decide (st = 200%Z)) as [->|Hst].
  - destruct (D._extract_font_names data) as [[|f fs]|e] eqn:Hx.
    + apply Hnext; [done|]. intros d f fs [= <-]. by rewrite Hx.
    + inversion H; subst. split; [done|].
      exists [], ep, eps, data. repeat split; done.
    + apply Hnext; [done|]. intros d f fs [= <-]. by rewrite Hx.
  - apply Hnext; [by repeat case_match|]. intros d f fs [= ? ?]. done.
Qed.

(** X10.  When the API strategy returns a list, the list is not empty and
    is what [_extract_font_names] made of the answer of one of the three
    endpoints, which answered 200 with a JSON body; no endpoint tried
    before it yielded a name. *)
Theorem X10_api_discovery_sound fonts :
  D._try_api_discovery E self = Some fonts →
  fonts ≠ []
  ∧ ∃ pre endpoint post data,
      D.api_endpoints self = pre ++ endpoint :: post
      ∧ D.api_get E endpoint = Ok (200%Z, Ok data)
      ∧ D._extract_font_names data = Ok fonts
      ∧ Forall (λ ep, ∀ d f fs, D.api_get E ep = Ok (200%Z, Ok d) →
                        D._extract_font_names d ≠ Ok (f :: fs)) pre.
Proof. apply try_endpoints_sound. Qed.

(** X11.  When no JSON match of the page yields names,
    [_parse_fonts_from_html] returns the link names that are longer than
    two characters, hold a hyphen and do not start with [www]: each of
    them once, and nothing else. *)
Theorem X11_href_scan html :
  D.scan_matches E (D.findall_json E html) = Ok None →
  ∃ fonts,
    D._parse_fonts_from_html E html = Ok fonts ∧ NoDup fonts
    ∧ ∀ name, name ∈ fonts
              ↔ name ∈ D.findall_href E html
                ∧ (2 < String.length name)%nat ∧ D.contains name "-" = true
                ∧ String.prefix "www" name = false.
Proof.
  intros H. unfold D._parse_fonts_from_html. rewrite H.
  set (P := λ name : string, (2 < String.length name)%nat
                             ∧ D.contains name "-" = true
                             ∧ String.prefix "www" name = false).
  destruct (filter P (D.findall_href E html)) as [|x l] eqn:Hf.
  - exists []. split; [done|]. split; [constructor|].
    intros name. split; [intros Hin; by apply elem_of_nil in Hin|].
    intros [Hin HP].
    assert (name ∈ filter P (D.findall_href E html)) as Hin'
      by (by apply list_elem_of_filter).
    by rewrite Hf in Hin'.
  - exists (D.list_set (x :: l)). split; [done|].
    split; [apply list_set_NoDup|].
    intros name. unfold D.list_set.
    rewrite elem_of_elements, elem_of_list_to_set, <- Hf, list_elem_of_filter.
    unfold P. tauto.
Qed.

Lemma test_font_availability_true n :
  D._test_font_availability E self n = true
  ↔ D.head_status E (FD.download_url self n) = Ok 200%Z.
Proof.
  unfold D._test_font_availability.
  destruct (D.head_status E (FD.download_url self n)) as [z|e]; [|done].
  split; [|by intros [= ->]].
  intros H. repeat case_match; simplify_eq; done.
Qed.

(** X12.  With the [font_list] module at hand, the fallback list is
    [FONTSHARE_FONTS] followed by those of the first ten
    [POTENTIAL_FONTS] whose download address answers 200 to a HEAD
    request, in their order. *)
Theorem X12_fallback_fonts F P :
  D.font_list E = Some (F, P) →
  ∃ extra,
    D._get_fallback_fonts E self = F ++ extra
    ∧ extra `sublist_of` take 10 P ∧ (length extra ≤ 10)%nat
    ∧ ∀ n, n ∈ extra
           ↔ n ∈ take 10 P
             ∧ D.head_status E (FD.download_url self n) = Ok 200%Z.
Proof.
  intros H. unfold D._get_fallback_fonts. rewrite H.
  set (extra := filter _ _). exists extra.
  assert (extra `sublist_of` take 10 P) as Hs by apply sublist_filter.
  repeat split; try done.
  - apply sublist_length in Hs. rewrite length_take in Hs. lia.
  - apply list_elem_of_filter in H0 as [? ?]. done.
  - apply list_elem_of_filter in H0 as [? ?]. by apply test_font_availability_true.
  - intros [? ?]. apply list_elem_of_filter. split; [|done].
    by apply test_font_availability_true.
Qed.

(** X13.  [discover_fonts] returns at least one name, unless the
    [font_list] module is present with an empty [FONTSHARE_FONTS]. *)
Theorem X13_discovery_not_empty :
  (∀ P, D.font_list E ≠ Some ([], P)) →
  D.discover_fonts E self ≠ [].
Proof.
  intros H. unfold D.discover_fonts.
  destruct (D._try_api_discovery E self) as [[|??]|]; try done;
    (destruct (D._try_website_parsing E) as [[|??]|]; try done);
    unfold D._get_fallback_fonts;
    (destruct (D.font_list E) as [[[|??] P]|]; [by destruct (H P)|done..]).
Qed.

End DiscoveryMore.

Lemma X8_extracted_names_normalized_witness :
  Forall (λ n, ∀ c, c ∈ String.list_ascii_of_string n →
                 c ≠ " "%char ∧ lower_ascii c = c) ["clash-display"].
Proof.
  apply (X8_extracted_names_normalized
           (D.JDict [("fonts", D.JList [D.JStr "Clash Display"])])).
  reflexivity.
Defined.

Lemma X9_only_objects_yield_names_witness :
  ∃ d key items,
    D.JDict [("data", D.JList [D.JDict [("name", D.JStr "Clash Display")]])]
    = D.JDict d ∧ key ∈ D.possible_keys ∧ D.has_key d key = true
    ∧ D.dict_get d key = D.JList items ∧ items ≠ [].
Proof.
  apply (X9_only_objects_yield_names
           (D.JDict [("data", D.JList [D.JDict [("name", D.JStr "Clash Display")]])])
           "clash-display" []).
  reflexivity.
Defined.

Lemma X10_api_discovery_sound_witness :
  ["satoshi"; "satoshi"] ≠ []
  ∧ ∃ pre endpoint post data,
      D.api_endpoints Sample.self = pre ++ endpoint :: post
      ∧ D.api_get Sample.duplicated_catalogue endpoint = Ok (200%Z, Ok data)
      ∧ D._extract_font_names data = Ok ["satoshi"; "satoshi"]
      ∧ Forall (λ ep, ∀ d f fs,
                  D.api_get Sample.duplicated_catalogue ep = Ok (200%Z, Ok d) →
                  D._extract_font_names d ≠ Ok (f :: fs)) pre.
Proof.
  apply (X10_api_discovery_sound Sample.duplicated_catalogue Sample.self).
  reflexivity.
Defined.

Lemma X11_href_scan_witness :
  ∃ fonts,
    D._parse_fonts_from_html Scenario.site_with_links "<html>" = Ok fonts
    ∧ NoDup fonts
    ∧ ∀ name, name ∈ fonts
              ↔ name ∈ D.findall_href Scenario.site_with_links "<html>"
                ∧ (2 < String.length name)%nat ∧ D.contains name "-" = true
                ∧ String.prefix "www" name = false.
Proof. apply (X11_href_scan Scenario.site_with_links "<html>"). reflexivity. Defined.

Lemma X12_fallback_fonts_witness :
  ∃ extra,
    D._get_fallback_fonts Scenario.module_only Sample.self = ["satoshi"] ++ extra
    ∧ extra `sublist_of` take 10 ["zodiak"; "nope"] ∧ (length extra ≤ 10)%nat
    ∧ ∀ n, n ∈ extra
           ↔ n ∈ take 10 ["zodiak"; "nope"]
             ∧ D.head_status Scenario.module_only (FD.download_url Sample.self n)
               = Ok 200%Z.
Proof.
  apply (X12_fallback_fonts Scenario.module_only Sample.self
           ["satoshi"] ["zodiak"; "nope"]).
  reflexivity.
Defined.

Lemma X13_discovery_not_empty_witness :
  D.discover_fonts Scenario.site_with_links Sample.self ≠ [].
Proof.
  apply (X13_discovery_not_empty Scenario.site_with_links Sample.self).
  intros P. discriminate.
Defined.

(** ** Installers: what the strategies and the loops guarantee *)

Section RunMonad.
Context {A B : Type}.

Lemma bind_emit_fst ev (m : run A) : fst (emit ev;; m) = fst m.
Proof. unfold emit, mbind, run_bind. by destruct m as [[a|e] evs]. Qed.

Lemma bind_emit_snd ev (m : run A) : snd (emit ev;; m) = ev :: snd m.
Proof. unfold emit, mbind, run_bind. by destruct m as [[a|e] evs]. Qed.

Lemma try_except_catches (body : run A) handler e :
  (∀ m, fst (handler m) ≠ Raises (Exc e)) →
  fst (try_except body handler) ≠ Raises (Exc e).
Proof.
  intros H. unfold try_except. destruct body as [[a|[m|m]] evs]; simpl; try done.
  specialize (H m). by destruct (handler m).
Qed.

Lemma try_bare_catches (body handler : run A) e :
  fst body ≠ Raises (Exc e) → fst handler ≠ Raises (Exc e) →
  fst (try_bare body handler) ≠ Raises (Exc e).
Proof.
  intros Hb Hh. unfold try_bare. destruct body as [[a|m] evs]; simpl; try done.
  by destruct handler.
Qed.

Lemma bind_no_exc (m : run A) (k : A → run B) e :
  fst m ≠ Raises (Exc e) → (∀ a, fst (k a) ≠ Raises (Exc e)) →
  fst (m ≫= k) ≠ Raises (Exc e).
Proof.
  intros Hm Hk. unfold mbind, run_bind. destruct m as [[a|m'] evs]; simpl.
  - specialize (Hk a). by destruct (k a).
  - intros [= ->]. by apply Hm.
Qed.

End RunMonad.

Section InstallersMore.
Context (o : os).

Lemma fi_simple_copy_no_exc self p e :
  fst (FI.install_font_simple_copy o self p) ≠ Raises (Exc e).
Proof.
  unfold FI.install_font_simple_copy. rewrite bind_emit_fst.
  apply try_except_catches. intros m. by rewrite bind_emit_fst.
Qed.

Lemma fi_install_font_no_exc self p e :
  fst (FI.install_font o self p) ≠ Raises (Exc e).
Proof.
  unfold FI.install_font. case_bool_decide; [|apply fi_simple_copy_no_exc].
  apply try_bare_catches; [apply install_font_windows_catches|].
  rewrite bind_emit_fst. apply fi_simple_copy_no_exc.
Qed.

Lemma wfi_winapi_no_exc self p e :
  fst (WFI.install_font_winapi_method o self p) ≠ Raises (Exc e).
Proof.
  unfold WFI.install_font_winapi_method. rewrite bind_emit_fst.
  apply try_except_catches. intros m. by rewrite bind_emit_fst.
Qed.

Lemma wfi_user_no_exc self p e :
  fst (WFI.install_font_user_method o self p) ≠ Raises (Exc e).
Proof.
  unfold WFI.install_font_user_method. rewrite bind_emit_fst.
  apply try_except_catches. intros m. by rewrite bind_emit_fst.
Qed.

Lemma wfi_system_no_exc self p e :
  fst (WFI.install_font_system_method o self p) ≠ Raises (Exc e).
Proof.
  unfold WFI.install_font_system_method. rewrite bind_emit_fst.
  apply try_except_catches. intros m. by rewrite bind_emit_fst.
Qed.

Lemma wfi_install_font_no_exc self p e :
  fst (WFI.install_font o self p) ≠ Raises (Exc e).
Proof.
  unfold WFI.install_font.
  apply bind_no_exc; [apply wfi_winapi_no_exc|]. intros [|]; [done|].
  apply bind_no_exc; [apply wfi_user_no_exc|]. intros [|]; [done|].
  destruct (WFI.is_admin o); [|done].
  apply bind_no_exc; [apply wfi_system_no_exc|]. by intros [|].
Qed.

Lemma afi_install_single_font_no_exc self p target name e :
  fst (AFI.install_single_font o self p target name) ≠ Raises (Exc e).
Proof.
  unfold AFI.install_single_font. rewrite bind_emit_fst.
  apply try_except_catches. intros m. by rewrite bind_emit_fst.
Qed.

(** X14.  No [Exception] of a call into the operating system leaves an
    installer: [install_font] of [install_fonts.py] and of
    [proper_font_installer.py] and [install_single_font] of
    [advanced_font_installer.py] return a truth value whenever the system
    raises nothing but [Exception]s. *)
Theorem X14_installers_catch_exceptions e :
  (∀ self p, fst (FI.install_font o self p) ≠ Raises (Exc e))
  ∧ (∀ self p, fst (WFI.install_font o self p) ≠ Raises (Exc e))
  ∧ (∀ self p target name,
       fst (AFI.install_single_font o self p target name) ≠ Raises (Exc e)).
Proof.
  split; [intros; apply fi_install_font_no_exc|].
  split; [intros; apply wfi_install_font_no_exc|].
  intros; apply afi_install_single_font_no_exc.
Qed.

End InstallersMore.

Section InstallFontsLoop.
Context (o : os) (fl : flavour) (self : FI.t).

Lemma emit_logs_returns (logs : list log_record) :
  (foldr (λ r k, emit (Logged r);; k) (mret tt) logs : run unit)
  = (Returns tt, Logged <$> logs).
Proof.
  induction logs as [|r logs IH]; [done|]. cbn [foldr]. by rewrite IH.
Qed.

Lemma fi_install_each_returns files : ∀ zs e evs,
  FI.install_each o self files zs ≠ (Raises (Exc e), evs).
Proof.
  induction files as [|f files IH]; intros zs e evs; [done|].
  cbn [FI.install_each]. unfold mbind, run_bind.
  pose proof (fi_install_font_no_exc o self (ff_path f) e) as Hf.
  destruct (FI.install_font o self (ff_path f)) as [[[|]|m] ev1]; simpl in *.
  - destruct (FI.install_each o self files zs) as [[b|m] ev2] eqn:E2; simpl;
      [done|]. intros [= -> _]. by eapply IH.
  - destruct (FI.install_each o self files false) as [[b|m] ev2] eqn:E2; simpl;
      [done|]. intros [= -> _]. by eapply IH.
  - intros [= -> _]. done.
Qed.

Lemma fi_process_zip_counts st z :
  match FI.process_zip o fl self st z with
  | (Returns st', _) =>
      FI.processed st' = (FI.processed st + 1)%Z
      ∧ ((FI.installed st' = (FI.installed st + 1)%Z
          ∧ FI.failed st' = FI.failed st
          ∧ (FI.extract_fonts_from_zip fl self z).1 ≠ [])
         ∨ (FI.installed st' = FI.installed st
            ∧ FI.failed st' = (FI.failed st + 1)%Z))
  | (Raises e, _) => ∃ m, e = BaseExc m
  end.
Proof.
  unfold FI.process_zip.
  destruct (FI.extract_fonts_from_zip fl self z) as [files logs].
  rewrite emit_logs_returns. unfold emit, mbind, run_bind, mret, run_ret.
  cbn [fst].
  destruct files as [|f files]; [simpl; auto|].
  pose proof (fi_install_each_returns (f :: files) true) as Hr.
  destruct (FI.install_each o self (f :: files) true) as [[[|]|[m|m]] ev];
    simpl; auto.
  - by destruct (Hr m ev).
  - by exists m.
Qed.

Lemma fi_process_zips_counts zips : ∀ st,
  match FI.process_zips o fl self st zips with
  | (Returns st', _) =>
      FI.processed st' = (FI.processed st + Z.of_nat (length zips))%Z
      ∧ (FI.installed st' + FI.failed st'
         = FI.installed st + FI.failed st + Z.of_nat (length zips))%Z
      ∧ (FI.installed st ≤ FI.installed st')%Z
      ∧ (FI.failed st ≤ FI.failed st')%Z
  | (Raises e, _) => ∃ m, e = BaseExc m
  end.
Proof.
  induction zips as [|z zips IH]; intros st.
  { simpl. lia. }
  cbn [FI.process_zips]. unfold mbind, run_bind.
  pose proof (fi_process_zip_counts st z) as Hz.
  destruct (FI.process_zip o fl self st z) as [[st1|e] ev1]; [|done].
  specialize (IH st1).
  destruct (FI.process_zips o fl self st1 zips) as [[st2|e] ev2]; [|done].
  simpl length. lia.
Qed.

(** X15.  [install_all_fonts] counts every archive once: when it returns,
    [processed] is the number of archives and [installed] and [failed] add
    up to it; and it returns unless the system raises something that is
    not an [Exception]. *)
Theorem X15_install_all_fonts_accounting zips :
  (∀ s evs, FI.install_all_fonts o fl self zips = (Returns s, evs) →
     FI.processed s = Z.of_nat (length zips)
     ∧ (FI.installed s + FI.failed s = FI.processed s)%Z
     ∧ (0 ≤ FI.installed s)%Z ∧ (0 ≤ FI.failed s)%Z)
  ∧ (∀ e evs, FI.install_all_fonts o fl self zips = (Raises e, evs) →
       ∃ m, e = BaseExc m).
Proof.
  unfold FI.install_all_fonts. destruct zips as [|z zips].
  { split; [intros s evs [= <- _]; simpl; lia|done]. }
  pose proof (fi_process_zips_counts (z :: zips) (FI.Stats 0 0 0)) as H.
  split.
  - intros s evs Hs. rewrite Hs in H. simpl in H. simpl length. lia.
  - intros e evs Hs. by rewrite Hs in H.
Qed.

End InstallFontsLoop.

Lemma X15_install_all_fonts_accounting_witness :
  FI.processed (FI.Stats 2 1 1)
  = Z.of_nat (length [Sample.satoshi_zip; Sample.baz_zip])
  ∧ (FI.installed (FI.Stats 2 1 1) + FI.failed (FI.Stats 2 1 1)
     = FI.processed (FI.Stats 2 1 1))%Z
  ∧ (0 ≤ FI.installed (FI.Stats 2 1 1))%Z ∧ (0 ≤ FI.failed (FI.Stats 2 1 1))%Z.
Proof.
  eapply (proj1 (X15_install_all_fonts_accounting Sample.registry_denied Windows
                   (FI.Make "linux" Sample.my_fonts Sample.tmp)
                   [Sample.satoshi_zip; Sample.baz_zip])).
  reflexivity.
Defined.

(** ** Extraction that fails on the way *)

Section PartialExtraction.
Context (fl : flavour).

Lemma fi_extract_members_app (self : FI.t) pre rest : ∀ acc,
  Forall readable pre →
  FI.extract_members fl self (pre ++ rest) acc
  = FI.extract_members fl self rest
      (acc ++ (FI.extract_members fl self pre []).1).
Proof.
  intros acc Hpre. rewrite (fi_extract_members_spec fl self pre []) by done.
  revert acc. induction Hpre as [|e pre [c Hc] Hpre IH]; intros acc.
  { simpl. by rewrite app_nil_r. }
  cbn [app FI.extract_members]. rewrite filter_cons.
  destruct (has_font_extension FI.font_extensions (filename e)) eqn:He.
  - rewrite decide_True by done. rewrite Hc, IH. cbn [fst app fmap list_fmap].
    rewrite <- app_assoc. cbn [app].
    by replace (content_of e) with c by (unfold content_of; by rewrite Hc).
  - rewrite decide_False by done. apply IH.
Qed.

Lemma wfi_extract_members_app (self : WFI.t) pre rest : ∀ acc,
  Forall readable pre →
  WFI.extract_members fl self (pre ++ rest) acc
  = WFI.extract_members fl self rest
      (acc ++ ((λ e, FontFile (WFI.temp_dir self ++ arcname fl (filename e))
                       (content_of e))
               <$> filter (λ e, has_font_extension WFI.font_extensions
                                  (filename e) = true) pre)).
Proof.
  intros acc Hpre. revert acc.
  induction Hpre as [|e pre [c Hc] Hpre IH]; intros acc.
  { simpl. by rewrite app_nil_r. }
  cbn [app WFI.extract_members]. rewrite filter_cons.
  destruct (has_font_extension WFI.font_extensions (filename e)) eqn:He.
  - rewrite decide_True by done. rewrite Hc, IH. cbn [fmap list_fmap].
    rewrite <- app_assoc. cbn [app].
    by replace (content_of e) with c by (unfold content_of; by rewrite Hc).
  - rewrite decide_False by done. apply IH.
Qed.

Lemma eaf_extract_entries_app (user_fonts : path) pre rest : ∀ acc,
  Forall readable pre →
  ExtractAllFonts.extract_entries fl user_fonts (pre ++ rest) acc
  = ExtractAllFonts.extract_entries fl user_fonts rest
      (acc ++ ((λ e, FontFile (user_fonts / path_name fl (filename e))%path
                       (content_of e))
               <$> filter (λ e, has_font_extension ExtractAllFonts.font_extensions
                                  (filename e) = true) pre)).
Proof.
  intros acc Hpre. revert acc.
  induction Hpre as [|e pre [c Hc] Hpre IH]; intros acc.
  { simpl. by rewrite app_nil_r. }
  cbn [app ExtractAllFonts.extract_entries]. rewrite filter_cons.
  destruct (has_font_extension ExtractAllFonts.font_extensions (filename e))
    eqn:He.
  - rewrite decide_True by done. rewrite Hc, IH. cbn [fmap list_fmap].
    rewrite <- app_assoc. cbn [app].
    by replace (content_of e) with c by (unfold content_of; by rewrite Hc).
  - rewrite decide_False by done. apply IH.
Qed.

(** X16.  When a font entry of an archive cannot be read, extraction stops
    there: the fonts extracted before it are kept (and, in the two
    installers, go on to be installed), the error is reported once, and
    the entries after it are not looked at. *)
Theorem X16_extraction_stops_at_unreadable_font z pre bad post e :
  contents z = Ok (pre ++ bad :: post) →
  Forall readable pre →
  has_font_extension WFI.font_extensions (filename bad) = true →
  data bad = Raise e →
  (∀ self,
     FI.extract_fonts_from_zip fl self z
     = ((λ e, FontFile (FI.temp_dir self ++ arcname fl (filename e))
                (content_of e))
        <$> filter (λ e, has_font_extension FI.font_extensions (filename e) = true)
              pre,
        [Log ERROR (FI.msg_extract_failed (zip_path z) e)]))
  ∧ (∀ self,
       WFI.extract_fonts_from_zip fl self z
       = ((λ e, FontFile (WFI.temp_dir self ++ arcname fl (filename e))
                  (content_of e))
          <$> filter (λ e, has_font_extension WFI.font_extensions (filename e)
                           = true) pre,
          [WFI.msg_extract_failed (zip_path z) e]))
  ∧ (∀ user_fonts,
       ExtractAllFonts.extract_zip fl user_fonts (contents z)
       = ((λ e, FontFile (user_fonts / path_name fl (filename e))%path
                  (content_of e))
          <$> filter (λ e, has_font_extension ExtractAllFonts.font_extensions
                             (filename e) = true) pre,
          Some e)).
Proof.
  intros Hz Hpre Hext Hbad.
  assert (has_font_extension FI.font_extensions (filename bad) = true) as Hext'.
  { destruct (has_font_extension FI.font_extensions (filename bad)) eqn:E;
      [done|]. apply wfi_extension_fi_extension in E. congruence. }
  split; [|split].
  - intros self. unfold FI.extract_fonts_from_zip. rewrite Hz.
    rewrite fi_extract_members_app by done.
    rewrite (fi_extract_members_spec fl self pre []) by done.
    cbn [FI.extract_members fst app]. by rewrite Hext', Hbad.
  - intros self. unfold WFI.extract_fonts_from_zip. rewrite Hz.
    rewrite wfi_extract_members_app by done.
    cbn [WFI.extract_members app]. by rewrite Hext, Hbad.
  - intros user_fonts. unfold ExtractAllFonts.extract_zip. rewrite Hz.
    rewrite eaf_extract_entries_app by done.
    cbn [ExtractAllFonts.extract_entries app].
    change ExtractAllFonts.font_extensions with WFI.font_extensions.
    by rewrite Hext, Hbad.
Qed.

End PartialExtraction.

Lemma X16_extraction_stops_at_unreadable_font_witness :
  FI.extract_fonts_from_zip Windows
    (FI.Make "windows" Sample.windows_fonts Sample.tmp)
    (ZipFile "satoshi.zip" "satoshi.zip"
       (Ok [ZipInfo "Satoshi-Bold.otf" (Ok Sample.body);
            ZipInfo "Satoshi-Light.otf" (Raise "Bad CRC-32");
            ZipInfo "Satoshi-Black.otf" (Ok Sample.body)]))
  = ([FontFile (Sample.tmp ++ ["Satoshi-Bold.otf"]) Sample.body],
     [Log ERROR "Failed to extract satoshi.zip: Bad CRC-32"]).
Proof.
  destruct (X16_extraction_stops_at_unreadable_font Windows
              (ZipFile "satoshi.zip" "satoshi.zip"
                 (Ok [ZipInfo "Satoshi-Bold.otf" (Ok Sample.body);
                      ZipInfo "Satoshi-Light.otf" (Raise "Bad CRC-32");
                      ZipInfo "Satoshi-Black.otf" (Ok Sample.body)]))
              [ZipInfo "Satoshi-Bold.otf" (Ok Sample.body)]
              (ZipInfo "Satoshi-Light.otf" (Raise "Bad CRC-32"))
              [ZipInfo "Satoshi-Black.otf" (Ok Sample.body)] "Bad CRC-32")
    as [A _].
  - reflexivity.
  - apply Forall_singleton. eexists. reflexivity.
  - reflexivity.
  - reflexivity.
  - apply (A (FI.Make "windows" Sample.windows_fonts Sample.tmp)).
Defined.

(** ** The strategy chain of [proper_font_installer.py] *)

Section ProperChain.
Context (o : os) (self : WFI.t).

Lemma calls_app evs evs' : calls (evs ++ evs') = calls evs ++ calls evs'.
Proof. apply omap_app. Qed.

Lemma wfi_winapi_calls p :
  calls (WFI.install_font_winapi_method o self p).2
  = ["install_font_winapi_method"].
Proof.
  unfold WFI.install_font_winapi_method, try_except, lift, emit, mbind,
    run_bind, mret, run_ret.
  run_cases.
Qed.

Lemma wfi_user_calls p :
  calls (WFI.install_font_user_method o self p).2
  = ["install_font_user_method"].
Proof.
  unfold WFI.install_font_user_method, try_except, lift, emit, mbind,
    run_bind, mret, run_ret.
  run_cases.
Qed.

Lemma wfi_system_calls p :
  calls (WFI.install_font_system_method o self p).2
  = ["install_font_system_method"].
Proof.
  unfold WFI.install_font_system_method, try_except, lift, emit, mbind,
    run_bind, mret, run_ret.
  run_cases.
Qed.

(** X17.  [install_font] of [proper_font_installer.py] enters its
    strategies in the order WinAPI, user registry, system registry, and
    stops at the first that returns [True]; it returns [False] only after
    every strategy it may use returned [False]: all three for an
    administrator, the first two otherwise. *)
Theorem X17_proper_chain p b evs :
  WFI.install_font o self p = (Returns b, evs) →
  (b = true →
   calls evs = ["install_font_winapi_method"]
   ∨ calls evs = ["install_font_winapi_method"; "install_font_user_method"]
   ∨ (WFI.is_admin o = true
      ∧ calls evs = ["install_font_winapi_method"; "install_font_user_method";
                     "install_font_system_method"]))
  ∧ (b = false →
     calls evs
     = if WFI.is_admin o
       then ["install_font_winapi_method"; "install_font_user_method";
             "install_font_system_method"]
       else ["install_font_winapi_method"; "install_font_user_method"]).
Proof.
  unfold WFI.install_font, mbind, run_bind, mret, run_ret.
  pose proof (wfi_winapi_calls p) as H1.
  pose proof (wfi_user_calls p) as H2.
  pose proof (wfi_system_calls p) as H3.
  destruct (WFI.install_font_winapi_method o self p) as [[[|]|e1] ev1];
    cbn [snd] in H1; [| |done].
  { intros [= <- <-]. rewrite app_nil_r. split; [auto|done]. }
  destruct (WFI.install_font_user_method o self p) as [[[|]|e2] ev2];
    cbn [snd] in H2; [| |done].
  { intros [= <- <-]. rewrite app_nil_r, calls_app, H1, H2. split; [auto|done]. }
  destruct (WFI.is_admin o).
  - destruct (WFI.install_font_system_method o self p) as [[[|]|e3] ev3];
      cbn [snd] in H3; [| |done];
      intros [= <- <-]; rewrite app_nil_r, !calls_app, H1, H2, H3;
      split; auto; done.
  - intros [= <- <-]. rewrite app_nil_r, calls_app, H1, H2. split; [done|auto].
Qed.

Lemma wfi_install_each_counts files : ∀ c ps c' ps' evs,
  WFI.install_each o self files c ps = (Returns (c', ps'), evs) →
  WFI.total_fonts c' = (WFI.total_fonts c + Z.of_nat (length files))%Z
  ∧ WFI.success_count c' = WFI.success_count c
  ∧ (ps' = true → ps = true).
Proof.
  induction files as [|f files IH]; intros c ps c' ps' evs.
  { intros [= <- <- _]. simpl. split; [lia|done]. }
  cbn [WFI.install_each]. unfold mbind, run_bind, emit.
  destruct (WFI.install_font o self (ff_path f)) as [[[|]|e1] ev1]; [| |done].
  - destruct (WFI.install_each o self files _ ps) as [[[c1 ps1]|e2] ev2] eqn:E;
      [|done].
    intros [= <- <- _]. apply IH in E as (? & ? & ?). simpl in *.
    split; [lia|done].
  - destruct (WFI.install_each o self files _ false) as [[[c1 ps1]|e2] ev2] eqn:E;
      [|done].
    intros [= <- <- _]. apply IH in E as (? & ? & Hps). simpl in *.
    split; [lia|]. split; [done|]. intros ->. by specialize (Hps eq_refl).
Qed.

(** X18.  One archive in the loop of [run]: [total_fonts] grows by the
    number of font files extracted from it, and [success_count] by one at
    most, and only if at least one font file was extracted. *)
Theorem X18_proper_counters fl c z c' evs :
  WFI.process_zip o fl self c z = (Returns c', evs) →
  WFI.total_fonts c'
  = (WFI.total_fonts c
     + Z.of_nat (length (WFI.extract_fonts_from_zip fl self z).1))%Z
  ∧ (WFI.success_count c' = WFI.success_count c
     ∨ (WFI.success_count c' = (WFI.success_count c + 1)%Z
        ∧ (WFI.extract_fonts_from_zip fl self z).1 ≠ [])).
Proof.
  unfold WFI.process_zip.
  destruct (WFI.extract_fonts_from_zip fl self z) as [files errors].
  assert (∃ evs0, (foldr (λ m k, emit (Printed m);; k) (mret tt) errors
                   : run unit) = (Returns tt, evs0)) as [evs0 ->].
  { induction errors as [|m errors [evs0 IH]]; [by eexists|].
    cbn [foldr]. rewrite IH. by eexists. }
  unfold emit, mbind, run_bind, mret, run_ret. cbn [fst].
  destruct files as [|f files].
  { intros [= <- _]. simpl. split; [lia|auto]. }
  destruct (WFI.install_each o self (f :: files) c true)
    as [[[c1 ps1]|e] ev] eqn:E; [|done].
  apply wfi_install_each_counts in E as (Ht & Hs & _).
  destruct ps1; intros [= <- _]; simpl in *; (split; [lia|]).
  - right. split; [lia|done].
  - left. lia.
Qed.

End ProperChain.

Lemma X17_proper_chain_witness :
  calls (WFI.install_font Sample.no_registration
           (WFI.Make Sample.windows_fonts Sample.my_fonts Sample.tmp)
           Sample.satoshi_otf).2
  = ["install_font_winapi_method"; "install_font_user_method"].
Proof.
  apply (X17_proper_chain Sample.no_registration
           (WFI.Make Sample.windows_fonts Sample.my_fonts Sample.tmp)
           Sample.satoshi_otf false); reflexivity.
Defined.

Lemma X18_proper_counters_witness :
  WFI.total_fonts (WFI.Counters 1 1)
  = (WFI.total_fonts (WFI.Counters 0 0)
     + Z.of_nat (length (WFI.extract_fonts_from_zip Windows
                           (WFI.Make Sample.windows_fonts Sample.my_fonts Sample.tmp)
                           Sample.satoshi_zip).1))%Z
  ∧ (WFI.success_count (WFI.Counters 1 1)
     = WFI.success_count (WFI.Counters 0 0)
     ∨ (WFI.success_count (WFI.Counters 1 1)
        = (WFI.success_count (WFI.Counters 0 0) + 1)%Z
        ∧ (WFI.extract_fonts_from_zip Windows
             (WFI.Make Sample.windows_fonts Sample.my_fonts Sample.tmp)
             Sample.satoshi_zip).1 ≠ [])).
Proof.
  eapply (X18_proper_counters Sample.registry_denied
            (WFI.Make Sample.windows_fonts Sample.my_fonts Sample.tmp)
            Windows (WFI.Counters 0 0) Sample.satoshi_zip (WFI.Counters 1 1)).
  vm_compute. reflexivity.
Defined.

(** ** The loop over the fonts of one archive in [install_fonts.py] *)

Section InstallEach.
Context (o : os) (self : FI.t).

Lemma calls_logged r evs : calls (Logged r :: evs) = calls evs.
Proof. done. Qed.

Lemma fi_simple_copy_calls p :
  calls (FI.install_font_simple_copy o self p).2 = ["install_font_simple_copy"].
Proof.
  unfold FI.install_font_simple_copy, try_except, lift, emit, mbind,
    run_bind, mret, run_ret.
  run_cases.
Qed.

Lemma fi_windows_calls p :
  calls (FI.install_font_windows o self p).2 = ["install_font_windows"].
Proof.
  unfold FI.install_font_windows, try_except, lift, emit, mbind,
    run_bind, mret, run_ret.
  run_cases.
Qed.

Lemma fi_install_font_first p :
  length (filter (λ f, f = first_strategy self) (calls (FI.install_font o self p).2))
  = 1%nat.
Proof.
  unfold FI.install_font, first_strategy. case_bool_decide.
  - unfold try_bare. pose proof (fi_windows_calls p) as Hw.
    pose proof (fi_simple_copy_calls p) as Hc.
    destruct (FI.install_font_windows o self p) as [[b|e] evs]; cbn [snd] in *.
    + by rewrite Hw.
    + unfold emit, mbind, run_bind.
      destruct (FI.install_font_simple_copy o self p) as [[b|e'] evs'];
        cbn [snd] in *; by rewrite !calls_app, Hw, ?Hc.
  - by rewrite fi_simple_copy_calls.
Qed.

Lemma fi_install_font_true_quiet p evs :
  FI.install_font o self p = (Returns true, evs) →
  ∀ m, Logged (Log ERROR m) ∉ evs.
Proof.
  unfold FI.install_font, FI.install_font_windows, FI.install_font_simple_copy,
    try_bare, try_except, lift, emit, mbind, run_bind, mret, run_ret.
  intros H m. run_cases; rewrite ?app_nil_r; intros Hin; simplify_eq;
    repeat (apply elem_of_cons in Hin as [Hin|Hin]; [discriminate|]);
    by apply elem_of_nil in Hin.
Qed.

(** X19.  A font that fails to install does not stop the loop: when the
    loop over the font files of an archive returns, [install_font] was
    entered once for every file; and the archive counts as installed only
    if no file failed, that is, no error was logged on the way. *)
Theorem X19_every_font_attempted files zip_success b evs :
  FI.install_each o self files zip_success = (Returns b, evs) →
  length (filter (λ f, f = first_strategy self) (calls evs)) = length files
  ∧ (b = true → zip_success = true ∧ ∀ m, Logged (Log ERROR m) ∉ evs).
Proof.
  revert zip_success b evs.
  induction files as [|f files IH]; intros zs b evs.
  { intros [= <- <-]. split; [done|]. intros ->. split; [done|].
    intros m. apply not_elem_of_nil. }
  cbn [FI.install_each]. unfold mbind, run_bind, emit.
  pose proof (fi_install_font_first (ff_path f)) as H1.
  pose proof (fi_install_font_true_quiet (ff_path f)) as Hq.
  destruct (FI.install_font o self (ff_path f)) as [[[|]|e1] ev1];
    cbn [snd] in H1; [| |done].
  - destruct (FI.install_each o self files zs) as [[b2|e2] ev2] eqn:E; [|done].
    intros [= <- <-]. apply IH in E as [Hn Hb].
    rewrite calls_app, calls_logged, filter_app, length_app, H1, Hn.
    split; [done|].
    intros ->. destruct (Hb eq_refl) as [-> Hm]. split; [done|].
    intros m Hin. apply elem_of_app in Hin as [Hin|Hin]; [by eapply Hq|].
    apply elem_of_cons in Hin as [Hin|Hin]; [done|by eapply Hm].
  - destruct (FI.install_each o self files false) as [[b2|e2] ev2] eqn:E;
      [|done].
    intros [= <- <-]. apply IH in E as [Hn Hb].
    rewrite calls_app, calls_logged, filter_app, length_app, H1, Hn.
    split; [done|].
    intros ->. by destruct (Hb eq_refl).
Qed.

End InstallEach.

(** ** [advanced_font_installer.py] *)

Section Advanced.
Context (o : os).

Lemma try_registry_names_spec h v names :
  (∀ e, (AFI.try_registry_names o h v names).1 ≠ Raises (Exc e))
  ∧ (values_set (AFI.try_registry_names o h v names).2 = []
     ∨ ∃ n, n ∈ names
            ∧ set_value o h n v = Returns tt
            ∧ values_set (AFI.try_registry_names o h v names).2 = [(h, n, v)]).
Proof.
  induction names as [|n names [IH1 IH2]]; [split; [done|by left]|].
  cbn [AFI.try_registry_names]. unfold try_except, lift, emit, mbind, run_bind.
  destruct (set_value o h n v) as [[]|[m|m]] eqn:Hs; cbn [fst snd].
  - split; [done|]. right. exists n. split; [by left|done].
  - destruct (AFI.try_registry_names o h v names) as [out evs]; cbn [fst snd] in *.
    split; [done|]. destruct IH2 as [IH2|(n' & ? & ? & IH2)]; [by left|].
    right. exists n'. split; [by right|done].
  - split; [done|by left].
Qed.

(** X20.  [register_font_in_registry] sets at most one registry value,
    under one of its five candidate names for the font and in the hive it
    was asked for; and its result only tells whether the key could be
    opened: it is [True] also when none of the names could be set. *)
Theorem X20_registry_registration font_path font_name (is_system : bool) b evs :
  let h := if is_system then HKEY_LOCAL_MACHINE else HKEY_CURRENT_USER in
  let v := if is_system then name_of font_path else str_path font_path in
  AFI.register_font_in_registry o font_path font_name is_system
  = (Returns b, evs) →
  (b = true ↔ open_key o h = Returns tt)
  ∧ (values_set evs = []
     ∨ ∃ n, n ∈ AFI.registry_names font_name
            ∧ set_value o h n v = Returns tt ∧ values_set evs = [(h, n, v)]).
Proof.
  intros h v. unfold AFI.register_font_in_registry.
  fold h v. unfold try_except at 1. unfold lift, emit, mbind, run_bind, mret, run_ret.
  destruct (open_key o h) as [[]|[m|m]] eqn:Ho; cbn [fst snd].
  - destruct (try_registry_names_spec h v (AFI.registry_names font_name))
      as [H1 H2].
    destruct (AFI.try_registry_names o h v (AFI.registry_names font_name))
      as [[[]|[m|m]] ev1]; cbn [fst snd] in *.
    + intros [= <- <-]. rewrite !app_nil_r. done.
    + by destruct (H1 m).
    + done.
  - intros [= <- <-]. split; [done|by left].
  - done.
Qed.

Lemma afi_register_no_exc font_path font_name is_system e :
  (AFI.register_font_in_registry o font_path font_name is_system).1
  ≠ Raises (Exc e).
Proof.
  unfold AFI.register_font_in_registry. apply try_except_catches.
  intros m. by rewrite bind_emit_fst.
Qed.

Lemma afi_add_font_resource_no_exc font_path e :
  (AFI.add_font_resource o font_path).1 ≠ Raises (Exc e).
Proof.
  unfold AFI.add_font_resource. apply try_except_catches.
  intros m. by rewrite bind_emit_fst.
Qed.

(** X21.  [install_single_font] reports the copy and nothing else: it
    returns [True] exactly when [shutil.copy2] succeeded, whatever the
    registry registration and [AddFontResourceW] did afterwards. *)
Theorem X21_single_font_reports_copy self font_path target_dir font_name b evs :
  AFI.install_single_font o self font_path target_dir font_name
  = (Returns b, evs) →
  (b = true ↔ copy2 o font_path (target_dir / name_of font_path)%path = Returns tt).
Proof.
  unfold AFI.install_single_font.
  unfold try_except at 1. unfold lift, emit, mbind, run_bind, mret, run_ret.
  destruct (copy2 o font_path (target_dir / name_of font_path)%path)
    as [[]|[m|m]] eqn:Hc; cbn [fst snd].
  - pose proof (afi_register_no_exc (target_dir / name_of font_path)%path
                  font_name (bool_decide (target_dir = AFI.system_fonts self)))
      as Hr.
    pose proof (afi_add_font_resource_no_exc
                  (target_dir / name_of font_path)%path) as Ha.
    destruct (AFI.register_font_in_registry _ _ _ _) as [[b1|[m|m]] ev1];
      cbn [fst snd] in *; [| by destruct (Hr m) | done].
    destruct (AFI.add_font_resource _ _) as [[b2|[m|m]] ev2];
      cbn [fst snd] in *; [| by destruct (Ha m) | done].
    by intros [= <- _].
  - by intros [= <- _].
  - done.
Qed.

End Advanced.

Lemma X19_every_font_attempted_witness :
  length (filter (λ f, f = "install_font_windows")
            (calls (FI.install_each Sample.registry_denied
                      (FI.Make "windows" Sample.windows_fonts Sample.tmp)
                      [FontFile Sample.satoshi_otf Sample.body;
                       FontFile Sample.satoshi_otf Sample.body] true).2))
  = 2%nat.
Proof.
  apply (X19_every_font_attempted Sample.registry_denied
           (FI.Make "windows" Sample.windows_fonts Sample.tmp)
           [FontFile Sample.satoshi_otf Sample.body;
            FontFile Sample.satoshi_otf Sample.body] true false).
  reflexivity.
Defined.

Lemma X20_registry_registration_witness :
  (true = true ↔ open_key Sample.registry_denied HKEY_CURRENT_USER = Returns tt)
  ∧ (values_set
       (AFI.register_font_in_registry Sample.registry_denied
          (Sample.my_fonts / "Satoshi-Bold.otf")%path "Satoshi-Bold" false).2 = []
     ∨ ∃ n, n ∈ AFI.registry_names "Satoshi-Bold"
            ∧ set_value Sample.registry_denied HKEY_CURRENT_USER n
                (str_path (Sample.my_fonts / "Satoshi-Bold.otf")%path) = Returns tt
            ∧ values_set
                (AFI.register_font_in_registry Sample.registry_denied
                   (Sample.my_fonts / "Satoshi-Bold.otf")%path "Satoshi-Bold"
                   false).2
              = [(HKEY_CURRENT_USER, n,
                  str_path (Sample.my_fonts / "Satoshi-Bold.otf")%path)]).
Proof.
  apply (X20_registry_registration Sample.registry_denied
           (Sample.my_fonts / "Satoshi-Bold.otf")%path "Satoshi-Bold" false true).
  reflexivity.
Defined.

Lemma X21_single_font_reports_copy_witness :
  true = true
  ↔ copy2 Sample.no_registration Sample.satoshi_otf
      (Sample.my_fonts / name_of Sample.satoshi_otf)%path = Returns tt.
Proof.
  eapply (X21_single_font_reports_copy Sample.no_registration
            (AFI.Make Sample.windows_fonts Sample.my_fonts)
            Sample.satoshi_otf Sample.my_fonts "Satoshi-Bold" true).
  reflexivity.
Defined.


(** ** From the downloader to the installer *)

Section FindZips.
Context (fl : flavour).

Lemma relative_to_app dir rel : relative_to dir (dir ++ rel) = Some rel.
Proof.
  induction dir as [|d dir IH]; [done|]. simpl. by rewrite String.eqb_refl.
Qed.

Lemma endswith_suffix s suf : endswith (s +:+ suf) suf = true.
Proof.
  induction s as [|c s IH].
  - simpl. destruct suf; simpl; [done|]. by rewrite Ascii.eqb_refl, String.eqb_refl.
  - change (String c s +:+ suf) with (String c (s +:+ suf)).
    cbn [endswith]. rewrite IH. by destruct (String.eqb _ _).
Qed.

Lemma lower_app s t : lower (s +:+ t) = lower s +:+ lower t.
Proof. induction s as [|c s IH]; simpl; [done|by rewrite IH]. Qed.

Lemma matches_zip_archive n : matches_zip fl (n +:+ ".zip") = true.
Proof.
  destruct fl; simpl; [apply endswith_suffix|].
  rewrite lower_app. apply endswith_suffix.
Qed.

Lemma pjoin_ne_nil p n : (p / n)%path ≠ [].
Proof. unfold pjoin. by destruct p. Qed.

Lemma is_dir_lookup fs (p : path) : p ≠ [] → is_dir fs p = true → fs !! p = Some Dir.
Proof.
  unfold is_dir. destruct p as [|c p]; [done|]. intros _ H.
  repeat case_match; simplify_eq; done.
Qed.

Lemma is_dir_exists fs (p : path) : p ≠ [] → is_dir fs p = true → path_exists fs p = true.
Proof.
  intros Hp Hd. unfold path_exists. by rewrite (is_dir_lookup fs p Hp Hd).
Qed.

(** In a well-formed tree, an entry two levels below a directory is found
    by the recursive search when its name matches. *)
Lemma rglob_finds fs dir n name :
  wf_fs fs → is_Some (fs !! (dir / n / name)%path) →
  matches_zip fl name = true →
  (dir / n / name)%path ∈ rglob_zip fl fs dir.
Proof.
  intros Hwf [x Hx] Hm. unfold rglob_zip.
  apply elem_of_filter. split; [|by apply elem_of_dom].
  assert (is_dir fs (dir / n)%path = true) as Hd1
    by (by eapply wf_parent_dir).
  assert (is_dir fs dir = true) as Hd0.
  { apply is_dir_lookup in Hd1; [|apply pjoin_ne_nil].
    by apply (wf_parent_dir fs dir n Dir). }
  apply andb_true_iff. split.
  - unfold below, pjoin. rewrite <- app_assoc, relative_to_app. cbn.
    rewrite app_nil_r, Hd0. unfold pjoin in Hd1. by rewrite Hd1.
  - unfold name_of, pjoin. by rewrite last_last.
Qed.

End FindZips.

(** X22.  What the bulk downloader leaves behind is what the installer
    looks for (POSIX path rules): for a list of plain font names, each a
    single path component, and a run started on a well-formed tree, every
    font that the run does not report as failed has its archive among the
    files [find_font_zips] returns for the download directory. *)
Theorem X22_installer_finds_downloads (w : world) (output_dir : path)
    (fs0 : fsys) (fonts : list string) (n : string) :
  wf_fs fs0 → output_dir ≠ [] →
  Forall single_component fonts →
  n ∈ fonts →
  n ∉ BD.failed_fonts (BD.download_all_fonts w fs0 fonts output_dir) →
  BD.font_file output_dir n
  ∈ find_font_zips Posix
      (BD.fs (BD.download_all_fonts w fs0 fonts output_dir)) output_dir.
Proof.
  intros Hwf Hne _ Hin Hnf.
  assert (path_exists (BD.fs (BD.download_all_fonts w fs0 fonts output_dir))
            (BD.font_file output_dir n) = true) as Hex
    by (by apply loop_success_on_disk).
  set (r := BD.download_all_fonts w fs0 fonts output_dir) in *.
  assert (wf_fs (BD.fs r)) as Hwf' by (by apply loop_wf).
  assert (is_Some (BD.fs r !! BD.font_file output_dir n)) as Hs.
  { unfold path_exists in Hex. by destruct (BD.fs r !! _). }
  pose proof (rglob_finds Posix (BD.fs r) output_dir n (n +:+ ".zip") Hwf' Hs
                (matches_zip_archive Posix n)) as Hfound.
  unfold find_font_zips.
  assert (path_exists (BD.fs r) output_dir = true) as ->; [|done].
  apply is_dir_exists; [done|].
  destruct Hs as [x Hx].
  assert (is_dir (BD.fs r) (output_dir / n)%path = true) as Hd1
    by (by eapply wf_parent_dir).
  apply is_dir_lookup in Hd1; [|apply pjoin_ne_nil].
  by apply (wf_parent_dir (BD.fs r) output_dir n Dir).
Qed.

Lemma single_component_satoshi : single_component "satoshi".
Proof. unfold single_component. repeat split; try done. simpl. lia. Qed.

Lemma single_component_foo : single_component "foo".
Proof. unfold single_component. repeat split; try done. simpl. lia. Qed.

Lemma single_component_bar : single_component "bar".
Proof. unfold single_component. repeat split; try done. simpl. lia. Qed.

Lemma X22_installer_finds_downloads_witness :
  BD.font_file ["fontshare_fonts"] "satoshi"
  ∈ find_font_zips Posix
      (BD.fs (BD.download_all_fonts Sample.service Sample.bulk_disk
                ["satoshi"; "foo"] ["fontshare_fonts"]))
      ["fontshare_fonts"].
Proof.
  apply (X22_installer_finds_downloads Sample.service
           ["fontshare_fonts"] Sample.bulk_disk ["satoshi"; "foo"] "satoshi").
  - apply bulk_disk_wf.
  - discriminate.
  - apply Forall_cons. split; [apply single_component_satoshi|].
    apply Forall_cons. split; [apply single_component_foo|]. constructor.
  - apply elem_of_cons. left. reflexivity.
  - vm_compute. intros H. apply list_elem_of_singleton in H. discriminate.
Defined.

Section MachineToInstaller.
Context (w : world) (self : FD.t).

(** No segment removes an entry from the disk. *)
Lemma seg_of_keeps_existing fs n p s q :
  FD.seg_of w self fs n p = Some s →
  path_exists fs q = true → path_exists (FD.seg_fs s) q = true.
Proof.
  intros Hs Hq.
  assert (is_Some (fs !! q)) as Hsome.
  { unfold path_exists in Hq. by destruct (fs !! q). }
  destruct p as [| |rd| |b]; simpl in Hs; simplify_eq; try done.
  - unfold FD.seg_start.
    destruct (mkdir_exist_ok fs (FD.font_dir self n)) as [fs1|e] eqn:Hmk; [|done].
    assert (path_exists fs1 q = true) as H1.
    { unfold path_exists. rewrite (mkdir_keeps_entries _ _ _ _ Hmk Hsome).
      exact Hq. }
    by destruct (already_downloaded w fs1 (FD.font_file self n)).
  - unfold FD.seg_get. repeat case_match; done.
  - unfold FD.seg_read. destruct rd as [c|e]; [|done].
    destruct (write_file fs (FD.font_file self n) c) as [fs'|e] eqn:Hwr; [|done].
    apply write_file_ok in Hwr as (-> & _). simpl. unfold path_exists in *.
    destruct (decide (q = FD.font_file self n)) as [->|Hne].
    + by rewrite lookup_insert_eq.
    + by rewrite lookup_insert_ne.
Qed.

Lemma seg_of_wf fs n p s :
  FD.seg_of w self fs n p = Some s → wf_fs fs → wf_fs (FD.seg_fs s).
Proof.
  intros Hs Hwf.
  destruct p as [| |rd| |b]; simpl in Hs; simplify_eq; try done.
  - unfold FD.seg_start.
    destruct (mkdir_exist_ok fs (FD.font_dir self n)) as [fs1|e] eqn:Hmk; [|done].
    apply mkdir_preserves in Hmk as (Hwf1 & _); [|done].
    by destruct (already_downloaded w fs1 (FD.font_file self n)).
  - unfold FD.seg_get. repeat case_match; done.
  - unfold FD.seg_read. destruct rd as [c|e]; [|done].
    destruct (write_file fs (FD.font_file self n) c) as [fs'|e] eqn:Hwr; [|done].
    by apply write_preserves in Hwr as (Hwf1 & _).
Qed.

(** A segment that ends in the sleep or with [True] leaves the archive
    of its font on the disk. *)
Lemma seg_of_success fs n p s :
  FD.seg_of w self fs n p = Some s →
  (p = FD.Sleeping → path_exists fs (FD.font_file self n) = true) →
  FD.seg_pc s = FD.Sleeping ∨ FD.seg_pc s = FD.Done true →
  path_exists (FD.seg_fs s) (FD.font_file self n) = true.
Proof.
  intros Hs Hp Hpc.
  destruct p as [| |rd| |b]; simpl in Hs; simplify_eq.
  - unfold FD.seg_start in *.
    destruct (mkdir_exist_ok fs (FD.font_dir self n)) as [fs1|e];
      [|by destruct Hpc].
    destruct (already_downloaded w fs1 (FD.font_file self n)) eqn:Hdl;
      [|by destruct Hpc].
    unfold already_downloaded in Hdl. by apply andb_true_iff in Hdl as [? _].
  - unfold FD.seg_get in *. repeat case_match; by destruct Hpc.
  - unfold FD.seg_read in *. destruct rd as [c|e]; [|by destruct Hpc].
    destruct (write_file fs (FD.font_file self n) c) as [fs'|e] eqn:Hwr;
      [|by destruct Hpc].
    apply write_file_ok in Hwr as (-> & _). simpl. unfold path_exists.
    by rewrite lookup_insert_eq.
  - by apply Hp.
Qed.

(** X23.  Under any schedule, a task that has returned [True] has its
    archive on the disk; and (POSIX path rules) when the font list holds
    plain names, each a single path component, and the run started on a
    well-formed tree, that archive is among the files the installer's
    [find_font_zips] returns for the downloader's [fonts] directory. *)
Theorem X23_success_means_archive fs font_list sched tk :
  let st := FD.exec w self (FD.init self fs font_list) sched in
  tk ∈ FD.tasks st → FD.t_pc tk = FD.Done true →
  path_exists (FD.st_fs st) (FD.font_file self (FD.t_name tk)) = true
  ∧ (wf_fs fs → Forall single_component font_list →
     FD.font_file self (FD.t_name tk)
     ∈ find_font_zips Posix (FD.st_fs st) (FD.fonts_dir self)).
Proof.
  intros st Hin Hpc.
  assert (∀ tk, tk ∈ FD.tasks st →
            FD.t_pc tk = FD.Sleeping ∨ FD.t_pc tk = FD.Done true →
            path_exists (FD.st_fs st) (FD.font_file self (FD.t_name tk)) = true)
    as Hex.
  { unfold st. apply exec_invariant; clear.
    - intros st i st' HP Hst tk' Hin' Hpc'.
      apply step_Some in Hst
        as (tk & s & Htk & _ & Hs & _ & Htasks & Hfs & _).
      rewrite Hfs. rewrite Htasks in Hin'.
      apply list_elem_of_lookup in Hin' as [j Hj].
      destruct (decide (j = i)) as [->|Hne].
      + rewrite list_lookup_insert_eq in Hj by (by eapply lookup_lt_Some).
        inversion Hj; subst; clear Hj. simpl in *.
        eapply seg_of_success; [exact Hs| |exact Hpc'].
        intros Hsl. apply HP; [by eapply list_elem_of_lookup_2|by left].
      + rewrite list_lookup_insert_ne in Hj by done.
        eapply seg_of_keeps_existing; [exact Hs|].
        apply HP; [by eapply list_elem_of_lookup_2|done].
    - intros tk' Hin' Hpc'. simpl in Hin'.
      apply list_elem_of_fmap in Hin' as (n & -> & _). by destruct Hpc'. }
  specialize (Hex tk Hin (or_intror Hpc)). split; [done|].
  intros Hwf _.
  assert (wf_fs (FD.st_fs st)) as Hwf'.
  { unfold st. apply exec_invariant; [|done]. clear.
    intros st i st' HP Hst.
    apply step_Some in Hst as (tk & s & _ & _ & Hs & _ & _ & Hfs & _).
    rewrite Hfs. by eapply seg_of_wf. }
  assert (is_Some (FD.st_fs st !! FD.font_file self (FD.t_name tk))) as Hs.
  { unfold path_exists in Hex. by destruct (FD.st_fs st !! _). }
  pose proof (rglob_finds Posix (FD.st_fs st) (FD.fonts_dir self) (FD.t_name tk)
                (FD.t_name tk +:+ ".zip") Hwf' Hs
                (matches_zip_archive Posix (FD.t_name tk))) as Hfound.
  unfold find_font_zips.
  assert (path_exists (FD.st_fs st) (FD.fonts_dir self) = true) as ->; [|done].
  apply is_dir_exists; [apply pjoin_ne_nil|].
  destruct Hs as [x Hx].
  assert (is_dir (FD.st_fs st) (FD.fonts_dir self / FD.t_name tk)%path = true)
    as Hd1 by (by eapply wf_parent_dir).
  apply is_dir_lookup in Hd1; [|apply pjoin_ne_nil].
  by apply (wf_parent_dir (FD.st_fs st) (FD.fonts_dir self) (FD.t_name tk) Dir).
Qed.

End MachineToInstaller.

Lemma disk_wf : wf_fs Sample.disk.
Proof. unfold wf_fs. apply (bool_decide_unpack _). vm_compute. exact I. Qed.

Lemma X23_success_means_archive_witness :
  let st := FD.exec Sample.service Sample.self
              (FD.init Sample.self Sample.disk ["bar"; "foo"]) (FD.sequential 2) in
  path_exists (FD.st_fs st) (FD.font_file Sample.self "bar") = true
  ∧ FD.font_file Sample.self "bar"
    ∈ find_font_zips Posix (FD.st_fs st) (FD.fonts_dir Sample.self).
Proof.
  destruct (X23_success_means_archive Sample.service Sample.self Sample.disk
              ["bar"; "foo"] (FD.sequential 2) (FD.Task "bar" (FD.Done true)))
    as [A B].
  - apply list_elem_of_lookup. exists 0%nat. reflexivity.
  - reflexivity.
  - split; [exact A|]. apply B; [apply disk_wf|].
    apply Forall_cons. split; [apply single_component_bar|].
    apply Forall_cons. split; [apply single_component_foo|]. constructor.
Defined.

(** ** [extract_all_fonts.py]: what [main] does to the disk *)

Section ExtractMain.
Context (can_unlink : path → bool) (user_fonts : path).

Lemma mkdir_steps_keep (p : path) ks : ∀ fs fs' (q : path),
  foldl (λ acc k, match acc with
                  | Raise e => Raise e
                  | Ok fs => mkdir_exist_ok fs (take k p)
                  end) (Ok fs) ks = Ok fs' →
  is_Some (fs !! q) → fs' !! q = fs !! q.
Proof.
  induction ks as [|k ks IH]; intros fs fs' q H Hq; simpl in H.
  { by inversion H. }
  destruct (mkdir_exist_ok fs (take k p)) as [fs1|e] eqn:Hmk.
  - pose proof (mkdir_keeps_entries _ _ _ _ Hmk Hq) as E.
    rewrite (IH _ _ _ H); [done|]. by rewrite E.
  - exfalso. clear -H. induction ks as [|k' ks IH]; simpl in H; [done|auto].
Qed.

Lemma clear_fonts_lookup fs (q : path) :
  (EAF.clear_fonts can_unlink user_fonts fs).1 !! q
  = match fs !! q with
    | Some nd => if EAF.cleared can_unlink user_fonts q nd then None else Some nd
    | None => None
    end.
Proof.
  unfold EAF.clear_fonts. cbn [fst].
  destruct (fs !! q) as [nd|] eqn:E.
  - destruct (EAF.cleared can_unlink user_fonts q nd) eqn:Hc.
    + apply map_lookup_filter_None. right. intros nd' E'. simpl.
      rewrite E in E'. inversion E'; subst. by rewrite Hc.
    + apply map_lookup_filter_Some. by split.
  - apply map_lookup_filter_None. by left.
Qed.

Lemma cleared_child q nd :
  EAF.cleared can_unlink user_fonts q nd = true → q ≠ [] ∧ parent q = user_fonts.
Proof.
  unfold EAF.cleared. rewrite !andb_true_iff. intros [[[H _] _] _].
  by apply bool_decide_eq_true in H.
Qed.

Lemma write_entries_lookup entries : ∀ fs total fs' total' err (q : path),
  EAF.write_entries Posix user_fonts entries fs total = (fs', total', err) →
  (∀ e, e ∈ entries → q ≠ (user_fonts / path_name Posix (filename e))%path) →
  fs' !! q = fs !! q.
Proof.
  induction entries as [|e entries IH]; intros fs total fs' total' err q H Hq.
  { by inversion H. }
  cbn [EAF.write_entries] in H.
  assert (∀ e0, e0 ∈ entries →
            q ≠ (user_fonts / path_name Posix (filename e0))%path) as Hq'
    by (intros e0 He0; apply Hq; by right).
  destruct (has_font_extension _ _); [|by eapply IH].
  destruct (data e) as [c|m]; [|by inversion H].
  destruct (write_file fs _ c) as [fs1|m] eqn:Hwr; [|by inversion H].
  rewrite (IH _ _ _ _ _ _ H Hq').
  apply write_file_ok in Hwr as (-> & _).
  rewrite lookup_insert_ne; [done|]. intros E. eapply Hq; [by left|done].
Qed.

Lemma extract_zips_lookup zips : ∀ fs total (q : path),
  (∀ entries e, Ok entries ∈ zips → e ∈ entries →
     q ≠ (user_fonts / path_name Posix (filename e))%path) →
  (EAF.extract_zips Posix user_fonts zips fs total).1 !! q = fs !! q.
Proof.
  induction zips as [|[entries|m] zips IH]; intros fs total q Hq; [done|..];
    cbn [EAF.extract_zips].
  - destruct (EAF.write_entries Posix user_fonts entries fs total)
      as [[fs1 total1] err] eqn:Hw.
    rewrite IH by (intros en e Hen; apply Hq; by right).
    eapply write_entries_lookup; [exact Hw|].
    intros e He. eapply Hq; [by left|done].
  - apply IH. intros en e Hen. apply Hq. by right.
Qed.

Lemma path_parent_name (p : path) : p ≠ [] → p = (parent p / name_of p)%path.
Proof. intros Hp. unfold parent, name_of, pjoin. by apply app_removelast_last. Qed.

(** X25.  (POSIX path rules, a disk of files and directories whose names
    are compared exactly.)  The fonts that were in the target directory
    are lost unless an archive brings a file of the same name: a [.ttf] or
    [.otf] file directly in [user_fonts] that can be unlinked, and whose
    name is the base name of no entry of the archives, is gone after
    [main]. *)
Theorem X25_existing_fonts_are_cleared fs zips fs' cleared_count total_fonts
    (p : path) content :
  EAF.main Posix can_unlink fs user_fonts zips
  = Ok (fs', cleared_count, total_fonts) →
  fs !! p = Some (File content) →
  p ≠ [] → parent p = user_fonts →
  lower (EAF.suffix (name_of p)) ∈ [".ttf"; ".otf"] →
  can_unlink p = true →
  (∀ entries e, Ok entries ∈ zips → e ∈ entries →
     path_name Posix (filename e) ≠ name_of p) →
  fs' !! p = None.
Proof.
  unfold EAF.main. intros H Hp Hne Hpar Hsuf Hun Hnames.
  destruct (EAF.mkdir_parents fs user_fonts) as [fs1|e] eqn:Hmk; [|done].
  destruct (EAF.clear_fonts can_unlink user_fonts fs1) as [fs2 n] eqn:Hcl.
  destruct (EAF.extract_zips Posix user_fonts zips fs2 0) as [fs3 t] eqn:Hex.
  injection H as <- _ _.
  replace fs3 with (EAF.extract_zips Posix user_fonts zips fs2 0).1
    by (by rewrite Hex).
  rewrite extract_zips_lookup.
  2: { intros en e Hen He E. apply (Hnames en e Hen He).
       rewrite (path_parent_name p Hne) in E.
       by apply pjoin_inj in E as [_ <-]. }
  replace fs2 with (EAF.clear_fonts can_unlink user_fonts fs1).1
    by (by rewrite Hcl).
  rewrite clear_fonts_lookup.
  rewrite (mkdir_steps_keep _ _ _ _ _ Hmk) by (by rewrite Hp).
  rewrite Hp. unfold EAF.cleared.
  rewrite Hun, !bool_decide_eq_true_2; done.
Qed.

End ExtractMain.

Lemma X25_existing_fonts_are_cleared_witness :
  ∃ fs' cleared_count total_fonts,
    EAF.main Posix (λ _, true) Scenario.font_folder ["Fonts"]
      [Ok [ZipInfo "../../Satoshi-Bold.otf" (Ok Sample.body)]]
    = Ok (fs', cleared_count, total_fonts)
    ∧ fs' !! (["Fonts"; "Old.ttf"] : path) = None.
Proof.
  eexists _, _, _. split; [reflexivity|].
  eapply (X25_existing_fonts_are_cleared (λ _, true) ["Fonts"]
            Scenario.font_folder [Ok [ZipInfo "../../Satoshi-Bold.otf" (Ok Sample.body)]]).
  - reflexivity.
  - reflexivity.
  - discriminate.
  - reflexivity.
  - apply elem_of_cons. left. reflexivity.
  - reflexivity.
  - intros entries e Hen He. apply list_elem_of_singleton in Hen.
    injection Hen as ->. apply list_elem_of_singleton in He. subst e.
    vm_compute. discriminate.
Defined.

Section LastWriter.
Context (user_fonts : path).

(** X26.  (POSIX path rules, a disk of files and directories whose names
    are compared exactly.)  Within an archive that is extracted without
    error, a later font entry silently replaces an earlier one of the same
    base name:
    [total_fonts] counts every font entry, and what the target directory
    holds under a name is the content of the last font entry with that
    base name (or what was there, if there is none). *)
Theorem X26_last_entry_wins entries : ∀ fs total fs' total' name,
  EAF.write_entries Posix user_fonts entries fs total = (fs', total', None) →
  let sel := filter (λ e, has_font_extension ExtractAllFonts.font_extensions
                            (filename e) = true) entries in
  total' = (total + length sel)%nat
  ∧ fs' !! (user_fonts / name)%path
    = match last (filter (λ e, path_name Posix (filename e) = name) sel) with
      | Some e => Some (File (content_of e))
      | None => fs !! (user_fonts / name)%path
      end.
Proof.
  induction entries as [|e entries IH]; intros fs total fs' total' name H.
  { injection H as <- <-. simpl. split; [lia|done]. }
  cbn [EAF.write_entries] in H. cbv zeta. rewrite filter_cons.
  destruct (has_font_extension ExtractAllFonts.font_extensions (filename e))
    eqn:Hext.
  2: { rewrite decide_False by done. by apply IH. }
  rewrite decide_True by done.
  destruct (data e) as [c|m] eqn:Hd; [|done].
  destruct (write_file fs (user_fonts / path_name Posix (filename e))%path c)
    as [fs1|m] eqn:Hwr; [|done].
  destruct (IH _ _ _ _ name H) as [Ht Hl]. cbv zeta in Hl.
  split; [cbn [length]; lia|].
  rewrite Hl. rewrite filter_cons.
  apply write_file_ok in Hwr as (-> & _).
  destruct (decide (path_name Posix (filename e) = name)) as [<-|Hne].
  - destruct (filter _ (filter _ entries)) as [|e' l] eqn:Hf.
    + simpl. rewrite lookup_insert_eq. unfold content_of. by rewrite Hd.
    + rewrite last_cons_cons. destruct (last (e' :: l)) eqn:El; [done|].
      by apply last_None in El.
  - rewrite lookup_insert_ne; [done|].
    intros E. by apply pjoin_inj in E as [_ ?].
Qed.

End LastWriter.

Lemma X26_last_entry_wins_witness :
  ∃ fs' total',
    EAF.write_entries Posix ["Fonts"]
      [ZipInfo "otf/Satoshi.otf" (Ok [Byte.x50]);
       ZipInfo "web/Satoshi.otf" (Ok Sample.body)] Scenario.font_folder 0
    = (fs', total', None)
    ∧ total' = 2%nat
    ∧ fs' !! (["Fonts"] / "Satoshi.otf")%path = Some (File Sample.body).
Proof.
  eexists _, _. split; [reflexivity|].
  eapply (X26_last_entry_wins ["Fonts"]
            [ZipInfo "otf/Satoshi.otf" (Ok [Byte.x50]);
             ZipInfo "web/Satoshi.otf" (Ok Sample.body)]
            Scenario.font_folder 0 _ _ "Satoshi.otf").
  reflexivity.
Defined.

(** ** Names of extracted files, for every archive *)

Section ExtractionInGeneral.
Context (fl : flavour).

(** The extraction loop of [install_fonts.py] on any archive: it selects
    the font entries in order up to the first one that cannot be read. *)
Lemma fi_extract_members_any (self : FI.t) entries : ∀ acc,
  ∃ pre,
    Forall readable
      (filter (λ e, has_font_extension FI.font_extensions (filename e) = true)
         pre)
    ∧ (FI.extract_members fl self entries acc).1
      = acc ++ ((λ e, FontFile (FI.temp_dir self ++ arcname fl (filename e))
                        (content_of e))
                <$> filter (λ e, has_font_extension FI.font_extensions
                                   (filename e) = true) pre)
    ∧ (((FI.extract_members fl self entries acc).2 = None ∧ pre = entries)
       ∨ ∃ bad post m,
           entries = pre ++ bad :: post
           ∧ has_font_extension FI.font_extensions (filename bad) = true
           ∧ data bad = Raise m
           ∧ (FI.extract_members fl self entries acc).2 = Some m).
Proof.
  induction entries as [|e entries IH]; intros acc.
  { exists []. simpl. rewrite app_nil_r. repeat split; [constructor|by left]. }
  cbn [FI.extract_members].
  destruct (has_font_extension FI.font_extensions (filename e)) eqn:He.
  - destruct (data e) as [c|m] eqn:Hd.
    + destruct (IH (acc ++ [FontFile (FI.temp_dir self ++ arcname fl (filename e)) c]))
        as (pre & Hr & Hf & Hend).
      exists (e :: pre). rewrite filter_cons, decide_True by done.
      split; [apply Forall_cons; split; [by exists c|done]|].
      split.
      * rewrite Hf, fmap_cons, <- app_assoc. cbn [app].
        by replace (content_of e) with c by (unfold content_of; by rewrite Hd).
      * destruct Hend as [[Hn ->]|(bad & post & m & -> & ? & ? & ?)];
          [by left|]. right. by exists bad, post, m.
    + exists []. simpl. rewrite app_nil_r.
      split; [constructor|]. split; [done|]. right. by exists e, entries, m.
  - destruct (IH acc) as (pre & Hr & Hf & Hend).
    exists (e :: pre). rewrite filter_cons, decide_False by (by rewrite He).
    split; [done|]. split; [done|].
    destruct Hend as [[Hn ->]|(bad & post & m & -> & ? & ? & ?)];
      [by left|]. right. by exists bad, post, m.
Qed.

(** The same for the loop of [extract_all_fonts.py]. *)
Lemma eaf_extract_entries_any (user_fonts : path) entries : ∀ acc,
  ∃ pre,
    Forall readable
      (filter (λ e, has_font_extension ExtractAllFonts.font_extensions
                      (filename e) = true) pre)
    ∧ (ExtractAllFonts.extract_entries fl user_fonts entries acc).1
      = acc ++ ((λ e, FontFile (user_fonts / path_name fl (filename e))%path
                        (content_of e))
                <$> filter (λ e, has_font_extension
                                   ExtractAllFonts.font_extensions
                                   (filename e) = true) pre)
    ∧ (((ExtractAllFonts.extract_entries fl user_fonts entries acc).2 = None
        ∧ pre = entries)
       ∨ ∃ bad post m,
           entries = pre ++ bad :: post
           ∧ has_font_extension ExtractAllFonts.font_extensions (filename bad)
             = true
           ∧ data bad = Raise m
           ∧ (ExtractAllFonts.extract_entries fl user_fonts entries acc).2
             = Some m).
Proof.
  induction entries as [|e entries IH]; intros acc.
  { exists []. simpl. rewrite app_nil_r. repeat split; [constructor|by left]. }
  cbn [ExtractAllFonts.extract_entries].
  destruct (has_font_extension ExtractAllFonts.font_extensions (filename e))
    eqn:He.
  - destruct (data e) as [c|m] eqn:Hd.
    + destruct (IH (acc ++ [FontFile (user_fonts / path_name fl (filename e))%path c]))
        as (pre & Hr & Hf & Hend).
      exists (e :: pre). rewrite filter_cons, decide_True by done.
      split; [apply Forall_cons; split; [by exists c|done]|].
      split.
      * rewrite Hf, fmap_cons, <- app_assoc. cbn [app].
        by replace (content_of e) with c by (unfold content_of; by rewrite Hd).
      * destruct Hend as [[Hn ->]|(bad & post & m & -> & ? & ? & ?)];
          [by left|]. right. by exists bad, post, m.
    + exists []. simpl. rewrite app_nil_r.
      split; [constructor|]. split; [done|]. right. by exists e, entries, m.
  - destruct (IH acc) as (pre & Hr & Hf & Hend).
    exists (e :: pre). rewrite filter_cons, decide_False by (by rewrite He).
    split; [done|]. split; [done|].
    destruct Hend as [[Hn ->]|(bad & post & m & -> & ? & ? & ?)];
      [by left|]. right. by exists bad, post, m.
Qed.

Lemma last_elem_of {A} (l : list A) d : l ≠ [] → List.last l d ∈ l.
Proof.
  induction l as [|x l IH]; [done|]. intros _.
  destruct l as [|y l]; [by left|]. right. by apply IH.
Qed.

(** The base name of an entry with a font extension is a proper file
    name. *)
Lemma base_name_component (exts : list string) name :
  Forall (λ ext, has_sep fl ext = false ∧ 3 ≤ String.length ext)%nat exts →
  has_font_extension exts name = true →
  has_sep fl (path_name fl name) = false
  ∧ path_name fl name ≠ "" ∧ path_name fl name ≠ "."
  ∧ path_name fl name ≠ "..".
Proof.
  intros Hexts Hm.
  destruct (matched_name fl exts [] name Hexts Hm) as [Hne Hlast].
  simpl in Hlast. unfold name_of in Hlast.
  pose proof (last_elem_of (arcname fl name) "" Hne) as Hin.
  rewrite Hlast in Hin.
  pose proof (arcname_components fl name) as Hall.
  rewrite Forall_forall in Hall. by apply Hall.
Qed.

End ExtractionInGeneral.

Lemma eaf_extensions_plain fl :
  Forall (λ ext, has_sep fl ext = false ∧ (3 ≤ String.length ext)%nat)
    ExtractAllFonts.font_extensions.
Proof. repeat constructor; destruct fl; simpl; (reflexivity || lia). Qed.

(** C6 (amended; POSIX path rules).  For every archive, extraction goes
    through the entries in archive order and selects exactly those whose
    name, put in lower case, ends with one of the script's font
    extensions, up to the first selected entry that cannot be read (all of
    them when there is none).  [extract_all_fonts.py] writes each under
    its base name [Path(name).name], which holds no separator.
    [install_fonts.py] extracts each under its temporary directory at the
    entry's archive path, directories included (minus empty, ["."] and
    [".."] components), and only the installation drops them: every copy
    goes to the font directory under the last component, which is that
    same base name. *)
Theorem C6_extracted_names :
  (∀ self entries,
     ∃ pre,
       Forall readable
         (filter (λ e, has_font_extension FI.font_extensions (filename e) = true)
            pre)
       ∧ (FI.extract_members Posix self entries []).1
         = ((λ e, FontFile (FI.temp_dir self ++ arcname Posix (filename e))
                    (content_of e))
            <$> filter (λ e, has_font_extension FI.font_extensions (filename e)
                             = true) pre)
       ∧ (((FI.extract_members Posix self entries []).2 = None ∧ pre = entries)
          ∨ ∃ bad post m,
              entries = pre ++ bad :: post
              ∧ has_font_extension FI.font_extensions (filename bad) = true
              ∧ data bad = Raise m
              ∧ (FI.extract_members Posix self entries []).2 = Some m))
  ∧ (∀ user_fonts entries,
       ∃ pre,
         Forall readable
           (filter (λ e, has_font_extension ExtractAllFonts.font_extensions
                           (filename e) = true) pre)
         ∧ (ExtractAllFonts.extract_entries Posix user_fonts entries []).1
           = ((λ e, FontFile (user_fonts / path_name Posix (filename e))%path
                      (content_of e))
              <$> filter (λ e, has_font_extension
                                 ExtractAllFonts.font_extensions (filename e)
                               = true) pre)
         ∧ (((ExtractAllFonts.extract_entries Posix user_fonts entries []).2
             = None ∧ pre = entries)
            ∨ ∃ bad post m,
                entries = pre ++ bad :: post
                ∧ has_font_extension ExtractAllFonts.font_extensions
                    (filename bad) = true
                ∧ data bad = Raise m
                ∧ (ExtractAllFonts.extract_entries Posix user_fonts entries []).2
                  = Some m))
  ∧ (∀ name, has_sep Posix (path_name Posix name) = false)
  ∧ (∀ name, Forall (λ c, has_sep Posix c = false ∧ c ≠ "" ∧ c ≠ "." ∧ c ≠ "..")
               (arcname Posix name))
  ∧ (∀ temp name,
       has_font_extension FI.font_extensions name = true →
       arcname Posix name ≠ []
       ∧ name_of (temp ++ arcname Posix name) = path_name Posix name)
  ∧ (∀ o self font_path src dst,
       Copied src dst ∈ snd (FI.install_font o self font_path) →
       dst = (FI.system_font_dir self / name_of font_path)%path).
Proof.
  split; [intros self entries; apply (fi_extract_members_any Posix self entries [])|].
  split; [intros uf entries; apply (eaf_extract_entries_any Posix uf entries [])|].
  split; [apply path_name_no_sep|].
  split; [apply arcname_components|].
  split; [|apply fi_install_dest].
  intros temp name. apply matched_name, fi_extensions_plain.
Qed.

Lemma C6_extracted_names_witness :
  (arcname Posix "fonts/otf/Satoshi-Bold.otf" ≠ []
   ∧ name_of (Sample.tmp ++ arcname Posix "fonts/otf/Satoshi-Bold.otf")
     = path_name Posix "fonts/otf/Satoshi-Bold.otf")
  ∧ ∃ pre,
      Forall readable
        (filter (λ e, has_font_extension FI.font_extensions (filename e) = true)
           pre)
      ∧ (FI.extract_members Posix
           (FI.Make "linux" Sample.my_fonts Sample.tmp)
           [ZipInfo "fonts/otf/Satoshi-Bold.otf" (Ok Sample.body);
            ZipInfo "LICENSE.txt" (Ok [])] []).1
        = ((λ e, FontFile (Sample.tmp ++ arcname Posix (filename e))
                   (content_of e))
           <$> filter (λ e, has_font_extension FI.font_extensions (filename e)
                            = true) pre)
      ∧ (((FI.extract_members Posix
             (FI.Make "linux" Sample.my_fonts Sample.tmp)
             [ZipInfo "fonts/otf/Satoshi-Bold.otf" (Ok Sample.body);
              ZipInfo "LICENSE.txt" (Ok [])] []).2 = None
          ∧ pre = [ZipInfo "fonts/otf/Satoshi-Bold.otf" (Ok Sample.body);
                   ZipInfo "LICENSE.txt" (Ok [])])
         ∨ ∃ bad post m,
             [ZipInfo "fonts/otf/Satoshi-Bold.otf" (Ok Sample.body);
              ZipInfo "LICENSE.txt" (Ok [])] = pre ++ bad :: post
             ∧ has_font_extension FI.font_extensions (filename bad) = true
             ∧ data bad = Raise m
             ∧ (FI.extract_members Posix
                  (FI.Make "linux" Sample.my_fonts Sample.tmp)
                  [ZipInfo "fonts/otf/Satoshi-Bold.otf" (Ok Sample.body);
                   ZipInfo "LICENSE.txt" (Ok [])] []).2 = Some m).
Proof.
  destruct C6_extracted_names as (A & _ & _ & _ & E & _). split.
  - apply E. reflexivity.
  - apply A.
Defined.

(** X24.  (POSIX path rules.)  Archive names cannot steer
    [extract_all_fonts.py] to another directory: every path it opens for
    writing is [user_fonts] joined with one component, the base name of a
    font entry, which holds no separator and is neither empty, ["."] nor
    [".."], whatever directories, [..] or leading [/] the entry's name
    carries. *)
Theorem X24_written_paths_in_target (user_fonts : path) entries f :
  f ∈ (ExtractAllFonts.extract_entries Posix user_fonts entries []).1 →
  ∃ e, e ∈ entries
       ∧ has_font_extension ExtractAllFonts.font_extensions (filename e) = true
       ∧ ff_path f = (user_fonts / path_name Posix (filename e))%path
       ∧ has_sep Posix (path_name Posix (filename e)) = false
       ∧ path_name Posix (filename e) ≠ ""
       ∧ path_name Posix (filename e) ≠ "."
       ∧ path_name Posix (filename e) ≠ "..".
Proof.
  destruct (eaf_extract_entries_any Posix user_fonts entries [])
    as (pre & _ & -> & Hend).
  intros Hin. simpl in Hin.
  apply list_elem_of_fmap in Hin as (e & -> & He).
  apply list_elem_of_filter in He as [Hext Hpre].
  exists e. split.
  { destruct Hend as [[_ <-]|(bad & post & m & -> & _)]; [done|].
    apply elem_of_app. by left. }
  split; [done|]. split; [done|].
  apply (base_name_component Posix ExtractAllFonts.font_extensions);
    [apply eaf_extensions_plain|done].
Qed.

Lemma X24_written_paths_in_target_witness :
  ∃ e, e ∈ [ZipInfo "../../etc/Evil.ttf" (Ok Sample.body)]
       ∧ has_font_extension ExtractAllFonts.font_extensions (filename e) = true
       ∧ ff_path (FontFile ["Fonts"; "Evil.ttf"] Sample.body)
         = (["Fonts"] / path_name Posix (filename e))%path
       ∧ has_sep Posix (path_name Posix (filename e)) = false
       ∧ path_name Posix (filename e) ≠ ""
       ∧ path_name Posix (filename e) ≠ "."
       ∧ path_name Posix (filename e) ≠ "..".
Proof.
  apply (X24_written_paths_in_target ["Fonts"]
           [ZipInfo "../../etc/Evil.ttf" (Ok Sample.body)]
           (FontFile ["Fonts"; "Evil.ttf"] Sample.body)).
  vm_compute. apply list_elem_of_singleton. reflexivity.
Defined.

(** ** Archives without fonts, in the whole run *)

Section NoFontsInTheRun.
Context (o : os) (fl : flavour).

Lemma no_font_entries_spec exts z :
  no_font_entries exts z = true →
  ∃ entries, contents z = Ok entries
             ∧ Forall (λ e, has_font_extension exts (filename e) = false) entries.
Proof.
  unfold no_font_entries. destruct (contents z) as [entries|m]; [|done].
  intros H. exists entries. split; [done|].
  apply Forall_forall. intros e He.
  rewrite forallb_forall in H. apply negb_true_iff, H. by apply list_elem_of_In.
Qed.

Lemma fi_process_zip_no_fonts self st z :
  no_font_entries FI.font_extensions z = true →
  FI.process_zip o fl self st z
  = (Returns (FI.Stats (FI.processed st + 1) (FI.installed st)
                       (FI.failed st + 1)),
     [Logged (Log INFO ("Processing: " +:+ zip_name z));
      Logged (Log WARNING ("No font files found in " +:+ zip_name z))]).
Proof.
  intros H. apply no_font_entries_spec in H as (entries & Hz & Hnone).
  unfold FI.process_zip, FI.extract_fonts_from_zip.
  rewrite Hz, fi_extract_members_none by done. done.
Qed.

Lemma wfi_process_zip_no_fonts self c z :
  no_font_entries WFI.font_extensions z = true →
  WFI.process_zip o fl self c z
  = (Returns c,
     [Printed ("Installing: " +:+ stem_of (zip_name z));
      Printed ("  ⚠️  No font files found in " +:+ stem_of (zip_name z))]).
Proof.
  intros H. apply no_font_entries_spec in H as (entries & Hz & Hnone).
  unfold WFI.process_zip, WFI.extract_fonts_from_zip.
  rewrite Hz, wfi_extract_members_none by done. done.
Qed.

(** The run of [install_fonts.py]: every archive without fonts adds one to
    [failed] and leaves its warning in the log; the others add one to
    [installed] at most. *)
Lemma fi_process_zips_no_fonts self zips : ∀ st s evs,
  FI.process_zips o fl self st zips = (Returns s, evs) →
  let empty := filter (λ z, no_font_entries FI.font_extensions z = true) zips in
  (FI.failed st + Z.of_nat (length empty) ≤ FI.failed s)%Z
  ∧ (FI.installed s
     ≤ FI.installed st + Z.of_nat (length zips) - Z.of_nat (length empty))%Z
  ∧ ∀ z, z ∈ empty →
         Logged (Log WARNING ("No font files found in " +:+ zip_name z)) ∈ evs.
Proof.
  induction zips as [|z zips IH]; intros st s evs H; cbv zeta.
  { injection H as <- <-. simpl. repeat split; try lia.
    intros z Hz. by apply elem_of_nil in Hz. }
  cbn [FI.process_zips] in H. unfold mbind, run_bind in H.
  rewrite filter_cons.
  destruct (no_font_entries FI.font_extensions z) eqn:Hz.
  - rewrite decide_True by done.
    rewrite fi_process_zip_no_fonts in H by done.
    destruct (FI.process_zips o fl self _ zips) as [[s1|e] ev1] eqn:E; [|done].
    injection H as <- <-. apply IH in E as (Hf & Hi & Hw). cbv zeta in *.
    simpl in Hf, Hi. cbn [length]. repeat split; try lia.
    intros z' Hz'. cbn [app].
    apply elem_of_cons in Hz' as [->|Hz'].
    + apply elem_of_cons. right. apply elem_of_cons. by left.
    + apply elem_of_cons. right. apply elem_of_cons. right. by apply Hw.
  - rewrite decide_False by done.
    pose proof (fi_process_zip_counts o fl self st z) as Hc.
    destruct (FI.process_zip o fl self st z) as [[st1|e] ev0]; [|done].
    destruct (FI.process_zips o fl self st1 zips) as [[s1|e] ev1] eqn:E; [|done].
    injection H as <- <-. apply IH in E as (Hf & Hi & Hw). cbv zeta in *.
    cbn [length]. repeat split; try lia.
    intros z' Hz'. apply elem_of_app. right. by apply Hw.
Qed.

(** One archive in the loop of [run] of [proper_font_installer.py] adds
    at most one to [success_count]. *)
Lemma wfi_process_zip_success self c z c' evs :
  WFI.process_zip o fl self c z = (Returns c', evs) →
  (WFI.success_count c ≤ WFI.success_count c' ≤ WFI.success_count c + 1)%Z.
Proof.
  unfold WFI.process_zip.
  destruct (WFI.extract_fonts_from_zip fl self z) as [files errors].
  assert (∃ evs0, (foldr (λ m k, emit (Printed m);; k) (mret tt) errors
                   : run unit) = (Returns tt, evs0)) as [evs0 ->].
  { induction errors as [|m errors [evs0 IH]]; [by eexists|].
    cbn [foldr]. rewrite IH. by eexists. }
  unfold emit, mbind, run_bind, mret, run_ret. cbn [fst].
  destruct files as [|f files].
  { intros [= <- _]. lia. }
  destruct (WFI.install_each o self (f :: files) c true)
    as [[[c1 ps1]|e] ev] eqn:E; [|done].
  apply wfi_install_each_counts in E as (_ & Hs & _).
  destruct ps1; intros [= <- _]; simpl in *; lia.
Qed.

Lemma proper_run_loop_no_fonts self zips : ∀ c c' evs,
  proper_run_loop o fl self c zips = (Returns c', evs) →
  let empty := filter (λ z, no_font_entries WFI.font_extensions z = true) zips in
  (WFI.success_count c'
   ≤ WFI.success_count c + Z.of_nat (length zips) - Z.of_nat (length empty))%Z
  ∧ ∀ z, z ∈ empty →
         Printed ("  ⚠️  No font files found in " +:+ stem_of (zip_name z))
         ∈ evs.
Proof.
  induction zips as [|z zips IH]; intros c c' evs H; cbv zeta.
  { injection H as <- <-. simpl. split; [lia|].
    intros z Hz. by apply elem_of_nil in Hz. }
  cbn [proper_run_loop] in H. unfold mbind, run_bind in H.
  rewrite filter_cons.
  destruct (no_font_entries WFI.font_extensions z) eqn:Hz.
  - rewrite decide_True by done.
    rewrite wfi_process_zip_no_fonts in H by done.
    destruct (proper_run_loop o fl self c zips) as [[c1|e] ev1] eqn:E; [|done].
    injection H as <- <-. apply IH in E as (Hs & Hw). cbv zeta in *.
    cbn [length]. split; [lia|].
    intros z' Hz'. cbn [app].
    apply elem_of_cons in Hz' as [->|Hz'].
    + apply elem_of_cons. right. apply elem_of_cons. by left.
    + apply elem_of_cons. right. apply elem_of_cons. right. by apply Hw.
  - rewrite decide_False by done.
    destruct (WFI.process_zip o fl self c z) as [[c0|e] ev0] eqn:Ez; [|done].
    apply wfi_process_zip_success in Ez.
    destruct (proper_run_loop o fl self c0 zips) as [[c1|e] ev1] eqn:E; [|done].
    injection H as <- <-. apply IH in E as (Hs & Hw). cbv zeta in *.
    cbn [length]. split; [lia|].
    intros z' Hz'. apply elem_of_app. right. by apply Hw.
Qed.

End NoFontsInTheRun.

(** C7 (amended).  An archive that opens and has no entry with an accepted
    font extension is never a success, and no installation is attempted
    for it.  In [install_fonts.py] it is a failure of the run: its
    iteration logs "No font files found in ..." and adds one to [failed]
    and nothing to [installed], so that when [install_all_fonts] returns,
    [failed] is at least the number of such archives, [installed] at most
    the number of the others, and the log holds the warning of each.  In
    [proper_font_installer.py] the iteration prints the warning and leaves
    both counters as they were; when the loop of [run] ends,
    [success_count] is at most the number of the other archives.  That
    script keeps no tally of failures. *)
Theorem C7_no_font_files_is_failure (o : os) (fl : flavour) :
  (∀ z entries,
     contents z = Ok entries →
     Forall (λ e, has_font_extension FI.font_extensions (filename e) = false)
       entries →
     (∀ self st,
        FI.process_zip o fl self st z
        = (Returns (FI.Stats (FI.processed st + 1) (FI.installed st)
                             (FI.failed st + 1)),
           [Logged (Log INFO ("Processing: " +:+ zip_name z));
            Logged (Log WARNING ("No font files found in " +:+ zip_name z))]))
     ∧ (∀ self c,
          WFI.process_zip o fl self c z
          = (Returns c,
             [Printed ("Installing: " +:+ stem_of (zip_name z));
              Printed ("  ⚠️  No font files found in "
                       +:+ stem_of (zip_name z))])))
  ∧ (∀ self zips s evs,
       FI.install_all_fonts o fl self zips = (Returns s, evs) →
       let empty := filter (λ z, no_font_entries FI.font_extensions z = true)
                      zips in
       (Z.of_nat (length empty) ≤ FI.failed s)%Z
       ∧ (FI.installed s ≤ Z.of_nat (length zips) - Z.of_nat (length empty))%Z
       ∧ ∀ z, z ∈ empty →
              Logged (Log WARNING ("No font files found in " +:+ zip_name z))
              ∈ evs)
  ∧ (∀ self zips c evs,
       proper_run_loop o fl self (WFI.Counters 0 0) zips = (Returns c, evs) →
       let empty := filter (λ z, no_font_entries WFI.font_extensions z = true)
                      zips in
       (WFI.success_count c
        ≤ Z.of_nat (length zips) - Z.of_nat (length empty))%Z
       ∧ ∀ z, z ∈ empty →
              Printed ("  ⚠️  No font files found in " +:+ stem_of (zip_name z))
              ∈ evs).
Proof.
  split; [|split].
  - intros z entries Hz Hnone. split.
    + intros self st. unfold FI.process_zip, FI.extract_fonts_from_zip.
      rewrite Hz, fi_extract_members_none by done. done.
    + intros self c. unfold WFI.process_zip, WFI.extract_fonts_from_zip.
      rewrite Hz, wfi_extract_members_none; [done|].
      eapply Forall_impl; [exact Hnone|].
      intros e. apply wfi_extension_fi_extension.
  - intros self zips s evs H. unfold FI.install_all_fonts in H.
    destruct zips as [|z zips].
    { injection H as <- <-. cbv zeta. simpl. repeat split; try lia.
      intros z Hz. by apply elem_of_nil in Hz. }
    apply fi_process_zips_no_fonts in H. cbv zeta in *. simpl in H.
    destruct H as (Hf & Hi & Hw). repeat split; try done; lia.
  - intros self zips c evs H.
    apply proper_run_loop_no_fonts in H. cbv zeta in *. simpl in H.
    destruct H as (Hs & Hw). split; [lia|done].
Qed.

Lemma C7_no_font_files_is_failure_witness :
  (1 ≤ FI.failed (FI.Stats 2 1 1))%Z
  ∧ (FI.installed (FI.Stats 2 1 1) ≤ 2 - 1)%Z
  ∧ ∀ z, z ∈ [Sample.baz_zip] →
         Logged (Log WARNING ("No font files found in " +:+ zip_name z))
         ∈ (FI.install_all_fonts Sample.registry_denied Posix
              (FI.Make "linux" Sample.my_fonts Sample.tmp)
              [Sample.satoshi_zip; Sample.baz_zip]).2.
Proof.
  destruct (C7_no_font_files_is_failure Sample.registry_denied Posix)
    as (_ & B & _).
  eapply (B (FI.Make "linux" Sample.my_fonts Sample.tmp)
            [Sample.satoshi_zip; Sample.baz_zip] (FI.Stats 2 1 1)).
  reflexivity.
Defined.

(** C7 as stated does not hold of [proper_font_installer.py]: its run
    keeps no failed tally, and an archive without fonts leaves both
    counters of the loop exactly as they were. *)
Lemma C7_counterexample :
  ¬ (∀ o fl self c z entries c' evs,
       contents z = Ok entries →
       Forall (λ e, has_font_extension WFI.font_extensions (filename e) = false)
         entries →
       WFI.process_zip o fl self c z = (Returns c', evs) →
       c' ≠ c).
Proof.
  intros H.
  apply (H Sample.locked_down Posix
           (WFI.Make Sample.windows_fonts Sample.my_fonts Sample.tmp)
           (WFI.Counters 0 0) Sample.baz_zip [ZipInfo "LICENSE.txt" (Ok [])]
           (WFI.Counters 0 0)
           [Printed "Installing: baz";
            Printed "  ⚠️  No font files found in baz"]).
  - reflexivity.
  - apply Forall_singleton. vm_compute. reflexivity.
  - vm_compute. reflexivity.
  - reflexivity.
Qed.

(** ** What is fetched again *)

Section Refetch.
Context (w : world).

(** The skip test fails on a missing archive and on an empty one. *)
Lemma gate_open fs (p : path) :
  fs !! p = None ∨ fs !! p = Some (File []) →
  already_downloaded w fs p = false.
Proof.
  unfold already_downloaded, path_exists, st_size. by intros [-> | ->].
Qed.

Lemma is_dir_same fs fs' (q : path) :
  fs' !! q = fs !! q → is_dir fs' q = is_dir fs q.
Proof. intros E. unfold is_dir. destruct q; [done|]. by rewrite E. Qed.

Lemma fd_font_file_ne_dir (self : FD.t) n :
  FD.font_file self n ≠ FD.font_dir self n.
Proof. apply pjoin_ne_self. Qed.

(** [download_font] requests a font whose archive is missing or empty. *)
Lemma download_font_requests (self : FD.t) fs fs1 n :
  mkdir_exist_ok fs (FD.font_dir self n) = Ok fs1 →
  fs !! FD.font_file self n = None
  ∨ fs !! FD.font_file self n = Some (File []) →
  FD.seg_reqs (FD.download_font w self fs n) = [FD.download_url self n].
Proof.
  intros Hmk Hf.
  assert (already_downloaded w fs1 (FD.font_file self n) = false) as Hdl.
  { rewrite (mkdir_keeps_download_state w _ _ _ _ Hmk);
      [by apply gate_open|apply fd_font_file_ne_dir]. }
  unfold FD.download_font. cbn [FD.run_segs FD.seg_of FD.seg_pc FD.seg_fs].
  unfold FD.seg_start. rewrite Hmk, Hdl.
  cbn [FD.run_segs FD.seg_of FD.seg_pc FD.seg_fs FD.seg_reqs FD.seg_log app].
  unfold FD.seg_get, FD.handler.
  destruct (http_get w (FD.download_url self n)) as [r|e]; [|done].
  destruct (bool_decide (status r = 200%Z)); [|done].
  cbn [FD.run_segs FD.seg_of FD.seg_pc FD.seg_fs FD.seg_reqs FD.seg_log app].
  unfold FD.seg_read, FD.handler. destruct (read r) as [c|e]; [|done].
  by destruct (write_file fs1 (FD.font_file self n) c).
Qed.

Context (output_dir : path).
Implicit Types (a : BD.acc) (n m : string).

(** So does an iteration of the bulk loop. *)
Lemma fetch_one_requests a fs1 n :
  mkdir_exist_ok (BD.fs a) (BD.font_dir output_dir n) = Ok fs1 →
  BD.fs a !! BD.font_file output_dir n = None
  ∨ BD.fs a !! BD.font_file output_dir n = Some (File []) →
  BD.requests (BD.fetch_one w output_dir a n) = BD.requests a ++ [BD.url n].
Proof.
  intros Hmk Hf.
  assert (already_downloaded w fs1 (BD.font_file output_dir n) = false) as Hdl.
  { rewrite (mkdir_keeps_download_state w _ _ _ _ Hmk);
      [by apply gate_open|apply font_file_ne_dir]. }
  unfold BD.fetch_one, BD.on_exception. rewrite Hmk, Hdl.
  repeat case_match; done.
Qed.

Lemma to_fetch_mkdir fs n :
  to_fetch fs output_dir n →
  ∃ fs1, mkdir_exist_ok fs (BD.font_dir output_dir n) = Ok fs1
         ∧ to_fetch fs1 output_dir n
         ∧ is_dir fs1 (BD.font_dir output_dir n) = true.
Proof.
  intros (Hd & Hnf & Hf).
  assert (∃ fs1, mkdir_exist_ok fs (BD.font_dir output_dir n) = Ok fs1)
    as [fs1 Hmk].
  { unfold mkdir_exist_ok.
    destruct (is_dir fs (BD.font_dir output_dir n)) eqn:E; [by eexists|].
    destruct (fs !! BD.font_dir output_dir n) as [[|c]|] eqn:E1.
    - unfold is_dir, BD.font_dir, pjoin in *.
      destruct (output_dir ++ [n]) eqn:E2; [done|]. by rewrite E1 in E.
    - by destruct (Hnf c).
    - unfold BD.font_dir at 1. rewrite parent_pjoin, Hd. by eexists. }
  exists fs1. split; [done|].
  pose proof (mkdir_ok_is_dir _ _ _ Hmk) as Hd1.
  split; [|done]. split; [|split].
  - rewrite (is_dir_same fs); [done|].
    eapply mkdir_ok_lookup; [done|]. intros E. symmetry in E.
    by apply pjoin_ne_self in E.
  - intros c Hc. apply is_dir_lookup in Hd1; [|apply pjoin_ne_nil]. congruence.
  - rewrite (mkdir_ok_lookup _ _ _ _ Hmk); [done|apply font_file_ne_dir].
Qed.

Lemma output_dir_ne_file m : output_dir ≠ BD.font_file output_dir m.
Proof.
  unfold BD.font_file, BD.font_dir, pjoin. intros H.
  apply (f_equal length) in H. rewrite !length_app in H. simpl in H. lia.
Qed.

Lemma font_dir_inj n m : BD.font_dir output_dir n = BD.font_dir output_dir m → n = m.
Proof. intros H. by apply pjoin_inj in H as [_ ?]. Qed.

(** An iteration for another font changes nothing of this. *)
Lemma to_fetch_other a m n :
  m ≠ n → to_fetch (BD.fs a) output_dir n →
  to_fetch (BD.fs (BD.fetch_one w output_dir a m)) output_dir n.
Proof.
  intros Hmn (Hd & Hnf & Hf). split; [|split].
  - rewrite (is_dir_same (BD.fs a)); [done|].
    apply fetch_one_other; [|apply output_dir_ne_file].
    intros E. symmetry in E. by apply pjoin_ne_self in E.
  - intros c. rewrite fetch_one_other; [apply Hnf| |].
    + intros E. by apply font_dir_inj in E.
    + intros E. symmetry in E. by apply font_file_ne_dir in E.
  - rewrite fetch_one_other; [done|apply font_file_ne_dir|].
    intros E. by apply font_file_inj in E.
Qed.

Lemma requests_mono total u fonts : ∀ a i,
  u ∈ BD.requests a → u ∈ BD.requests (BD.loop w output_dir total a i fonts).
Proof.
  induction fonts as [|m fonts IH]; intros a i Hu; simpl; [done|].
  apply IH. rewrite iteration_fetch_one. set (a0 := BD.Acc _ _ _ _ _).
  destruct (fetch_one_counts w output_dir a0 m) as [_ [-> | ->]]; [done|].
  apply elem_of_app. by left.
Qed.

(** A font of the list that is still to be fetched is requested. *)
Lemma loop_requests total n fonts : ∀ a i,
  n ∈ fonts → to_fetch (BD.fs a) output_dir n →
  BD.url n ∈ BD.requests (BD.loop w output_dir total a i fonts).
Proof.
  induction fonts as [|m fonts IH]; intros a i Hin Hto; simpl.
  { by apply elem_of_nil in Hin. }
  rewrite iteration_fetch_one. set (a0 := BD.Acc _ _ _ _ _).
  destruct (decide (m = n)) as [->|Hmn].
  - apply requests_mono.
    destruct (to_fetch_mkdir _ _ Hto) as (fs1 & Hmk & _).
    rewrite (fetch_one_requests a0 fs1 n Hmk); [|by destruct Hto as (_ & _ & ?)].
    apply elem_of_app. right. by left.
  - apply elem_of_cons in Hin as [->|Hin]; [done|].
    apply IH; [done|]. by apply (to_fetch_other a0).
Qed.

(** A fetch that fails leaves the font to be fetched, and in
    [failed_fonts]. *)
Lemma to_fetch_failing a n reason :
  failure_reason w (BD.url n) = Some reason →
  to_fetch (BD.fs a) output_dir n →
  let a' := BD.fetch_one w output_dir a n in
  to_fetch (BD.fs a') output_dir n ∧ n ∈ BD.failed_fonts a'.
Proof.
  intros Hfail Hto.
  destruct (to_fetch_mkdir _ _ Hto) as (fs1 & Hmk & Hto1 & _).
  assert (already_downloaded w fs1 (BD.font_file output_dir n) = false) as Hdl
    by (apply gate_open; by destruct Hto1 as (_ & _ & ?)).
  destruct (fetch_one_fails w output_dir a fs1 n reason Hmk Hdl Hfail)
    as (Hf & _ & _ & Hfs & _).
  cbv zeta. rewrite Hfs, Hf. split; [done|].
  apply elem_of_app. right. by left.
Qed.

Lemma loop_failing total n reason fonts : ∀ a i,
  failure_reason w (BD.url n) = Some reason →
  to_fetch (BD.fs a) output_dir n →
  let a' := BD.loop w output_dir total a i fonts in
  to_fetch (BD.fs a') output_dir n ∧ (n ∈ fonts → n ∈ BD.failed_fonts a').
Proof.
  induction fonts as [|m fonts IH]; intros a i Hfail Hto; cbv zeta; simpl.
  { split; [done|]. intros H. by apply elem_of_nil in H. }
  rewrite iteration_fetch_one. set (a0 := BD.Acc _ _ _ _ _).
  destruct (decide (m = n)) as [->|Hmn].
  - destruct (to_fetch_failing a0 n reason Hfail Hto) as [Hto' Hin'].
    destruct (IH (BD.fetch_one w output_dir a0 n) (S i) Hfail Hto') as [H1 _].
    split; [done|]. intros _. by apply failed_fonts_mono.
  - destruct (IH (BD.fetch_one w output_dir a0 m) (S i) Hfail
                (to_fetch_other a0 m n Hmn Hto)) as [H1 H2].
    split; [done|]. intros Hin. apply H2.
    apply elem_of_cons in Hin as [->|Hin]; done.
Qed.

Lemma write_file_empty fs (p : path) :
  is_dir fs p = false → is_dir fs (parent p) = true →
  write_file fs p [] = Ok (<[p := File []]> fs).
Proof.
  intros Hp Hpar. unfold write_file, write_file_trace, open_wb.
  by rewrite Hp, Hpar.
Qed.

(** A fetch that stores an empty body counts as a success and leaves an
    empty archive, still to be fetched. *)
Lemma to_fetch_empty_body a n r :
  http_get w (BD.url n) = Ok r → status r = 200%Z → read r = Ok [] →
  to_fetch (BD.fs a) output_dir n →
  let a' := BD.fetch_one w output_dir a n in
  to_fetch (BD.fs a') output_dir n
  ∧ BD.failed_fonts a' = BD.failed_fonts a
  ∧ BD.fs a' !! BD.font_file output_dir n = Some (File []).
Proof.
  intros Hget Hst Hrd Hto.
  destruct (to_fetch_mkdir _ _ Hto) as (fs1 & Hmk & Hto1 & Hd1).
  destruct Hto1 as (Hd & Hnf & Hf).
  assert (already_downloaded w fs1 (BD.font_file output_dir n) = false) as Hdl
    by (by apply gate_open).
  assert (is_dir fs1 (BD.font_file output_dir n) = false) as Hnd.
  { unfold is_dir, BD.font_file, pjoin in *.
    destruct (_ ++ [n +:+ ".zip"]) eqn:E; [by destruct (BD.font_dir output_dir n)|].
    by destruct Hf as [-> | ->]. }
  cbv zeta. unfold BD.fetch_one. rewrite Hmk, Hdl, Hget, Hst.
  rewrite bool_decide_eq_true_2 by done. rewrite Hrd.
  rewrite write_file_empty; [|done|].
  2: { unfold BD.font_file. by rewrite parent_pjoin. }
  cbn [BD.fs BD.failed_fonts]. split; [|split; [done|apply lookup_insert_eq]].
  split; [|split].
  - rewrite (is_dir_same fs1); [done|].
    apply lookup_insert_ne. intros E. symmetry in E.
    by apply output_dir_ne_file in E.
  - intros c. rewrite lookup_insert_ne; [apply Hnf|apply font_file_ne_dir].
  - right. apply lookup_insert_eq.
Qed.

Lemma loop_empty_body total n r fonts : ∀ a i,
  http_get w (BD.url n) = Ok r → status r = 200%Z → read r = Ok [] →
  to_fetch (BD.fs a) output_dir n → n ∉ BD.failed_fonts a →
  let a' := BD.loop w output_dir total a i fonts in
  to_fetch (BD.fs a') output_dir n ∧ (n ∉ BD.failed_fonts a')
  ∧ (n ∈ fonts ∨ BD.fs a !! BD.font_file output_dir n = Some (File []) →
     BD.fs a' !! BD.font_file output_dir n = Some (File [])).
Proof.
  induction fonts as [|m fonts IH]; intros a i Hget Hst Hrd Hto Hnf;
    cbv zeta; simpl.
  { split; [done|]. split; [done|]. intros [H|H]; [|done].
    by apply elem_of_nil in H. }
  rewrite iteration_fetch_one. set (a0 := BD.Acc _ _ _ _ _).
  destruct (decide (m = n)) as [->|Hmn].
  - destruct (to_fetch_empty_body a0 n r Hget Hst Hrd Hto) as (Hto' & Hf' & Hl').
    destruct (IH (BD.fetch_one w output_dir a0 n) (S i) Hget Hst Hrd Hto')
      as (H1 & H2 & H3); [by rewrite Hf'|].
    split; [done|]. split; [done|]. intros _. apply H3. by right.
  - destruct (IH (BD.fetch_one w output_dir a0 m) (S i) Hget Hst Hrd
                (to_fetch_other a0 m n Hmn Hto)) as (H1 & H2 & H3).
    { destruct (fetch_one_counts w output_dir a0 m) as [[[_ ->]|[_ ->]] _];
        [done|]. simpl. intros H. apply elem_of_app in H as [H|H]; [done|].
      apply list_elem_of_singleton in H. done. }
    split; [done|]. split; [done|]. intros [Hin|Hl]; apply H3.
    + apply elem_of_cons in Hin as [->|Hin]; [done|by left].
    + right. rewrite fetch_one_other; [done|apply font_file_ne_dir|].
      intros E. by apply font_file_inj in E.
Qed.

End Refetch.

(** C1 (amended).  A font whose archive is already there with at least one
    byte is not fetched: [download_font] returns [True] with the skipping
    message, the bulk loop counts it as a success, and in both no request is
    issued and the disk is untouched.  On a second run of the bulk
    downloader every font whose archive is non-empty after the first run is
    skipped without a request, and if that holds for all of them the
    second run issues no request at all.  A font whose archive is missing,
    or is there as an empty file, is requested, by [download_font] and by
    the bulk loop, when its directory can be made.  So the second run
    requests again every font whose first fetch failed, and every font
    whose first fetch stored an empty body.  (The statements on what is
    requested are for plain font names, each a single path component.) *)
Theorem C1_skip_existing_archive (w : world) :
  (∀ self fs n,
     is_dir fs (FD.font_dir self n) = true →
     nonempty_file fs (FD.font_file self n) →
     FD.download_font w self fs n
     = FD.Seg (FD.Done true) fs [Log INFO (FD.msg_skipping n)] [])
  ∧ (∀ output_dir a n,
       is_dir (BD.fs a) (BD.font_dir output_dir n) = true →
       nonempty_file (BD.fs a) (BD.font_file output_dir n) →
       BD.fetch_one w output_dir a n
       = {| BD.success_count := BD.success_count a + 1;
            BD.failed_fonts := BD.failed_fonts a;
            BD.fs := BD.fs a; BD.requests := BD.requests a;
            BD.stdout := BD.stdout a ++ [BD.Line "⏭️  (already exists)"] |})
  ∧ (∀ output_dir fs0 fonts,
       wf_fs fs0 →
       let run1 := BD.download_all_fonts w fs0 fonts output_dir in
       let run2 := BD.download_all_fonts w (BD.fs run1) fonts output_dir in
       (∀ n, nonempty_file (BD.fs run1) (BD.font_file output_dir n) →
             (BD.url n ∉ BD.requests run2) ∧ (n ∉ BD.failed_fonts run2))
       ∧ ((∀ n, n ∈ fonts →
                nonempty_file (BD.fs run1) (BD.font_file output_dir n)) →
          BD.requests run2 = [] ∧ BD.fs run2 = BD.fs run1
          ∧ BD.failed_fonts run2 = []
          ∧ BD.success_count run2 = Z.of_nat (length fonts)))
  ∧ (∀ self fs fs1 n,
       single_component n →
       mkdir_exist_ok fs (FD.font_dir self n) = Ok fs1 →
       fs !! FD.font_file self n = None
       ∨ fs !! FD.font_file self n = Some (File []) →
       FD.seg_reqs (FD.download_font w self fs n) = [FD.download_url self n])
  ∧ (∀ output_dir a fs1 n,
       single_component n →
       mkdir_exist_ok (BD.fs a) (BD.font_dir output_dir n) = Ok fs1 →
       BD.fs a !! BD.font_file output_dir n = None
       ∨ BD.fs a !! BD.font_file output_dir n = Some (File []) →
       BD.requests (BD.fetch_one w output_dir a n)
       = BD.requests a ++ [BD.url n])
  ∧ (∀ output_dir fs fonts n,
       Forall single_component fonts →
       n ∈ fonts → to_fetch fs output_dir n →
       BD.url n ∈ BD.requests (BD.download_all_fonts w fs fonts output_dir))
  ∧ (∀ output_dir fs0 fonts n reason,
       Forall single_component fonts →
       n ∈ fonts → to_fetch fs0 output_dir n →
       failure_reason w (BD.url n) = Some reason →
       let run1 := BD.download_all_fonts w fs0 fonts output_dir in
       let run2 := BD.download_all_fonts w (BD.fs run1) fonts output_dir in
       n ∈ BD.failed_fonts run1 ∧ BD.url n ∈ BD.requests run1
       ∧ to_fetch (BD.fs run1) output_dir n
       ∧ BD.url n ∈ BD.requests run2 ∧ n ∈ BD.failed_fonts run2)
  ∧ (∀ output_dir fs0 fonts n r,
       Forall single_component fonts →
       n ∈ fonts → to_fetch fs0 output_dir n →
       http_get w (BD.url n) = Ok r → status r = 200%Z → read r = Ok [] →
       let run1 := BD.download_all_fonts w fs0 fonts output_dir in
       let run2 := BD.download_all_fonts w (BD.fs run1) fonts output_dir in
       (n ∉ BD.failed_fonts run1) ∧ BD.url n ∈ BD.requests run1
       ∧ BD.fs run1 !! BD.font_file output_dir n = Some (File [])
       ∧ BD.url n ∈ BD.requests run2).
Proof.
  split; [apply download_font_skip|]. split; [apply fetch_one_skip|].
  split.
  { intros output_dir fs0 fonts Hwf run1 run2.
    assert (wf_fs (BD.fs run1)) as Hwf1 by (by apply loop_wf).
    split.
    - intros n Hn.
      destruct (loop_keeps w output_dir (length fonts) n fonts
                  (BD.Acc 0 [] (BD.fs run1) [] []) 1) as (H1 & H2 & _);
        simpl; try done; apply not_elem_of_nil.
    - intros Hall.
      destruct (loop_all_skipped w output_dir (length fonts) fonts
                  (BD.Acc 0 [] (BD.fs run1) [] []) 1) as (H1 & H2 & H3 & H4);
        simpl; try done. }
  split; [intros self fs fs1 n _; apply download_font_requests|].
  split; [intros output_dir a fs1 n _; apply fetch_one_requests|].
  split.
  { intros output_dir fs fonts n _ Hin Hto. by apply loop_requests. }
  split.
  - intros output_dir fs0 fonts n reason _ Hin Hto Hfail run1 run2.
    destruct (loop_failing w output_dir (length fonts) n reason fonts
                (BD.Acc 0 [] fs0 [] []) 1 Hfail Hto) as [Hto1 Hf1].
    destruct (loop_failing w output_dir (length fonts) n reason fonts
                (BD.Acc 0 [] (BD.fs run1) [] []) 1 Hfail Hto1) as [_ Hf2].
    split; [by apply Hf1|]. split; [by apply loop_requests|].
    split; [done|]. split; [by apply loop_requests|by apply Hf2].
  - intros output_dir fs0 fonts n r _ Hin Hto Hget Hst Hrd run1 run2.
    destruct (loop_empty_body w output_dir (length fonts) n r fonts
                (BD.Acc 0 [] fs0 [] []) 1 Hget Hst Hrd Hto)
      as (Hto1 & Hnf1 & Hl1); [apply not_elem_of_nil|].
    split; [done|]. split; [by apply loop_requests|].
    split; [apply Hl1; by left|]. by apply loop_requests.
Qed.

Lemma C1_skip_existing_archive_witness :
  FD.download_font Sample.service Sample.self Sample.disk "bar"
  = FD.Seg (FD.Done true) Sample.disk [Log INFO (FD.msg_skipping "bar")] []
  ∧ BD.requests
      (BD.download_all_fonts Sample.service
         (BD.fs (BD.download_all_fonts Sample.service Sample.disk ["bar"]
                   ["downloads"; "fonts"]))
         ["bar"] ["downloads"; "fonts"]) = []
  ∧ BD.url "foo"
    ∈ BD.requests
        (BD.download_all_fonts Sample.service
           (BD.fs (BD.download_all_fonts Sample.service Sample.bulk_disk
                     ["foo"] ["fontshare_fonts"]))
           ["foo"] ["fontshare_fonts"]).
Proof.
  destruct (C1_skip_existing_archive Sample.service)
    as (A & _ & C & _ & _ & _ & F & _).
  split; [|split].
  - apply A; [vm_compute; reflexivity|].
    exists Sample.body. split; [vm_compute; reflexivity|discriminate].
  - apply (C ["downloads"; "fonts"] Sample.disk ["bar"]).
    + unfold wf_fs. apply (bool_decide_unpack _). vm_compute. exact I.
    + intros n Hn. apply list_elem_of_singleton in Hn. subst n.
      exists Sample.body. split; [vm_compute; reflexivity|discriminate].
  - apply (F ["fontshare_fonts"] Sample.bulk_disk ["foo"] "foo" "HTTP 404").
    + apply Forall_cons. split; [apply single_component_foo|]. constructor.
    + apply elem_of_cons. left. reflexivity.
    + split; [reflexivity|]. split; [intros c; discriminate|by left].
    + reflexivity.
Defined.
